(** * shixian.py: date-bucket classification of screenshots

    A shallow embedding of [src/shixian.py] and of the parts of the Python
    standard library it calls ([datetime], [posixpath], [os], [shutil]).

    Conventions of the model:
    - Python [int] is [Z]; [//] is [Z.div] (both round towards minus
      infinity for a positive divisor and agree for a negative one).
    - Python [str] is [string], the bytes of its UTF-8 form, a byte that
      is not part of a character of UTF-8 standing for itself (the
      [surrogateescape] of file names and arguments); only ASCII letters
      change case, and only the white space of ASCII is white space.
    - An exception is a value of [exn]; a computation that may raise
      returns an [outcome]; a computation on the environment has type
      [M], a state and exception monad.
    - The file system is a finite map from absolute component lists to
      nodes; paths are POSIX paths (module [posixpath]), resolved
      component by component without a look at the file system (so
      [x/..] is the directory of [x], whether [x] is there or not); there
      are no symbolic links and one device; a directory allows the creation
      and removal of entries or it does not, and it allows its listing
      or it does not.  A renamed or copied file has the clock of the
      environment as its [st_ctime], as on Linux; the times of a
      directory, which the program never reads, are those of its making.
      The clock, [now], is the time of the operations on the file
      system; it stands still during a run.
    - A timestamp is a float that holds a whole number of seconds, the
      local zone is UTC, [time_t] has 64 bits and the C library is glibc.
    - The standard output is open and encodes UTF-8.
    - A loop without bound in the source ([while] in [ensure_unique],
      [os.walk]) takes a number of iterations as fuel. *)

From Stdlib Require Import ZArith Lia List Ascii String Bool.
From stdpp Require Import base option list gmap strings pretty.

Local Open Scope string_scope.
Local Open Scope Z_scope.

(** ** Exceptions and outcomes *)

Inductive exn : Type :=
  | ZeroDivisionError
  | OverflowError
  | ValueError
  | TypeError
  | IndexError
  | AttributeError
  | FileNotFoundError
  | FileExistsError
  | PermissionError
  | NotADirectoryError
  | IsADirectoryError
  | OSError             (* any other [OSError] *)
  | UnicodeEncodeError.

(** [isinstance(e, OSError)]: the classes caught by [except OSError]. *)
Definition is_OSError (e : exn) : bool :=
  match e with
  | FileNotFoundError | FileExistsError | PermissionError
  | NotADirectoryError | IsADirectoryError | OSError => true
  | _ => false
  end.

Inductive outcome (A : Type) : Type :=
  | Ret (a : A)
  | Raise (e : exn).
Arguments Ret {A} a.
Arguments Raise {A} e.

Definition obind {A B} (x : outcome A) (f : A -> outcome B) : outcome B :=
  match x with
  | Ret a => f a
  | Raise e => Raise e
  end.

Notation "'let!' x ':=' c 'in' k" := (obind c (fun x => k))
  (at level 10, x name, c at level 100, k at level 200, only parsing).

(** ** The proleptic Gregorian calendar of [datetime]

    The functions below follow CPython's [Lib/_pydatetime.py]. *)

Module Calendar.

Definition MINYEAR : Z := 1.
Definition MAXYEAR : Z := 9999.
Definition _MAXORDINAL : Z := 3652059.

Definition _is_leap (year : Z) : bool :=
  (year mod 4 =? 0) && (negb (year mod 100 =? 0) || (year mod 400 =? 0)).

Definition _days_before_year (year : Z) : Z :=
  let y := year - 1 in
  y * 365 + y / 4 - y / 100 + y / 400.

(** [_DAYS_IN_MONTH], indexed from 1. *)
Definition _DAYS_IN_MONTH (month : Z) : Z :=
  match month with
  | 1 => 31 | 2 => 28 | 3 => 31 | 4 => 30 | 5 => 31 | 6 => 30
  | 7 => 31 | 8 => 31 | 9 => 30 | 10 => 31 | 11 => 30 | 12 => 31
  | _ => -1
  end.

(** [_DAYS_BEFORE_MONTH], indexed from 1. *)
Definition _DAYS_BEFORE_MONTH (month : Z) : Z :=
  match month with
  | 1 => 0 | 2 => 31 | 3 => 59 | 4 => 90 | 5 => 120 | 6 => 151
  | 7 => 181 | 8 => 212 | 9 => 243 | 10 => 273 | 11 => 304 | 12 => 334
  | _ => -1
  end.

Definition _days_in_month (year month : Z) : Z :=
  if (month =? 2) && _is_leap year then 29 else _DAYS_IN_MONTH month.

Definition _days_before_month (year month : Z) : Z :=
  _DAYS_BEFORE_MONTH month + (if (2 <? month) && _is_leap year then 1 else 0).

Definition _ymd2ord (year month day : Z) : Z :=
  _days_before_year year + _days_before_month year month + day.

Definition _DI400Y : Z := 146097.
Definition _DI100Y : Z := 36524.
Definition _DI4Y : Z := 1461.

(** The month and the day of the month of the [n]-th day (from 0) of a
    year: the second half of [_ord2ymd]. *)
Definition _month_day (leapyear : bool) (n : Z) : Z * Z :=
  let month := Z.shiftr (n + 50) 5 in
  let preceding :=
    _DAYS_BEFORE_MONTH month + (if (2 <? month) && leapyear then 1 else 0) in
  if n <? preceding then
    let month := month - 1 in
    let preceding :=
      preceding - (_DAYS_IN_MONTH month
                   + (if (month =? 2) && leapyear then 1 else 0)) in
    (month, n - preceding + 1)
  else (month, n - preceding + 1).

Definition _ord2ymd (n : Z) : Z * Z * Z :=
  let n := n - 1 in
  let n400 := n / _DI400Y in
  let n := n mod _DI400Y in
  let year := n400 * 400 + 1 in
  let n100 := n / _DI100Y in
  let n := n mod _DI100Y in
  let n4 := n / _DI4Y in
  let n := n mod _DI4Y in
  let n1 := n / 365 in
  let n := n mod 365 in
  let year := year + (n100 * 100 + n4 * 4 + n1) in
  if (n1 =? 4) || (n100 =? 4) then (year - 1, 12, 31)
  else
    let leapyear := (n1 =? 3) && (negb (n4 =? 24) || (n100 =? 3)) in
    let '(month, day) := _month_day leapyear n in
    (year, month, day).

End Calendar.
Export Calendar.

(** ** [datetime.date], [datetime.timedelta], [datetime.datetime] *)

Record date : Type := mkdate { year : Z; month : Z; day : Z }.

(** The check of the [date] constructor ([_check_date_fields]). *)
Definition valid_date (d : date) : bool :=
  (MINYEAR <=? year d) && (year d <=? MAXYEAR)
  && (1 <=? month d) && (month d <=? 12)
  && (1 <=? day d) && (day d <=? _days_in_month (year d) (month d)).

Definition toordinal (d : date) : Z := _ymd2ord (year d) (month d) (day d).

Definition fromordinal (n : Z) : date :=
  let '(y, m, d) := _ord2ymd n in mkdate y m d.

(** [timedelta(days=n)]: the normalised value must have magnitude at most
    999999999 days. *)
Definition timedelta (days : Z) : outcome Z :=
  if Z.abs days <=? 999999999 then Ret days else Raise OverflowError.

(** [date.__add__]. *)
Definition date_add (d : date) (delta_days : Z) : outcome date :=
  let o := toordinal d + delta_days in
  if (0 <? o) && (o <=? _MAXORDINAL) then Ret (fromordinal o)
  else Raise OverflowError.

(** [(a - b).days] for two dates ([date.__sub__]). *)
Definition date_sub_days (a b : date) : Z := toordinal a - toordinal b.

Record datetime : Type := mkdatetime {
  dt_date : date;      (* [dt.date()] *)
  hour : Z;
  minute : Z;
  second : Z
}.

(** [datetime.fromtimestamp(ts)], with the local zone taken to be UTC and
    the timestamp a float that holds a whole number of seconds.  Day 719163
    is 1970-01-01.  A float that [time_t] cannot hold is an
    [OverflowError]; a time whose year [localtime] cannot hold in an [int]
    is an [OSError]; the instant and, for the detection of a repeated
    hour, the instant one day before it must have their years in
    [MINYEAR..MAXYEAR], or it is a [ValueError].  So the instants from
    0001-01-02 00:00:00 to 9999-12-31 23:59:59 are returned. *)
Definition fromtimestamp (ts : Z) : outcome datetime :=
  if (ts <? - 2 ^ 63) || (2 ^ 63 <? ts) then Raise OverflowError
  else if (ts <? -67768040609740800) || (67768036191676799 <? ts)
  then Raise OSError
  else
    let o := 719163 + ts / 86400 in
    let s := ts mod 86400 in
    if (1 <? o) && (o <=? _MAXORDINAL)
    then Ret (mkdatetime (fromordinal o) (s / 3600) (s mod 3600 / 60) (s mod 60))
    else Raise ValueError.

(** ** Strings *)

(** [str(n)] and [f"{n}"] for an [int]. *)
Definition str_int (n : Z) : string := pretty n.

Fixpoint zeros (n : nat) : string :=
  match n with
  | O => ""
  | S k => String "0" (zeros k)
  end.

(** [s.zfill(width)] for a string without sign: the C format [%0<width>d]
    of a non-negative number. *)
Definition zfill (width : nat) (s : string) : string :=
  zeros (width - String.length s) +:+ s.

(** [d.strftime('%Y.%m.%d')]: the month and the day on two digits; the
    year as glibc writes it for [%Y], without padding (four digits from
    the year 1000 on, [999.12.25] before). *)
Definition strftime_Ymd (d : date) : string :=
  str_int (year d) +:+ "." +:+ zfill 2 (str_int (month d))
  +:+ "." +:+ zfill 2 (str_int (day d)).

(** [str(d)] for a date: [d.isoformat()], which pads the year. *)
Definition isoformat (d : date) : string :=
  zfill 4 (str_int (year d)) +:+ "-" +:+ zfill 2 (str_int (month d))
  +:+ "-" +:+ zfill 2 (str_int (day d)).

Definition lower_ascii (c : ascii) : ascii :=
  let n := N_of_ascii c in
  if (65 <=? n)%N && (n <=? 90)%N then ascii_of_N (n + 32) else c.

(** [s.lower()] (ASCII letters). *)
Fixpoint lower (s : string) : string :=
  match s with
  | EmptyString => EmptyString
  | String c s' => String (lower_ascii c) (lower s')
  end.

(** [s.endswith(suffix)]. *)
Fixpoint endswith (s suffix : string) : bool :=
  String.eqb s suffix
  || match s with
     | EmptyString => false
     | String _ s' => endswith s' suffix
     end.

(** [s.startswith(prefix)]. *)
Definition startswith (s prefix : string) : bool := String.prefix prefix s.

(** [s.split(sep)] for a one-character separator. *)
Fixpoint split (sep : ascii) (s : string) : list string :=
  match s with
  | EmptyString => [EmptyString]
  | String c s' =>
      if Ascii.eqb c sep then EmptyString :: split sep s'
      else match split sep s' with
           | h :: t => String c h :: t
           | [] => [String c EmptyString]
           end
  end.

(** [sep.join(parts)]. *)
Fixpoint join_with (sep : string) (parts : list string) : string :=
  match parts with
  | [] => ""
  | [p] => p
  | p :: ps => p +:+ sep +:+ join_with sep ps
  end.

Fixpoint _rfind (c : ascii) (s : string) (i acc : Z) : Z :=
  match s with
  | EmptyString => acc
  | String x s' => _rfind c s' (i + 1) (if Ascii.eqb x c then i else acc)
  end.

(** [s.rfind(c)]: the highest index of [c], or -1. *)
Definition rfind (c : ascii) (s : string) : Z := _rfind c s 0 (-1).

Fixpoint string_drop (n : nat) (s : string) : string :=
  match n, s with
  | O, _ => s
  | S k, String _ s' => string_drop k s'
  | S _, EmptyString => EmptyString
  end.

Fixpoint string_take (n : nat) (s : string) : string :=
  match n, s with
  | S k, String c s' => String c (string_take k s')
  | _, _ => EmptyString
  end.

(** [s[i:]] and [s[:i]] for [0 <= i]. *)
Definition slice_from (i : Z) (s : string) : string := string_drop (Z.to_nat i) s.
Definition slice_to (i : Z) (s : string) : string := string_take (Z.to_nat i) s.

(** The strings that are the UTF-8 form of a text: what the [utf-8]
    codec encodes without error.  The forms of the surrogates and the
    forms longer than needed are not among them. *)
Definition byte_in (lo hi : N) (c : ascii) : bool :=
  let n := N_of_ascii c in (lo <=? n)%N && (n <=? hi)%N.

Fixpoint utf8 (s : string) : bool :=
  match s with
  | EmptyString => true
  | String c s1 =>
      if byte_in 0 127 c then utf8 s1
      else
        match s1 with
        | EmptyString => false
        | String c1 s2 =>
            if byte_in 194 223 c then byte_in 128 191 c1 && utf8 s2
            else
              match s2 with
              | EmptyString => false
              | String c2 s3 =>
                  if byte_in 224 239 c then
                    (if byte_in 224 224 c then byte_in 160 191 c1
                     else if byte_in 237 237 c then byte_in 128 159 c1
                     else byte_in 128 191 c1)
                    && byte_in 128 191 c2 && utf8 s3
                  else
                    match s3 with
                    | EmptyString => false
                    | String c3 s4 =>
                        byte_in 240 244 c
                        && (if byte_in 240 240 c then byte_in 144 191 c1
                            else if byte_in 244 244 c then byte_in 128 143 c1
                            else byte_in 128 191 c1)
                        && byte_in 128 191 c2 && byte_in 128 191 c3 && utf8 s4
                    end
              end
        end
  end.

(** ** [posixpath] *)

Module posixpath.

Definition sep : ascii := "/"%char.
Definition extsep : ascii := "."%char.

Definition isabs (p : string) : bool := startswith p "/".

(** [join(a, b)]. *)
Definition join (a b : string) : string :=
  if startswith b "/" then b
  else if String.eqb a "" || endswith a "/" then a +:+ b
  else a +:+ "/" +:+ b.

(** [basename(p)]. *)
Definition basename (p : string) : string :=
  let i := rfind sep p + 1 in slice_from i p.

(** The loop of [genericpath._splitext] that skips the leading dots of the
    file name; [n] counts the indices left before [dotIndex]. *)
Fixpoint _only_dots (n : nat) (s : string) : bool :=
  match n with
  | O => true
  | S k =>
      match s with
      | String c s' => if Ascii.eqb c extsep then _only_dots k s' else false
      | EmptyString => false
      end
  end.

(** [splitext(p)]. *)
Definition splitext (p : string) : string * string :=
  let sepIndex := rfind sep p in
  let dotIndex := rfind extsep p in
  if sepIndex <? dotIndex then
    let filenameIndex := sepIndex + 1 in
    if _only_dots (Z.to_nat (dotIndex - filenameIndex)) (slice_from filenameIndex p)
    then (p, "")
    else (slice_to dotIndex p, slice_from dotIndex p)
  else (p, "").

(** Python's ordering of two lists of strings. *)
Fixpoint list_leb (a b : list string) : bool :=
  match a, b with
  | [], _ => true
  | _ :: _, [] => false
  | x :: a', y :: b' =>
      match String.compare x y with
      | Lt => true
      | Gt => false
      | Eq => list_leb a' b'
      end
  end.

(** The loop of [commonpath] over [s1], reading [s2[i]]. *)
Fixpoint _common (s1 s2 : list string) : outcome (list string) :=
  match s1 with
  | [] => Ret []
  | c :: t1 =>
      match s2 with
      | [] => Raise IndexError
      | c' :: t2 =>
          if String.eqb c c' then
            let! r := _common t1 t2 in Ret (c :: r)
          else Ret []
      end
  end.

(** [commonpath([p1, p2])]. *)
Definition commonpath (p1 p2 : string) : outcome string :=
  if negb (Bool.eqb (isabs p1) (isabs p2)) then Raise ValueError
  else
    let clean := filter (fun c => negb (String.eqb c "") && negb (String.eqb c ".")) in
    let l1 := clean (split sep p1) in
    let l2 := clean (split sep p2) in
    let s1 := if list_leb l1 l2 then l1 else l2 in
    let s2 := if list_leb l1 l2 then l2 else l1 in
    let! common := _common s1 s2 in
    let prefix := if isabs p1 then "/" else "" in
    Ret (prefix +:+ join_with "/" common).

End posixpath.

(** ** [datetime.strptime]

    The regular expression that [_strptime] builds from a format matches a
    numeric directive by ordered alternatives, the two-character ones
    first.  In the two formats used here every numeric directive is
    followed by a character that is not a digit or by the end of the
    string, so the first alternative that matches is the only one that
    can lead to a match of the whole string. *)

Module strptime.

Inductive directive : Type :=
  | dY | dm | dd | dH | dM | dS
  | dLit (c : ascii)
  | dSpace.

Definition in_range (lo hi : N) (c : ascii) : bool :=
  let n := N_of_ascii c in (lo <=? n)%N && (n <=? hi)%N.

Definition is_digit : ascii -> bool := in_range 48 57.
Definition digit_val (c : ascii) : Z := Z.of_N (N_of_ascii c) - 48.

(** [\s] and [str.isspace] in ASCII: the space, and the control
    characters 9 to 13 and 28 to 31. *)
Definition is_space (c : ascii) : bool :=
  Ascii.eqb c " " || in_range 9 13 c || in_range 28 31 c.

(** The two-character alternatives of a numeric directive. *)
Definition match2 (d : directive) (c1 c2 : ascii) : bool :=
  match d with
  | dm => (Ascii.eqb c1 "1" && in_range 48 50 c2)
          || (Ascii.eqb c1 "0" && in_range 49 57 c2)
  | dd => (Ascii.eqb c1 "3" && in_range 48 49 c2)
          || (in_range 49 50 c1 && is_digit c2)
          || (Ascii.eqb c1 "0" && in_range 49 57 c2)
  | dH => (Ascii.eqb c1 "2" && in_range 48 51 c2)
          || (in_range 48 49 c1 && is_digit c2)
  | dM => in_range 48 53 c1 && is_digit c2
  | dS => (Ascii.eqb c1 "6" && in_range 48 49 c2)
          || (in_range 48 53 c1 && is_digit c2)
  | _ => false
  end.

(** The one-character alternative. *)
Definition match1 (d : directive) (c : ascii) : bool :=
  match d with
  | dm | dd => in_range 49 57 c
  | dH | dM | dS => is_digit c
  | _ => false
  end.

Record fields : Type := mkfields {
  fY : Z; fm : Z; fd : Z; fH : Z; fM : Z; fS : Z
}.

Definition set_field (d : directive) (v : Z) (f : fields) : fields :=
  match d with
  | dY => mkfields v (fm f) (fd f) (fH f) (fM f) (fS f)
  | dm => mkfields (fY f) v (fd f) (fH f) (fM f) (fS f)
  | dd => mkfields (fY f) (fm f) v (fH f) (fM f) (fS f)
  | dH => mkfields (fY f) (fm f) (fd f) v (fM f) (fS f)
  | dM => mkfields (fY f) (fm f) (fd f) (fH f) v (fS f)
  | dS => mkfields (fY f) (fm f) (fd f) (fH f) (fM f) v
  | _ => f
  end.

Fixpoint drop_spaces (s : string) : string :=
  match s with
  | String c s' => if is_space c then drop_spaces s' else s
  | EmptyString => EmptyString
  end.

Fixpoint _match (fmt : list directive) (s : string) (f : fields) : option fields :=
  match fmt with
  | [] => if String.eqb s "" then Some f else None
  | dY :: fmt' =>
      match s with
      | String c1 (String c2 (String c3 (String c4 s'))) =>
          if is_digit c1 && is_digit c2 && is_digit c3 && is_digit c4
          then _match fmt' s'
                 (set_field dY (1000 * digit_val c1 + 100 * digit_val c2
                                + 10 * digit_val c3 + digit_val c4) f)
          else None
      | _ => None
      end
  | dLit c :: fmt' =>
      match s with
      | String x s' => if Ascii.eqb x c then _match fmt' s' f else None
      | EmptyString => None
      end
  | dSpace :: fmt' =>
      match s with
      | String x s' => if is_space x then _match fmt' (drop_spaces s') f else None
      | EmptyString => None
      end
  | d :: fmt' =>
      match s with
      | String c1 (String c2 s') =>
          if match2 d c1 c2
          then _match fmt' s' (set_field d (10 * digit_val c1 + digit_val c2) f)
          else if match1 d c1
          then _match fmt' (String c2 s') (set_field d (digit_val c1) f)
          else
            match d with
            | dd => if Ascii.eqb c1 " " && in_range 49 57 c2
                    then _match fmt' s' (set_field d (digit_val c2) f)
                    else None
            | _ => None
            end
      | String c1 EmptyString =>
          if match1 d c1
          then _match fmt' EmptyString (set_field d (digit_val c1) f)
          else None
      | EmptyString => None
      end
  end.

(** The [datetime] built from the matched fields; the constructor checks
    the date and the second. *)
Definition build (f : fields) : outcome datetime :=
  let d := mkdate (fY f) (fm f) (fd f) in
  if valid_date d && (fS f <=? 59)
  then Ret (mkdatetime d (fH f) (fM f) (fS f))
  else Raise ValueError.

Definition parse (fmt : list directive) (s : string) : outcome datetime :=
  match _match fmt s (mkfields 1900 1 1 0 0 0) with
  | Some f => build f
  | None => Raise ValueError
  end.

(** ["%Y:%m:%d %H:%M:%S"] *)
Definition exif_format : list directive :=
  [dY; dLit ":"; dm; dLit ":"; dd; dSpace; dH; dLit ":"; dM; dLit ":"; dS].

(** ['%Y-%m-%d'] *)
Definition origin_format : list directive :=
  [dY; dLit "-"; dm; dLit "-"; dd].

End strptime.

(** ** The file system and the rest of the environment *)

Record stat_result : Type := mkstat { st_mtime : Z; st_ctime : Z }.

(** A value stored under an EXIF tag: a string, or something else. *)
Inductive exif_value : Type :=
  | ExifStr (s : string)
  | ExifOther.

(** What Pillow makes of a file: [Image.open] raises; the image class has
    no [_getexif]; or [_getexif()] returns [None] or a dictionary, whose
    items are listed in iteration order. *)
Inductive pil_image : Type :=
  | NotAnImage
  | NoGetexif
  | Exif (d : option (list (Z * exif_value))).

(** A file, or a directory with what the process may do with it: make
    and remove entries, and list them. *)
Inductive node : Type :=
  | File (st : stat_result) (data : string) (img : pil_image)
  | Dir (st : stat_result) (writable : bool) (readable : bool).

Definition node_stat (n : node) : stat_result :=
  match n with
  | File st _ _ => st
  | Dir st _ _ => st
  end.

Definition is_dir (n : node) : bool :=
  match n with Dir _ _ _ => true | File _ _ _ => false end.

(** The node after a change of its status at the time [t]. *)
Definition with_ctime (t : Z) (n : node) : node :=
  match n with
  | File st data img => File (mkstat (st_mtime st) t) data img
  | Dir st wr rd => Dir (mkstat (st_mtime st) t) wr rd
  end.

(** The state of the environment.  [fs] maps an absolute path, as the list
    of its components, to the node there; [image_opens] records the calls
    of [Image.open], [stdout] the lines printed (without their clock
    prefix), most recent first. *)
Record world : Type := mkworld {
  fs : gmap (list string) node;
  cwd : list string;
  EXIF_AVAILABLE : bool;
  now : Z;
  stdout : list string;
  image_opens : list string
}.

Definition with_fs (f : gmap (list string) node) (w : world) : world :=
  mkworld f (cwd w) (EXIF_AVAILABLE w) (now w) (stdout w) (image_opens w).

(** Computations on the environment that may raise. *)
Definition M (A : Type) : Type := world -> outcome A * world.

Definition ret {A} (a : A) : M A := fun w => (Ret a, w).
Definition raise {A} (e : exn) : M A := fun w => (Raise e, w).
Definition bind {A B} (c : M A) (k : A -> M B) : M B :=
  fun w =>
    match c w with
    | (Ret a, w') => k a w'
    | (Raise e, w') => (Raise e, w')
    end.
Definition lift {A} (o : outcome A) : M A := fun w => (o, w).

Notation "'let*' x ':=' c 'in' k" := (bind c (fun x => k))
  (at level 10, x name, c at level 100, k at level 200, only parsing).
Notation "c ';;' k" := (bind c (fun _ => k))
  (at level 100, k at level 200, right associativity, only parsing).

(** [print(line)]: the line is encoded for the output, which fails on a
    string that is not the UTF-8 form of a text (a file name with bytes
    that could not be decoded); nothing is written then. *)
Definition print (line : string) : M unit :=
  fun w =>
    if utf8 line
    then (Ret tt, mkworld (fs w) (cwd w) (EXIF_AVAILABLE w) (now w)
                    (line :: stdout w) (image_opens w))
    else (Raise UnicodeEncodeError, w).

(** [time.sleep]: nothing happens in the environment meanwhile. *)
Definition time_sleep : M unit := ret tt.

(** *** Path resolution *)

Definition _resolve_step (acc : list string) (c : string) : list string :=
  if String.eqb c "" || String.eqb c "." then acc
  else if String.eqb c ".." then removelast acc
  else acc ++ [c].

(** The absolute components a path names, from the working directory. *)
Definition resolve (cwd : list string) (p : string) : list string :=
  fold_left _resolve_step (split posixpath.sep p)
            (if posixpath.isabs p then [] else cwd).

Definition node_at (w : world) (p : string) : option node :=
  if String.eqb p "" then None else fs w !! resolve (cwd w) p.

(** [os.path.exists] and [os.path.isdir]. *)
Definition path_exists (w : world) (p : string) : bool :=
  match node_at w p with Some _ => true | None => false end.

Definition path_isdir (w : world) (p : string) : bool :=
  match node_at w p with Some n => is_dir n | None => false end.

(** *** System calls *)

(** The check a system call makes of the directory in which it creates or
    removes an entry. *)
Definition check_dir_writable (f : gmap (list string) node) (k : list string)
  : outcome unit :=
  match f !! k with
  | None => Raise FileNotFoundError
  | Some (File _ _ _) => Raise NotADirectoryError
  | Some (Dir _ false _) => Raise PermissionError
  | Some (Dir _ true _) => Ret tt
  end.

(** [os.stat(path)]. *)
Definition os_stat (p : string) : M stat_result :=
  fun w =>
    match node_at w p with
    | Some n => (Ret (node_stat n), w)
    | None => (Raise FileNotFoundError, w)
    end.

(** [os.mkdir] of the directory with components [k]. *)
Definition os_mkdir (k : list string) : M unit :=
  fun w =>
    match fs w !! k with
    | Some _ => (Raise FileExistsError, w)
    | None =>
        match check_dir_writable (fs w) (removelast k) with
        | Raise e => (Raise e, w)
        | Ret _ =>
            (Ret tt,
             with_fs (<[k := Dir (mkstat (now w) (now w)) true true]> (fs w)) w)
        end
    end.

(** [os.makedirs(name, exist_ok=True)]: the missing directories of the path
    are made from the top down; [k] is the part of the path already
    walked. An existing directory is no error, an existing file in the
    place of the last component is one. *)
Fixpoint _makedirs (k rest : list string) : M unit :=
  match rest with
  | [] => ret tt
  | c :: rest' =>
      fun w =>
        let k' := (k ++ [c])%list in
        match fs w !! k', rest' with
        | Some (File _ _ _), [] => (Raise FileExistsError, w)
        | Some _, _ => _makedirs k' rest' w
        | None, _ =>
            match os_mkdir k' w with
            | (Ret _, w') => _makedirs k' rest' w'
            | (Raise e, w') => (Raise e, w')
            end
        end
  end.

Definition os_makedirs (name : string) : M unit :=
  fun w =>
    if String.eqb name "" then (Raise FileNotFoundError, w)
    else _makedirs [] (resolve (cwd w) name) w.

(** The entries of a map below the path [s], moved below [t]. *)
Definition rekey (s t : list string) (f : gmap (list string) node)
  : gmap (list string) node :=
  map_fold
    (fun k n acc =>
       if bool_decide (s `prefix_of` k)
       then <[(t ++ drop (length s) k)%list := n]> acc
       else <[k := n]> acc)
    ∅ f.

(** [os.rename(src, dst)].  A file replaces an existing file; a directory
    moves with everything below it, and only to a free name.  The status
    of what was renamed has changed. *)
Definition os_rename (src dst : string) : M unit :=
  fun w =>
    let s := resolve (cwd w) src in
    let t := resolve (cwd w) dst in
    match node_at w src with
    | None => (Raise FileNotFoundError, w)
    | Some n =>
        if String.eqb dst "" then (Raise FileNotFoundError, w) else
        match check_dir_writable (fs w) (removelast t) with
        | Raise e => (Raise e, w)
        | Ret _ =>
            match check_dir_writable (fs w) (removelast s) with
            | Raise e => (Raise e, w)
            | Ret _ =>
                match n, fs w !! t with
                | File _ _ _, Some (Dir _ _ _) => (Raise IsADirectoryError, w)
                | File _ _ _, _ =>
                    (Ret tt,
                     with_fs (<[t := with_ctime (now w) n]> (delete s (fs w))) w)
                | Dir _ _ _, Some _ => (Raise FileExistsError, w)
                | Dir _ _ _, None =>
                    if bool_decide (s `prefix_of` t)
                    then (Raise OSError, w)
                    else (Ret tt,
                          with_fs (<[t := with_ctime (now w) n]>
                                     (rekey s t (fs w))) w)
                end
            end
        end
    end.

(** [os.unlink(path)]. *)
Definition os_unlink (p : string) : M unit :=
  fun w =>
    let s := resolve (cwd w) p in
    match node_at w p with
    | None => (Raise FileNotFoundError, w)
    | Some (Dir _ _ _) => (Raise IsADirectoryError, w)
    | Some (File _ _ _) =>
        match check_dir_writable (fs w) (removelast s) with
        | Raise e => (Raise e, w)
        | Ret _ => (Ret tt, with_fs (delete s (fs w)) w)
        end
    end.

(** [shutil.copy2(src, dst)] for a destination that is not a directory:
    the data and the modification time of the file are copied, the status
    of the copy is new; a new entry needs a writable directory. *)
Definition shutil_copy2 (src dst : string) : M unit :=
  fun w =>
    let t := resolve (cwd w) dst in
    match node_at w src with
    | None => (Raise FileNotFoundError, w)
    | Some (Dir _ _ _) => (Raise IsADirectoryError, w)
    | Some (File st data img) =>
        if String.eqb dst "" then (Raise FileNotFoundError, w) else
        let copy := with_ctime (now w) (File st data img) in
        match fs w !! t with
        | Some (Dir _ _ _) => (Raise IsADirectoryError, w)
        | Some (File _ _ _) => (Ret tt, with_fs (<[t := copy]> (fs w)) w)
        | None =>
            match check_dir_writable (fs w) (removelast t) with
            | Raise e => (Raise e, w)
            | Ret _ => (Ret tt, with_fs (<[t := copy]> (fs w)) w)
            end
        end
    end.

(** [os.path.exists] and [os.path.isdir] as computations. *)
Definition os_path_exists (p : string) : M bool :=
  fun w => (Ret (path_exists w p), w).

Definition os_path_isdir (p : string) : M bool :=
  fun w => (Ret (path_isdir w p), w).

(** [try: c except OSError: handler]. *)
Definition try_except_OSError {A} (c : M A) (handler : exn -> M A) : M A :=
  fun w =>
    match c w with
    | (Ret a, w') => (Ret a, w')
    | (Raise e, w') => if is_OSError e then handler e w' else (Raise e, w')
    end.

(** [shutil.move(src, dst)]: [os.rename], and when that raises an
    [OSError] and the source is a file, copy then delete.  A directory
    that cannot be renamed is left to the error of [os.rename]. *)
Definition shutil_move (src dst : string) : M string :=
  let* dst_is_dir := os_path_isdir dst in
  let* real_dst :=
    (if dst_is_dir : bool then
       let real_dst := posixpath.join dst (posixpath.basename src) in
       let* taken := os_path_exists real_dst in
       if taken : bool then raise OSError else ret real_dst
     else ret dst) in
  try_except_OSError
    (os_rename src real_dst)
    (fun e =>
       let* src_is_dir := os_path_isdir src in
       if src_is_dir : bool then raise e
       else shutil_copy2 src real_dst ;; os_unlink src) ;;
  ret real_dst.

(** [os.scandir(top)]: the names in a directory that allows its listing,
    the sub-directories apart from the rest. *)
Definition os_scandir (top : string) : M (list string * list string) :=
  fun w =>
    match node_at w top with
    | None => (Raise FileNotFoundError, w)
    | Some (File _ _ _) => (Raise NotADirectoryError, w)
    | Some (Dir _ _ false) => (Raise PermissionError, w)
    | Some (Dir _ _ true) =>
        let k := resolve (cwd w) top in
        let entries :=
          omap (fun '(k', n) =>
                  if bool_decide (k' ≠ [] ∧ removelast k' = k)
                  then Some (List.last k' "", n) else None)
               (map_to_list (fs w)) in
        (Ret (map fst (List.filter (fun e => is_dir (snd e)) entries),
              map fst (List.filter (fun e => negb (is_dir (snd e))) entries)), w)
    end.

(** [try: c except Exception: handler]. *)
Definition try_except {A} (c : M A) (handler : exn -> M A) : M A :=
  fun w =>
    match c w with
    | (Ret a, w') => (Ret a, w')
    | (Raise e, w') => handler e w'
    end.

(** *** Pillow *)

(** [Image.open(path)]. *)
Definition Image_open (path : string) : M pil_image :=
  fun w =>
    let w' := mkworld (fs w) (cwd w) (EXIF_AVAILABLE w) (now w) (stdout w)
                      (path :: image_opens w) in
    match node_at w path with
    | None => (Raise FileNotFoundError, w')
    | Some (Dir _ _ _) => (Raise IsADirectoryError, w')
    | Some (File _ _ NotAnImage) => (Raise OSError, w')
    | Some (File _ _ img) => (Ret img, w')
    end.

(** [img._getexif()]. *)
Definition _getexif (img : pil_image) : outcome (option (list (Z * exif_value))) :=
  match img with
  | Exif d => Ret d
  | _ => Raise AttributeError
  end.

(** [TAGS.get(tag, tag) in ("DateTime", "DateTimeOriginal",
    "DateTimeDigitized")]: the tags 0x0132, 0x9003 and 0x9004. *)
Definition is_datetime_tag (tag : Z) : bool :=
  (tag =? 306) || (tag =? 36867) || (tag =? 36868).

(** [datetime.strptime(val, "%Y:%m:%d %H:%M:%S")]. *)
Definition strptime_exif (val : exif_value) : outcome datetime :=
  match val with
  | ExifStr s => strptime.parse strptime.exif_format s
  | ExifOther => Raise TypeError
  end.

(** ** shixian.py *)

Definition DAYS_PER_FOLDER : Z := 10.
Definition ORIGIN_DATE : datetime := mkdatetime (mkdate 2025 5 1) 0 0 0.

(** The [for] loop of [get_exif_datetime]: the value returned from inside
    the loop, or [None] when the loop ends. *)
Fixpoint _exif_loop (items : list (Z * exif_value)) : outcome (option datetime) :=
  match items with
  | [] => Ret None
  | (tag, val) :: rest =>
      if is_datetime_tag tag
      then let! dt := strptime_exif val in Ret (Some dt)
      else _exif_loop rest
  end.

Definition get_exif_datetime (path : string) : M (option datetime) :=
  fun w =>
    if negb (EXIF_AVAILABLE w) then (Ret None, w)
    else
      try_except
        (let* img := Image_open path in
         let* exif := lift (_getexif img) in
         lift (_exif_loop (default [] exif)))
        (fun _ => ret None) w.

Definition pick_timestamp (path source : string) : M datetime :=
  let* dt := (if String.eqb source "exif" then get_exif_datetime path
              else ret None) in
  match dt with
  | Some dt => ret dt
  | None =>
      let* stat := os_stat path in
      let ts := if negb (String.eqb source "ctime") then st_mtime stat
                else st_ctime stat in
      lift (fromtimestamp ts)
  end.

(** The [while] loop of [ensure_unique]; [None] when [fuel] iterations do
    not reach a free name. *)
Fixpoint _ensure_unique_loop (fuel : nat) (w : world) (base ext : string)
    (i : Z) (new_dst : string) : option string :=
  if path_exists w new_dst then
    match fuel with
    | O => None
    | S fuel' =>
        _ensure_unique_loop fuel' w base ext (i + 1)
          (base +:+ "_" +:+ str_int i +:+ ext)
    end
  else Some new_dst.

(** The loop is given one iteration more than the file system has
    entries, which always suffices ([_ensure_unique_loop_total]). *)
Definition ensure_unique (dst : string) : M string :=
  fun w =>
    let '(base, ext) := posixpath.splitext dst in
    match _ensure_unique_loop (S (size (fs w))) w base ext 1 dst with
    | Some new_dst => (Ret new_dst, w)
    | None => (Ret dst, w)
    end.

(** [//] *)
Definition floordiv (a b : Z) : outcome Z :=
  if b =? 0 then Raise ZeroDivisionError else Ret (a / b).

(** The start and the end of the bucket of index [idx]: lines 90 and 91. *)
Definition bucket_bounds (origin : date) (days idx : Z) : outcome (date * date) :=
  let! d1 := timedelta (idx * days) in
  let! start := date_add origin d1 in
  let! d2 := timedelta (days - 1) in
  let! end_ := date_add start d2 in
  Ret (start, end_).

Definition bucket_label (b : date * date) : string :=
  strftime_Ymd (fst b) +:+ "-" +:+ strftime_Ymd (snd b).

Definition get_date_range_folder (dt origin : datetime) (days : Z) : outcome string :=
  let delta := date_sub_days (dt_date dt) (dt_date origin) in
  let! idx := floordiv delta days in
  let! b := bucket_bounds (dt_date origin) days idx in
  Ret (bucket_label b).

Definition sort_file (path dst_root source : string) (origin : datetime)
    (days : Z) : M unit :=
  let* dt := pick_timestamp path source in
  let* folder_name := lift (get_date_range_folder dt origin days) in
  let target := posixpath.join dst_root folder_name in
  os_makedirs target ;;
  let name := posixpath.basename path in
  let* dst := ensure_unique (posixpath.join target name) in
  let* _ := shutil_move path dst in
  print ("Moved " +:+ name +:+ " → " +:+ folder_name +:+ "/").

(** [f.lower().endswith(tuple(exts))] *)
Definition sweep_eligible (f : string) (exts : gset string) : bool :=
  existsb (endswith (lower f)) (elements exts).

(** The body of the inner loop of [process_existing] for one name. *)
Definition sweep_file (root f dst_root source : string) (origin : datetime)
    (days : Z) (exts : gset string) : M unit :=
  if sweep_eligible f exts then
    let fp := posixpath.join root f in
    let* common := lift (posixpath.commonpath fp dst_root) in
    if String.eqb common dst_root then ret tt
    else sort_file fp dst_root source origin days
  else ret tt.

(** [for f in files: ...] *)
Fixpoint sweep_files (root : string) (files : list string)
    (dst_root source : string) (origin : datetime) (days : Z)
    (exts : gset string) : M unit :=
  match files with
  | [] => ret tt
  | f :: files' =>
      sweep_file root f dst_root source origin days exts ;;
      sweep_files root files' dst_root source origin days exts
  end.

(** [for root, _, files in os.walk(watch_dir): ...].  [os.walk] keeps a
    stack of directories still to list; a directory that cannot be listed
    is skipped; the sub-directories found are visited next, in the order
    listed.  [None] when [fuel] directories do not empty the stack. *)
Fixpoint _walk (fuel : nat) (stack : list string)
    (dst_root source : string) (origin : datetime) (days : Z)
    (exts : gset string) (w : world) : option (outcome unit * world) :=
  match stack with
  | [] => Some (Ret tt, w)
  | top :: stack' =>
      match fuel with
      | O => None
      | S fuel' =>
          match os_scandir top w with
          | (Raise _, w') =>
              _walk fuel' stack' dst_root source origin days exts w'
          | (Ret (dirs, files), w') =>
              match sweep_files top files dst_root source origin days exts w' with
              | (Raise e, w'') => Some (Raise e, w'')
              | (Ret _, w'') =>
                  _walk fuel' (map (posixpath.join top) dirs ++ stack')%list
                        dst_root source origin days exts w''
              end
          end
      end
  end.

Definition process_existing (fuel : nat) (watch_dir dst_root source : string)
    (origin : datetime) (days : Z) (exts : gset string) (w : world)
  : option (outcome unit * world) :=
  match print "Processing existing files..." w with
  | (Raise e, w1) => Some (Raise e, w1)
  | (Ret _, w1) =>
      match _walk fuel [watch_dir] dst_root source origin days exts w1 with
      | Some (Ret _, w2) => Some (print "Existing done." w2)
      | r => r
      end
  end.

(** *** The watch loop *)

Record FileSystemEvent : Type := mkevent {
  is_directory : bool;
  src_path : string
}.

Record ScreenshotHandler : Type := mkhandler {
  h_dst : string;
  h_source : string;
  h_origin : datetime;
  h_days : Z;
  h_exts : gset string
}.

(** [any(event.src_path.lower().endswith(e) for e in self.exts)] *)
Definition watch_eligible (src_path : string) (exts : gset string) : bool :=
  existsb (fun e => endswith (lower src_path) e) (elements exts).

Definition on_created (self : ScreenshotHandler) (event : FileSystemEvent) : M unit :=
  if is_directory event then ret tt
  else if negb (watch_eligible (src_path event) (h_exts self)) then ret tt
  else
    time_sleep ;;
    sort_file (src_path event) (h_dst self) (h_source self) (h_origin self)
              (h_days self).

(** *** [main], after the parsing of the command line *)

Record Namespace : Type := mkargs {
  watch_dir : string;
  dst_dir : string;
  days : Z;
  origin : string;
  source : string;
  exts : string;
  process_existing_flag : bool
}.

(** [s.strip()] *)
Definition strip (s : string) : string :=
  String.rev (strptime.drop_spaces (String.rev (strptime.drop_spaces s))).

(** [{e.strip().lower() for e in args.exts.split(',')}] *)
Definition parse_exts (s : string) : gset string :=
  list_to_set (map (fun e => lower (strip e)) (split "," s)).

(** A file or directory that appears in the watched directory, and the
    event the observer then delivers. *)
Record arrival : Type := mkarrival { a_name : string; a_node : node }.

Definition arrive (watch_dir : string) (a : arrival) : M FileSystemEvent :=
  fun w =>
    let p := posixpath.join watch_dir (a_name a) in
    (Ret (mkevent (is_dir (a_node a)) p),
     with_fs (<[resolve (cwd w) p := a_node a]> (fs w)) w).

(** The observer thread: it dispatches the events one after the other,
    and an exception that leaves the handler ends the thread. *)
Fixpoint observer_run (handler : ScreenshotHandler) (watch_dir : string)
    (arrivals : list arrival) : M unit :=
  match arrivals with
  | [] => ret tt
  | a :: rest =>
      let* event := arrive watch_dir a in
      on_created handler event ;;
      observer_run handler watch_dir rest
  end.

(** [observer.start()]: the watch is set on the path, which must be
    there (the watch of inotify takes a file as well as a directory). *)
Definition observer_start (watch_dir : string) : M unit :=
  fun w =>
    match node_at w watch_dir with
    | Some _ => (Ret tt, w)
    | None => (Raise FileNotFoundError, w)
    end.

(** Lines 161 to 174 of [main]: the sweep when asked for, then the
    observer. *)
Definition main_run (args : Namespace) (origin_ : datetime)
    (exts_ : gset string) (fuel : nat) (arrivals : list arrival) (w : world)
  : option (outcome unit * world) :=
  let swept :=
    if process_existing_flag args
    then process_existing fuel (watch_dir args) (dst_dir args)
           (source args) origin_ (days args) exts_ w
    else Some (Ret tt, w) in
  match swept with
  | Some (Ret _, w) =>
      let handler :=
        mkhandler (dst_dir args) (source args) origin_ (days args) exts_ in
      Some ((observer_start (watch_dir args) ;;
             print ("Watching " +:+ watch_dir args +:+ " → sorting into "
                    +:+ dst_dir args +:+ " every " +:+ str_int (days args)
                    +:+ " days from " +:+ isoformat (dt_date origin_)) ;;
             observer_run handler (watch_dir args) arrivals) w)
  | r => r
  end.

Definition PILLOW_WARNING : string :=
  "Warning: Pillow missing, fallback to mtime.".

(** [main]: [args] is what [parser.parse_args()] returned, [arrivals] what
    happens in the watched directory until the interrupt.  The outcome is
    that of the observer thread. *)
Definition main (args : Namespace) (fuel : nat) (arrivals : list arrival)
    (w : world) : option (outcome unit * world) :=
  match strptime.parse strptime.origin_format (origin args) with
  | Raise e => Some (Raise e, w)
  | Ret origin_ =>
      let exts_ := parse_exts (exts args) in
      match os_makedirs (dst_dir args) w with
      | (Raise e, w) => Some (Raise e, w)
      | (Ret _, w) =>
          let warning :=
            if String.eqb (source args) "exif" && negb (EXIF_AVAILABLE w)
            then print PILLOW_WARNING
            else ret tt in
          match warning w with
          | (Raise e, w) => Some (Raise e, w)
          | (Ret _, w) => main_run args origin_ exts_ fuel arrivals w
          end
      end
  end.

(** The arguments with another time source. *)
Definition with_source (s : string) (args : Namespace) : Namespace :=
  mkargs (watch_dir args) (dst_dir args) (days args) (origin args) s
         (exts args) (process_existing_flag args).

(** ** Definitions of the statements and of the proofs *)

(** What [_month_day] must return for the day [n] of a year. *)
Definition _month_day_ok (leapyear : bool) (n : Z) : bool :=
  let '(m, d) := _month_day leapyear n in
  (1 <=? m) && (m <=? 12) && (1 <=? d)
  && (d <=? _DAYS_IN_MONTH m + (if (m =? 2) && leapyear then 1 else 0))
  && (_DAYS_BEFORE_MONTH m + (if (2 <? m) && leapyear then 1 else 0) + d
      =? n + 1).

(** The digits of a number below 100, and of one below 10000. *)
Definition digits2 (n : Z) : string :=
  let x := Z.to_N n in
  String (pretty_N_char (x / 10)) (String (pretty_N_char (x mod 10)) "").

Definition digits4 (n : Z) : string :=
  let x := Z.to_N n in
  String (pretty_N_char (x / 1000))
    (String (pretty_N_char (x / 100 mod 10))
       (String (pretty_N_char (x / 10 mod 10))
          (String (pretty_N_char (x mod 10)) ""))).

(** Two dates in one window of [days] days counted from [origin], as the
    specification puts it: some [k] has both between [origin + k*days]
    and the day before [origin + (k+1)*days]. *)
Definition same_window (origin : date) (days : Z) (a b : date) : Prop :=
  exists k : Z,
    toordinal origin + k * days <= toordinal a < toordinal origin + (k + 1) * days
    /\ toordinal origin + k * days <= toordinal b < toordinal origin + (k + 1) * days.

(** The window of [days] days from [origin] that holds the date [a] is
    made of dates of the calendar, 0001-01-01 to 9999-12-31. *)
Definition window_in_calendar (origin : date) (days : Z) (a : date) : Prop :=
  exists k : Z,
    toordinal origin + k * days <= toordinal a < toordinal origin + (k + 1) * days
    /\ 0 < toordinal origin + k * days
    /\ toordinal origin + (k + 1) * days - 1 <= _MAXORDINAL.

(** None of the items is one of the three date fields. *)
Definition no_datetime_tag (items : list (Z * exif_value)) : Prop :=
  Forall (fun item => is_datetime_tag (fst item) = false) items.

(** A file without a readable capture tag, case by case: the reading
    capability is missing; the path is not an image that Pillow can open
    and ask for its EXIF data; the image has no EXIF data; none of the
    three date fields is there; or the first date field met is not a
    string of the expected format. *)
Definition no_readable_tag (w : world) (path : string) : Prop :=
  EXIF_AVAILABLE w = false
  \/ (forall st data d, node_at w path <> Some (File st data (Exif d)))
  \/ (exists st data, node_at w path = Some (File st data (Exif None)))
  \/ (exists st data items,
        node_at w path = Some (File st data (Exif (Some items)))
        /\ no_datetime_tag items)
  \/ (exists st data before tag val after e,
        node_at w path
        = Some (File st data (Exif (Some (before ++ (tag, val) :: after)%list)))
        /\ no_datetime_tag before
        /\ is_datetime_tag tag = true
        /\ strptime_exif val = Raise e).

(** The world with another standard output. *)
Definition with_stdout (s : list string) (w : world) : world :=
  mkworld (fs w) (cwd w) (EXIF_AVAILABLE w) (now w) s (image_opens w).

(** A computation that leaves the settings of the environment and the
    record of [Image.open] alone, and only adds lines to the output,
    none of them the warning, whatever the output was. *)
Definition frame {A} (c : M A) : Prop :=
  forall w, exists o f lines,
    Forall (fun line => line <> PILLOW_WARNING) lines
    /\ forall s,
         c (with_stdout s w)
         = (o, mkworld f (cwd w) (EXIF_AVAILABLE w) (now w) (lines ++ s)%list
                 (image_opens w)).

(** A computation that reads and writes the file system only. *)
Definition fs_only {A} (c : M A) : Prop :=
  forall w, exists o f, forall s,
    c (with_stdout s w)
    = (o, mkworld f (cwd w) (EXIF_AVAILABLE w) (now w) s (image_opens w)).

(** The same as [frame], for a computation with fuel. *)
Definition frame_opt (c : world -> option (outcome unit * world)) : Prop :=
  forall w,
    (forall s, c (with_stdout s w) = None)
    \/ exists o f lines,
         Forall (fun line => line <> PILLOW_WARNING) lines
         /\ forall s,
              c (with_stdout s w)
              = Some (o, mkworld f (cwd w) (EXIF_AVAILABLE w) (now w)
                           (lines ++ s)%list (image_opens w)).

(** [c in s] for a character. *)
Fixpoint contains (c : ascii) (s : string) : bool :=
  match s with
  | EmptyString => false
  | String x s' => Ascii.eqb x c || contains c s'
  end.

(** The [i]-th candidate of [ensure_unique]: [f"{base}_{i}{ext}"]. *)
Definition candidate (base ext : string) (i : Z) : string :=
  base +:+ "_" +:+ str_int i +:+ ext.

(** The files of a file system, without its directories. *)
Definition files_of (f : gmap (list string) node) : gmap (list string) node :=
  filter (fun kv => is_dir (snd kv) = false) f.

(** [w'] is [w] with some directories added, and nothing else changed in
    the file system. *)
Definition dirs_added (w w' : world) : Prop :=
  cwd w' = cwd w
  /\ (forall key n, fs w !! key = Some n -> fs w' !! key = Some n)
  /\ files_of (fs w') = files_of (fs w).

(** ** Worlds of the scenarios *)

Module Examples.

Definition st0 : stat_result := mkstat 0 0.

(** 2025-05-13 12:00:00 and 2025-04-25 00:00:00, in seconds. *)
Definition t_0513 : Z := 1747137600.
Definition t_0425 : Z := 1745539200.

Definition png (mtime : Z) (data : string) : node :=
  File (mkstat mtime mtime) data NoGetexif.

(** 2025-05-15 12:00:00, the time of the runs. *)
Definition t_now : Z := 1747310400.

Definition world_of (entries : list (list string * node)) : world :=
  mkworld (list_to_map entries) [] true t_now [] [].

(** The same file after its move or its copy during the run. *)
Definition placed (mtime : Z) (data : string) : node :=
  File (mkstat mtime t_now) data NoGetexif.

Definition bucket_0513 : string := "2025.05.11-2025.05.20".
Definition bucket_0425 : string := "2025.04.21-2025.04.30".

(** Two files named [shot.png], of the same day, in two directories. *)
Definition two_shots : world :=
  world_of [([], Dir st0 true true); (["in1"], Dir st0 true true);
            (["in2"], Dir st0 true true); (["out"], Dir st0 true true);
            (["in1"; "shot.png"], png t_0513 "first");
            (["in2"; "shot.png"], png t_0513 "second")].

(** A file in a directory that does not allow the removal of entries. *)
Definition readonly_source : world :=
  world_of [([], Dir st0 true true); (["w"], Dir st0 true true);
            (["w"; "out"], Dir st0 true true); (["w"; "ro"], Dir st0 false true);
            (["w"; "ro"; "shot.png"], png t_0513 "data")].

(** Two files to sort; the bucket of [b.png], listed first, does not
    allow new entries. *)
Definition readonly_bucket : world :=
  world_of [([], Dir st0 true true); (["w"], Dir st0 true true);
            (["w"; "out"], Dir st0 true true);
            (["w"; "out"; bucket_0425], Dir st0 false true);
            (["w"; "a.png"], png t_0513 "A");
            (["w"; "b.png"], png t_0425 "B")].

(** A file already in its bucket, below the destination root. *)
Definition archived : world :=
  world_of [([], Dir st0 true true); (["w"], Dir st0 true true);
            (["w"; "out"], Dir st0 true true);
            (["w"; "out"; bucket_0513], Dir st0 true true);
            (["w"; "out"; bucket_0513; "shot.png"], png t_0513 "data")].

(** One file to sort. *)
Definition one_file : world :=
  world_of [([], Dir st0 true true); (["w"], Dir st0 true true);
            (["out"], Dir st0 true true);
            (["w"; "a.png"], png t_0513 "A")].

(** A picture whose [DateTime] field is not a date. *)
Definition bad_tag : world :=
  world_of [([], Dir st0 true true); (["w"], Dir st0 true true);
            (["w"; "a.jpg"],
             File (mkstat t_0513 t_0425) "A"
                  (Exif (Some [(271, ExifStr "Camera");
                               (306, ExifStr "yesterday");
                               (36867, ExifStr "2025:04:25 10:00:00")])))].

(** A file whose modification time is the first second of the year
    10000. *)
Definition far_future : world :=
  world_of [([], Dir st0 true true); (["w"], Dir st0 true true);
            (["w"; "a.png"], png 253402300800 "A")].

(** Two names to tell apart by the extension [png]. *)
Definition mixed_names : world :=
  world_of [([], Dir st0 true true); (["w"], Dir st0 true true);
            (["out"], Dir st0 true true);
            (["w"; "xpng"], png t_0513 "X");
            (["w"; "shot.gif"], png t_0513 "G")].

(** A file whose name is not the UTF-8 form of a text: its first byte
    is 255. *)
Definition odd_name : string := String "255"%char ".png".

Definition undecodable_name : world :=
  world_of [([], Dir st0 true true); (["w"], Dir st0 true true);
            (["out"], Dir st0 true true);
            (["w"; odd_name], png t_0513 "A")].

(** [one_file] without Pillow. *)
Definition no_pillow : world :=
  mkworld (fs one_file) [] false t_now [] [].

Definition args_exif : Namespace :=
  mkargs "/w" "/out" 10 "2025-05-01" "exif" "png,jpg,jpeg" true.

End Examples.

(** A path in normal form: absolute or not, and components that are not
    empty, not [.], and without separator. *)
Definition clean_component (c : string) : bool :=
  negb (String.eqb c "") && negb (String.eqb c ".")
  && negb (contains posixpath.sep c).

Definition normal_path (abs : bool) (comps : list string) : string :=
  (if abs then "/" else "") +:+ join_with "/" comps.

(** ** Further definitions of the statements *)

(** [d.strftime('%Y-%m-%d')]: the text of the default of [--origin]. *)
Definition strftime_Y_m_d (d : date) : string :=
  zfill 4 (str_int (year d)) +:+ "-" +:+ zfill 2 (str_int (month d))
  +:+ "-" +:+ zfill 2 (str_int (day d)).

(** Further worlds. *)
Module Scenarios.

(** A picture taken on 2025-04-25 and modified on 2025-05-13; its
    [DateTimeOriginal] field comes before a [DateTime] field that is not
    a date. *)
Definition tagged : world :=
  Examples.world_of
    [([], Dir Examples.st0 true true); (["w"], Dir Examples.st0 true true);
     (["w"; "a.jpg"],
      File (mkstat Examples.t_0513 Examples.t_0513) "A"
           (Exif (Some [(271, ExifStr "Camera");
                        (36867, ExifStr "2025:04:25 10:00:00");
                        (306, ExifStr "yesterday")])))].

End Scenarios.

(** The first day of the folder of an instant. *)
Definition folder_start (dt origin : datetime) (days : Z) : date :=
  fromordinal
    (toordinal (dt_date origin)
     + date_sub_days (dt_date dt) (dt_date origin) / days * days).

(** The text of an instant in the form of the EXIF date fields,
    ["%Y:%m:%d %H:%M:%S"]. *)
Definition strftime_exif (dt : datetime) : string :=
  zfill 4 (str_int (year (dt_date dt))) +:+ ":"
  +:+ zfill 2 (str_int (month (dt_date dt))) +:+ ":"
  +:+ zfill 2 (str_int (day (dt_date dt))) +:+ " "
  +:+ zfill 2 (str_int (hour dt)) +:+ ":"
  +:+ zfill 2 (str_int (minute dt)) +:+ ":"
  +:+ zfill 2 (str_int (second dt)).

(** The check of the time fields by the [datetime] constructor. *)
Definition valid_time (dt : datetime) : bool :=
  (0 <=? hour dt) && (hour dt <=? 23)
  && (0 <=? minute dt) && (minute dt <=? 59)
  && (0 <=? second dt) && (second dt <=? 59).

(** The two digits of [v] match the directive [d] by its two-character
    alternative, with the value [v]. *)
Definition two_digit_ok (d : strptime.directive) (v : Z) : bool :=
  let c1 := pretty_N_char (Z.to_N v / 10) in
  let c2 := pretty_N_char (Z.to_N v mod 10) in
  strptime.match2 d c1 c2
  && (10 * strptime.digit_val c1 + strptime.digit_val c2 =? v).

(** A name that a directory can hold: not empty, not [.] or [..], and
    without separator. *)
Definition ordinary_name (s : string) : bool :=
  negb (String.eqb s "") && negb (String.eqb s ".")
  && negb (String.eqb s "..") && negb (contains posixpath.sep s).

(** The longest common prefix of two lists of components. *)
Fixpoint common_prefix (a b : list string) : list string :=
  match a, b with
  | x :: a', y :: b' =>
      if String.eqb x y then x :: common_prefix a' b' else []
  | _, _ => []
  end.

(** A key made of ordinary names, and an environment in which the
    working directory and every entry of the file system have such keys:
    what the listing of a directory gives. *)
Definition ordinary_key (key : list string) : Prop :=
  Forall (fun c => ordinary_name c = true) key.

Definition wf_world (w : world) : Prop :=
  ordinary_key (cwd w)
  /\ forall key n, fs w !! key = Some n -> ordinary_key key.

(** An entry that the sweep has no business with: a directory, or a file
    whose name is not eligible. *)
Definition spared (exts : gset string) (key : list string) (n : node) : Prop :=
  is_dir n = true \/ sweep_eligible (List.last key "") exts = false.

(** The prefixes of a key, the empty one first. *)
Fixpoint prefixes_of (k : list string) : list (list string) :=
  match k with
  | [] => [[]]
  | c :: k' => [] :: map (cons c) (prefixes_of k')
  end.

(** The directories that the classification of a file can make: the
    prefixes of the key of its folder.  The folder of a file depends on
    nothing but the file and the presence of Pillow; it is computed here
    in an environment that holds the file alone. *)
Definition bucket_keys (avail : bool) (cwd : list string)
    (dst_root source : string) (origin : datetime) (days : Z) (n : node)
  : list (list string) :=
  match fst (pick_timestamp "x" source
               (mkworld {[ ["x"] := n ]} [] avail 0 [] [])) with
  | Ret dt =>
      match get_date_range_folder dt origin days with
      | Ret label => prefixes_of (resolve cwd (posixpath.join dst_root label))
      | Raise _ => []
      end
  | Raise _ => []
  end.

(** The keys at which a directory can be during a sweep that starts in
    [w]: the keys of [w], and the keys of the folders of its files, as
    they are and as the sweep places them, with the status time of the
    move. *)
Definition possible_dirs (w : world) (dst_root source : string)
    (origin : datetime) (days : Z) : list (list string) :=
  concat (map (fun kn : list string * node =>
                 fst kn
                 :: (bucket_keys (EXIF_AVAILABLE w) (cwd w) dst_root
                       source origin days (snd kn)
                     ++ bucket_keys (EXIF_AVAILABLE w) (cwd w) dst_root
                          source origin days (with_ctime (now w) (snd kn)))%list)
              (map_to_list (fs w))).

(** What every state of a sweep that started in [w0] satisfies: ordinary
    names, the settings of [w0], directories at the keys of [U] only, and
    no file that was not a file of [w0], as it was or as the sweep placed
    it. *)
Definition sweep_inv (w0 : world) (U : list (list string)) (w : world) : Prop :=
  wf_world w /\ cwd w = cwd w0 /\ EXIF_AVAILABLE w = EXIF_AVAILABLE w0
  /\ now w = now w0
  /\ (forall key st wr rd, fs w !! key = Some (Dir st wr rd) -> In key U)
  /\ (forall key n,
        fs w !! key = Some n -> is_dir n = false ->
        exists key0 n0,
          fs w0 !! key0 = Some n0
          /\ (n = n0 \/ n = with_ctime (now w0) n0)).

(** The stack of the walk and the directories walked so far, as keys:
    no key twice, each below the first one [K0], each a possible
    directory, and each but [K0] the entry of a directory walked. *)
Definition walk_inv (cwd0 K0 : list string) (U : list (list string))
    (stack : list string) (V : list (list string)) : Prop :=
  NoDup (map (resolve cwd0) stack ++ V)
  /\ forall key,
       key ∈ (map (resolve cwd0) stack ++ V)%list ->
       In key (K0 :: U) /\ K0 `prefix_of` key
       /\ (key = K0 \/ (key <> [] /\ removelast key ∈ V)).

(** Two nodes are the same file: the same data, the same picture and
    the same modification time. *)
Definition same_file (n n' : node) : Prop :=
  match n, n' with
  | File st data img, File st' data' img' =>
      st_mtime st = st_mtime st' /\ data = data' /\ img = img'
  | _, _ => False
  end.

(** A file is in the archive: an entry below the destination root holds
    it. *)
Definition settled (R : list string) (n : node) (w : world) : Prop :=
  exists key n',
    R `prefix_of` key /\ fs w !! key = Some n' /\ same_file n n'.

(** A directory that allows its listing. *)
Definition path_listable (w : world) (p : string) : bool :=
  match node_at w p with
  | Some (Dir _ _ true) => true
  | _ => false
  end.

(** A file still to come in the walk: it is the entry [f] of the
    sub-directory [ds] of a directory [top] of the stack, the directories
    on the way are there and allow their listing, and the check of the
    root does not exclude the path that the walk will make for it. *)
Definition pending (cwd0 : list string) (dst_root f : string) (n : node)
    (stack : list string) (w : world) : Prop :=
  exists top ds,
    In top stack
    /\ path_listable w top = true
    /\ fs w !! (resolve cwd0 top ++ ds ++ [f])%list = Some n
    /\ (forall i, (i < length ds)%nat ->
          exists st wr,
            fs w !! (resolve cwd0 top ++ take (S i) ds)%list
            = Some (Dir st wr true))
    /\ posixpath.commonpath
         (posixpath.join (fold_left posixpath.join ds top) f) dst_root
       <> Ret dst_root.

(** The same for the entry at a given key. *)
Definition pending_at (cwd0 : list string) (dst_root f : string)
    (key0 : list string) (stack : list string) (w : world) : Prop :=
  exists top ds,
    In top stack
    /\ path_listable w top = true
    /\ key0 = (resolve cwd0 top ++ ds ++ [f])%list
    /\ (forall i, (i < length ds)%nat ->
          exists st wr,
            fs w !! (resolve cwd0 top ++ take (S i) ds)%list
            = Some (Dir st wr true))
    /\ posixpath.commonpath
         (posixpath.join (fold_left posixpath.join ds top) f) dst_root
       <> Ret dst_root.

(** No file at a key. *)
Definition no_file_at (key : list string) (w : world) : Prop :=
  forall m, fs w !! key = Some m -> is_dir m = true.

(** ** Calendar arithmetic *)

Section Calendar_facts.

(** Linear arithmetic with division and remainder by literals. *)
Ltac zdiv_lia :=
  Z.to_euclidean_division_equations;
  repeat match goal with
         | H : ?k <> 0 -> _ |- _ => specialize (H ltac:(discriminate))
         | H : 0 < ?k -> _ |- _ => specialize (H ltac:(reflexivity))
         | H : ?k < 0 -> _ |- _ => clear H
         | H : ?k = 0 -> _ |- _ => clear H
         end;
  try (intros ?; subst); lia.

(** A property checked on every integer of a short range holds on it. *)
Lemma Zrange_forallb (f : Z -> bool) (lo : Z) (len : nat) :
  forallb (fun i => f (lo + Z.of_nat i)) (seq 0 len) = true ->
  forall n, lo <= n < lo + Z.of_nat len -> f n = true.
Proof.
  intros H n Hn. rewrite forallb_forall in H.
  replace n with (lo + Z.of_nat (Z.to_nat (n - lo))) by lia.
  apply H. apply in_seq. lia.
Qed.

Lemma _month_day_spec (leapyear : bool) (n : Z) :
  0 <= n < 365 + (if leapyear then 1 else 0) ->
  _month_day_ok leapyear n = true.
Proof.
  intros Hn. destruct leapyear.
  - apply (Zrange_forallb (_month_day_ok true) 0 366); [vm_compute; reflexivity | lia].
  - apply (Zrange_forallb (_month_day_ok false) 0 365); [vm_compute; reflexivity | lia].
Qed.

Lemma _days_before_year_split (a b c d : Z) :
  0 <= b <= 3 -> 0 <= c <= 24 -> 0 <= d <= 3 ->
  _days_before_year (400 * a + 100 * b + 4 * c + d + 1)
  = 146097 * a + 36524 * b + 1461 * c + 365 * d.
Proof. intros Hb Hc Hd. unfold _days_before_year. zdiv_lia. Qed.

Lemma _is_leap_split (a b c d : Z) :
  0 <= b <= 3 -> 0 <= c <= 24 -> 0 <= d <= 3 ->
  _is_leap (400 * a + 100 * b + 4 * c + d + 1)
  = (d =? 3) && (negb (c =? 24) || (b =? 3)).
Proof.
  intros Hb Hc Hd. unfold _is_leap.
  destruct (Z.eqb_spec d 3) as [->|Hd3]; simpl.
  - replace ((400 * a + 100 * b + 4 * c + 3 + 1) mod 4 =? 0) with true
      by (symmetry; apply Z.eqb_eq; zdiv_lia).
    simpl. destruct (Z.eqb_spec c 24) as [->|Hc24]; simpl.
    + replace ((400 * a + 100 * b + 4 * 24 + 3 + 1) mod 100 =? 0) with true
        by (symmetry; apply Z.eqb_eq; zdiv_lia).
      simpl. destruct (Z.eqb_spec b 3) as [->|Hb3].
      * apply Z.eqb_eq; zdiv_lia.
      * assert (b <= 2) by lia. apply Z.eqb_neq; zdiv_lia.
    + assert (c <= 23) by lia.
      replace ((400 * a + 100 * b + 4 * c + 3 + 1) mod 100 =? 0) with false
        by (symmetry; apply Z.eqb_neq; zdiv_lia).
      reflexivity.
  - assert (d <= 2) by lia.
    replace ((400 * a + 100 * b + 4 * c + d + 1) mod 4 =? 0) with false
      by (symmetry; apply Z.eqb_neq; zdiv_lia).
    reflexivity.
Qed.

(** The quotients and remainders computed by [_ord2ymd]. *)
Lemma _ord2ymd_digits (n : Z) :
  1 <= n <= _MAXORDINAL ->
  exists a b c d r,
    n - 1 = 146097 * a + 36524 * b + 1461 * c + 365 * d + r
    /\ 0 <= a <= 24 /\ 0 <= b <= 4 /\ 0 <= c <= 24 /\ 0 <= d <= 4
    /\ 0 <= r < 365
    /\ (b = 4 -> c = 0 /\ d = 0 /\ r = 0 /\ a <= 23)
    /\ (d = 4 -> r = 0 /\ c <= 23)
    /\ 400 * a + 100 * b + 4 * c + d + 1 <= 10000
    /\ (b <= 3 -> d <= 3 -> 400 * a + 100 * b + 4 * c + d + 1 <= 9999)
    /\ _ord2ymd n =
       if (d =? 4) || (b =? 4)
       then (400 * a + 1 + (b * 100 + c * 4 + d) - 1, 12, 31)
       else
         let '(m, dd) :=
           _month_day ((d =? 3) && (negb (c =? 24) || (b =? 3))) r in
         (400 * a + 1 + (b * 100 + c * 4 + d), m, dd).
Proof.
  unfold _MAXORDINAL. intros Hn.
  unfold _ord2ymd, _DI400Y, _DI100Y, _DI4Y. cbv zeta.
  set (n0 := n - 1).
  pose proof (Z.div_mod n0 146097 ltac:(discriminate)) as E1.
  pose proof (Z.mod_pos_bound n0 146097 ltac:(reflexivity)) as B1.
  set (a := n0 / 146097) in *. set (r1 := n0 mod 146097) in *.
  pose proof (Z.div_mod r1 36524 ltac:(discriminate)) as E2.
  pose proof (Z.mod_pos_bound r1 36524 ltac:(reflexivity)) as B2.
  set (b := r1 / 36524) in *. set (r2 := r1 mod 36524) in *.
  pose proof (Z.div_mod r2 1461 ltac:(discriminate)) as E3.
  pose proof (Z.mod_pos_bound r2 1461 ltac:(reflexivity)) as B3.
  set (c := r2 / 1461) in *. set (r3 := r2 mod 1461) in *.
  pose proof (Z.div_mod r3 365 ltac:(discriminate)) as E4.
  pose proof (Z.mod_pos_bound r3 365 ltac:(reflexivity)) as B4.
  set (d := r3 / 365) in *. set (r := r3 mod 365) in *.
  clearbody a r1 b r2 c r3 d r. subst n0.
  exists a, b, c, d, r.
  repeat split; try lia.
  replace (a * 400) with (400 * a) by lia. reflexivity.
Qed.

Lemma toordinal_fromordinal (n : Z) :
  1 <= n <= _MAXORDINAL ->
  toordinal (fromordinal n) = n /\ valid_date (fromordinal n) = true.
Proof.
  intros Hn. unfold fromordinal.
  destruct (_ord2ymd_digits n Hn)
    as (a & b & c & d & r & En & Ha & Hb & Hc & Hd & Hr & Hb4 & Hd4 & Hy & Hy' & ->).
  destruct (Z.eqb_spec b 4) as [->|Hb4'].
  { destruct Hb4 as (-> & -> & -> & Ha'); [reflexivity|].
    rewrite orb_true_r.
    replace (400 * a + 1 + (4 * 100 + 0 * 4 + 0) - 1)
      with (400 * a + 100 * 3 + 4 * 24 + 3 + 1) by lia.
    unfold toordinal, valid_date, _ymd2ord, _days_before_month,
      _days_in_month; cbn [year month day].
    rewrite _days_before_year_split, _is_leap_split by lia.
    cbn. split; [lia|]. unfold MINYEAR, MAXYEAR.
    repeat (apply andb_true_intro; split); try apply Z.leb_le; lia. }
  destruct (Z.eqb_spec d 4) as [->|Hd4'].
  { destruct Hd4 as (-> & Hc'); [reflexivity|].
    cbn [orb].
    replace (400 * a + 1 + (b * 100 + c * 4 + 4) - 1)
      with (400 * a + 100 * b + 4 * c + 3 + 1) by lia.
    unfold toordinal, valid_date, _ymd2ord, _days_before_month,
      _days_in_month; cbn [year month day].
    rewrite _days_before_year_split, _is_leap_split by lia.
    replace (c =? 24) with false by (symmetry; apply Z.eqb_neq; lia).
    cbn. split; [lia|]. unfold MINYEAR, MAXYEAR.
    repeat (apply andb_true_intro; split); try apply Z.leb_le; lia. }
  cbn [orb].
  assert (Hb3 : b <= 3) by lia. assert (Hd3 : d <= 3) by lia.
  pose proof (_month_day_spec ((d =? 3) && (negb (c =? 24) || (b =? 3))) r) as Hmd.
  unfold _month_day_ok in Hmd.
  destruct (_month_day _ r) as [m dd].
  replace (400 * a + 1 + (b * 100 + c * 4 + d))
    with (400 * a + 100 * b + 4 * c + d + 1) by lia.
  unfold toordinal, valid_date, _ymd2ord, _days_before_month,
    _days_in_month; cbn [year month day].
  rewrite _days_before_year_split, _is_leap_split by lia.
  set (leap := (d =? 3) && (negb (c =? 24) || (b =? 3))) in *.
  assert (Hmd' : 0 <= r < 365 + (if leap then 1 else 0)) by (destruct leap; lia).
  specialize (Hmd Hmd').
  repeat (apply andb_prop in Hmd; destruct Hmd as [Hmd ?]).
  repeat match goal with
         | H : (_ <=? _) = true |- _ => apply Z.leb_le in H
         | H : (_ =? _) = true |- _ => apply Z.eqb_eq in H
         end.
  split; [lia|]. unfold MINYEAR, MAXYEAR.
  repeat (apply andb_true_intro; split); try apply Z.leb_le; try lia.
  destruct ((m =? 2) && leap) eqn:E.
  - apply andb_prop in E as [E1 E2]. apply Z.eqb_eq in E1. subst m.
    cbn in *. lia.
  - lia.
Qed.

Lemma _days_before_year_succ (y : Z) :
  _days_before_year (y + 1)
  = _days_before_year y + 365 + (if _is_leap y then 1 else 0).
Proof.
  unfold _days_before_year, _is_leap. cbv zeta.
  replace (y + 1 - 1) with y by lia.
  destruct (Z.eqb_spec (y mod 4) 0) as [E4|E4];
    destruct (Z.eqb_spec (y mod 100) 0) as [E100|E100];
    destruct (Z.eqb_spec (y mod 400) 0) as [E400|E400];
    cbn [andb orb negb]; revert E4 E100 E400;
    Z.to_euclidean_division_equations; lia.
Qed.

Lemma _days_before_year_mono (y y' : Z) :
  y <= y' -> _days_before_year y <= _days_before_year y'.
Proof.
  intros H. replace y' with (y + Z.of_nat (Z.to_nat (y' - y))) by lia.
  induction (Z.to_nat (y' - y)) as [|k IH].
  - rewrite Z.add_0_r. lia.
  - replace (y + Z.of_nat (S k)) with (y + Z.of_nat k + 1) by lia.
    rewrite _days_before_year_succ. destruct (_is_leap _); lia.
Qed.

(** The months of a valid date, one by one. *)
Lemma month_cases (m : Z) :
  1 <= m <= 12 ->
  m = 1 \/ m = 2 \/ m = 3 \/ m = 4 \/ m = 5 \/ m = 6
  \/ m = 7 \/ m = 8 \/ m = 9 \/ m = 10 \/ m = 11 \/ m = 12.
Proof. lia. Qed.

Lemma valid_date_fields (d : date) :
  valid_date d = true ->
  1 <= year d <= 9999 /\ 1 <= month d <= 12
  /\ 1 <= day d <= _days_in_month (year d) (month d).
Proof.
  unfold valid_date, MINYEAR, MAXYEAR. intros H.
  repeat (apply andb_prop in H; destruct H as [H ?]).
  repeat match goal with
         | H : (_ <=? _) = true |- _ => apply Z.leb_le in H
         end.
  lia.
Qed.

Lemma toordinal_in_year (d : date) :
  valid_date d = true ->
  _days_before_year (year d) < toordinal d
  <= _days_before_year (year d + 1).
Proof.
  intros H. apply valid_date_fields in H as (Hy & Hm & Hd).
  rewrite _days_before_year_succ.
  unfold toordinal, _ymd2ord, _days_before_month, _days_in_month in *.
  destruct (_is_leap (year d));
    destruct (month_cases _ Hm) as [E|[E|[E|[E|[E|[E|[E|[E|[E|[E|[E|E]]]]]]]]]]];
    rewrite E in *; cbn in *; lia.
Qed.

Lemma toordinal_range (d : date) :
  valid_date d = true -> 1 <= toordinal d <= _MAXORDINAL.
Proof.
  intros H. pose proof (toordinal_in_year d H) as Hin.
  apply valid_date_fields in H as (Hy & _).
  pose proof (_days_before_year_mono 1 (year d) ltac:(lia)) as H1.
  pose proof (_days_before_year_mono (year d + 1) 10000 ltac:(lia)) as H2.
  change (_days_before_year 1) with 0 in H1.
  change (_days_before_year 10000) with 3652059 in H2.
  unfold _MAXORDINAL. lia.
Qed.

Lemma toordinal_inj (d1 d2 : date) :
  valid_date d1 = true -> valid_date d2 = true ->
  toordinal d1 = toordinal d2 -> d1 = d2.
Proof.
  intros V1 V2 E.
  pose proof (toordinal_in_year d1 V1) as I1.
  pose proof (toordinal_in_year d2 V2) as I2.
  assert (Ey : year d1 = year d2).
  { destruct (Z.lt_trichotomy (year d1) (year d2)) as [L|[L|L]]; [|exact L|].
    - pose proof (_days_before_year_mono (year d1 + 1) (year d2) ltac:(lia)). lia.
    - pose proof (_days_before_year_mono (year d2 + 1) (year d1) ltac:(lia)). lia. }
  apply valid_date_fields in V1 as (_ & Hm1 & Hd1).
  apply valid_date_fields in V2 as (_ & Hm2 & Hd2).
  destruct d1 as [y1 m1 dd1], d2 as [y2 m2 dd2]. cbn [year month day] in *.
  subst y2. unfold toordinal, _ymd2ord, _days_before_month, _days_in_month in *.
  cbn [year month day] in *.
  assert (m1 = m2 /\ dd1 = dd2) as [-> ->]; [|reflexivity].
  destruct (_is_leap y1);
    destruct (month_cases _ Hm1) as [E1|[E1|[E1|[E1|[E1|[E1|[E1|[E1|[E1|[E1|[E1|E1]]]]]]]]]]];
    destruct (month_cases _ Hm2) as [E2|[E2|[E2|[E2|[E2|[E2|[E2|[E2|[E2|[E2|[E2|E2]]]]]]]]]]];
    rewrite E1, E2 in *; cbn in *; lia.
Qed.

(** A later date is not of an earlier year. *)
Lemma year_mono (d1 d2 : date) :
  valid_date d1 = true -> valid_date d2 = true ->
  toordinal d1 <= toordinal d2 -> year d1 <= year d2.
Proof.
  intros V1 V2 H.
  pose proof (toordinal_in_year d1 V1) as I1.
  pose proof (toordinal_in_year d2 V2) as I2.
  destruct (Z.le_gt_cases (year d1) (year d2)) as [L|L]; [exact L|].
  pose proof (_days_before_year_mono (year d2 + 1) (year d1) ltac:(lia)). lia.
Qed.

Lemma fromordinal_toordinal (d : date) :
  valid_date d = true -> fromordinal (toordinal d) = d.
Proof.
  intros V. pose proof (toordinal_range d V) as R.
  destruct (toordinal_fromordinal _ R) as [E V'].
  apply toordinal_inj; assumption.
Qed.

End Calendar_facts.

(** ** Decimal printing *)

Section Decimal.

Ltac ndiv_lia := zify; Z.to_euclidean_division_equations; lia.

Lemma pretty_N_go_1 (x : N) (s : string) :
  (0 < x < 10)%N -> pretty_N_go x s = String (pretty_N_char x) s.
Proof.
  intros H. rewrite pretty_N_go_step by lia.
  rewrite N.div_small, N.mod_small by lia. apply pretty_N_go_0.
Qed.

Lemma pretty_N_go_2 (x : N) (s : string) :
  (10 <= x < 100)%N ->
  pretty_N_go x s
  = String (pretty_N_char (x / 10)) (String (pretty_N_char (x mod 10)) s).
Proof.
  intros H. rewrite pretty_N_go_step by lia.
  rewrite pretty_N_go_1 by ndiv_lia. reflexivity.
Qed.

Lemma pretty_N_go_3 (x : N) (s : string) :
  (100 <= x < 1000)%N ->
  pretty_N_go x s
  = String (pretty_N_char (x / 100))
      (String (pretty_N_char (x / 10 mod 10))
         (String (pretty_N_char (x mod 10)) s)).
Proof.
  intros H. rewrite pretty_N_go_step by lia.
  rewrite pretty_N_go_2 by ndiv_lia.
  replace (x / 10 / 10)%N with (x / 100)%N by ndiv_lia. reflexivity.
Qed.

Lemma pretty_N_go_4 (x : N) (s : string) :
  (1000 <= x < 10000)%N ->
  pretty_N_go x s
  = String (pretty_N_char (x / 1000))
      (String (pretty_N_char (x / 100 mod 10))
         (String (pretty_N_char (x / 10 mod 10))
            (String (pretty_N_char (x mod 10)) s))).
Proof.
  intros H. rewrite pretty_N_go_step by lia.
  rewrite pretty_N_go_3 by ndiv_lia.
  replace (x / 10 / 100)%N with (x / 1000)%N by ndiv_lia.
  replace (x / 10 / 10 mod 10)%N with (x / 100 mod 10)%N by ndiv_lia.
  reflexivity.
Qed.

Lemma str_int_nonneg (n : Z) :
  0 <= n ->
  str_int n = if decide (Z.to_N n = 0%N) then "0" else pretty_N_go (Z.to_N n) "".
Proof.
  intros H. unfold str_int. destruct n as [|p|p]; [reflexivity| |lia].
  reflexivity.
Qed.

Lemma zfill_2 (n : Z) : 0 <= n <= 99 -> zfill 2 (str_int n) = digits2 n.
Proof.
  intros H. rewrite str_int_nonneg by lia. unfold digits2. cbv zeta.
  set (x := Z.to_N n). assert (Hx : (x <= 99)%N) by lia. clearbody x.
  case_decide as E0; [subst x; reflexivity|].
  destruct (decide (x < 10)%N).
  - rewrite pretty_N_go_1 by lia. rewrite (N.div_small x 10), N.mod_small by lia.
    reflexivity.
  - rewrite pretty_N_go_2 by lia. reflexivity.
Qed.

Lemma zfill_4 (n : Z) : 0 <= n <= 9999 -> zfill 4 (str_int n) = digits4 n.
Proof.
  intros H. rewrite str_int_nonneg by lia. unfold digits4. cbv zeta.
  set (x := Z.to_N n). assert (Hx : (x <= 9999)%N) by lia. clearbody x.
  case_decide as E0; [subst x; reflexivity|].
  destruct (decide (x < 10)%N); [|destruct (decide (x < 100)%N);
    [|destruct (decide (x < 1000)%N)]].
  - rewrite pretty_N_go_1 by lia.
    replace (x / 1000)%N with 0%N by ndiv_lia.
    replace (x / 100 mod 10)%N with 0%N by ndiv_lia.
    replace (x / 10 mod 10)%N with 0%N by ndiv_lia.
    rewrite N.mod_small by lia. reflexivity.
  - rewrite pretty_N_go_2 by lia.
    replace (x / 1000)%N with 0%N by ndiv_lia.
    replace (x / 100 mod 10)%N with 0%N by ndiv_lia.
    replace (x / 10 mod 10)%N with (x / 10)%N by ndiv_lia.
    reflexivity.
  - rewrite pretty_N_go_3 by lia.
    replace (x / 1000)%N with 0%N by ndiv_lia.
    replace (x / 100 mod 10)%N with (x / 100)%N by ndiv_lia.
    reflexivity.
  - rewrite pretty_N_go_4 by lia. reflexivity.
Qed.

(** From 1000 on the decimal form has four digits without padding. *)
Lemma str_int_4 (n : Z) : 1000 <= n <= 9999 -> str_int n = digits4 n.
Proof.
  intros H. rewrite str_int_nonneg by lia. unfold digits4. cbv zeta.
  set (x := Z.to_N n). assert (Hx : (1000 <= x <= 9999)%N) by lia. clearbody x.
  case_decide as E0; [lia|].
  rewrite pretty_N_go_4 by lia. reflexivity.
Qed.

Lemma pretty_N_char_digit (x : N) : strptime.is_digit (pretty_N_char x) = true.
Proof.
  unfold pretty_N_char. destruct x as [|p]; [reflexivity|].
  do 4 (destruct p as [p|p|]; try reflexivity).
Qed.

(** The characters of a number are digits. *)
Lemma contains_pretty_N_go (c : ascii) (x : N) (s : string) :
  contains c (pretty_N_go x s) = true ->
  contains c s = true \/ strptime.is_digit c = true.
Proof.
  revert s. induction (N.lt_wf_0 x) as [x _ IH]. intros s H.
  destruct (decide (x = 0%N)) as [->|Hx].
  - rewrite pretty_N_go_0 in H. auto.
  - rewrite pretty_N_go_step in H by lia.
    apply IH in H; [|apply N.div_lt; lia].
    destruct H as [H|H]; [|auto].
    cbn [contains] in H. apply orb_true_iff in H as [H|H]; [|auto].
    apply Ascii.eqb_eq in H. subst c. right. apply pretty_N_char_digit.
Qed.

Lemma contains_str_int (c : ascii) (n : Z) :
  0 <= n -> contains c (str_int n) = true -> strptime.is_digit c = true.
Proof.
  intros Hn H. rewrite str_int_nonneg in H by assumption.
  case_decide.
  - cbn [contains] in H. rewrite orb_false_r in H. apply Ascii.eqb_eq in H.
    subst c. reflexivity.
  - apply contains_pretty_N_go in H as [H|H]; [discriminate|assumption].
Qed.

(** Two texts cut at the first occurrence of a character. *)
Lemma app_sep_inj (c : ascii) (a b x y : string) :
  contains c a = false -> contains c b = false ->
  a +:+ String c x = b +:+ String c y -> a = b /\ x = y.
Proof.
  revert b. induction a as [|p a IH]; intros [|q b] Ha Hb E.
  - injection E as ->. auto.
  - exfalso. change (String c x = String q (b +:+ String c y)) in E.
    injection E as <- _. cbn in Hb. rewrite Ascii.eqb_refl in Hb. discriminate.
  - exfalso. change (String p (a +:+ String c x) = String c y) in E.
    injection E as -> _. cbn in Ha. rewrite Ascii.eqb_refl in Ha. discriminate.
  - change (String p (a +:+ String c x) = String q (b +:+ String c y)) in E.
    injection E as -> E. cbn in Ha, Hb.
    apply orb_false_iff in Ha as [_ Ha]. apply orb_false_iff in Hb as [_ Hb].
    destruct (IH b Ha Hb E) as [-> ->]. auto.
Qed.

Lemma N_decimal_2 (x : N) : (x = 10 * (x / 10) + x mod 10)%N.
Proof. ndiv_lia. Qed.

Lemma N_decimal_4 (x : N) :
  (x = 1000 * (x / 1000) + 100 * (x / 100 mod 10) + 10 * (x / 10 mod 10)
       + x mod 10)%N.
Proof.
  rewrite (N_decimal_2 x) at 1. rewrite (N_decimal_2 (x / 10)) at 1.
  rewrite (N_decimal_2 (x / 10 / 10)) at 1.
  replace (x / 10 / 10 / 10)%N with (x / 1000)%N
    by (rewrite !N.Div0.div_div; reflexivity).
  replace (x / 10 / 10)%N with (x / 100)%N
    by (rewrite !N.Div0.div_div; reflexivity).
  lia.
Qed.

Lemma digits2_inj (n m : Z) :
  0 <= n <= 99 -> 0 <= m <= 99 -> digits2 n = digits2 m -> n = m.
Proof.
  unfold digits2. cbv zeta. intros Hn Hm E.
  set (x := Z.to_N n) in *. set (y := Z.to_N m) in *.
  assert (Hx : (x < 100)%N) by lia. assert (Hy : (y < 100)%N) by lia.
  assert (x = y); [|lia]. clearbody x y.
  injection E as E1 E2.
  apply pretty_N_char_inj in E1;
    [|apply N.Div0.div_lt_upper_bound; lia|apply N.Div0.div_lt_upper_bound; lia].
  apply pretty_N_char_inj in E2; [|apply N.mod_lt; lia|apply N.mod_lt; lia].
  rewrite (N_decimal_2 x), (N_decimal_2 y), E1, E2. reflexivity.
Qed.

Lemma digits4_inj (n m : Z) :
  0 <= n <= 9999 -> 0 <= m <= 9999 -> digits4 n = digits4 m -> n = m.
Proof.
  unfold digits4. cbv zeta. intros Hn Hm E.
  set (x := Z.to_N n) in *. set (y := Z.to_N m) in *.
  assert (Hx : (x < 10000)%N) by lia. assert (Hy : (y < 10000)%N) by lia.
  assert (x = y); [|lia]. clearbody x y.
  injection E as E1 E2 E3 E4.
  apply pretty_N_char_inj in E1;
    [|apply N.Div0.div_lt_upper_bound; lia|apply N.Div0.div_lt_upper_bound; lia].
  apply pretty_N_char_inj in E2; [|apply N.mod_lt; lia|apply N.mod_lt; lia].
  apply pretty_N_char_inj in E3; [|apply N.mod_lt; lia|apply N.mod_lt; lia].
  apply pretty_N_char_inj in E4; [|apply N.mod_lt; lia|apply N.mod_lt; lia].
  rewrite (N_decimal_4 x), (N_decimal_4 y), E1, E2, E3, E4. reflexivity.
Qed.

End Decimal.

(** ** Strings and paths *)

Section Strings.

Lemma app_nil_l_s (s : string) : "" +:+ s = s.
Proof. reflexivity. Qed.

Lemma app_cons_s (c : ascii) (p s : string) :
  String c p +:+ s = String c (p +:+ s).
Proof. reflexivity. Qed.

Lemma app_nil_r_s (s : string) : s +:+ "" = s.
Proof.
  induction s as [|x s IH]; [reflexivity|]. rewrite app_cons_s, IH. reflexivity.
Qed.

Lemma app_assoc_s (a b c : string) : (a +:+ b) +:+ c = a +:+ (b +:+ c).
Proof.
  induction a as [|x a IH]; [reflexivity|].
  rewrite !app_cons_s, IH. reflexivity.
Qed.

Lemma app_length_s (a b : string) :
  String.length (a +:+ b) = (String.length a + String.length b)%nat.
Proof.
  induction a as [|x a IH]; [reflexivity|].
  rewrite app_cons_s. cbn. rewrite IH. reflexivity.
Qed.

Lemma app_inj_l_s (a b c : string) : a +:+ b = a +:+ c -> b = c.
Proof.
  induction a as [|x a IH]; [auto|].
  rewrite !app_cons_s. intros H. injection H as H. auto.
Qed.

Lemma app_inj_r_s (a b e : string) : a +:+ e = b +:+ e -> a = b.
Proof.
  revert b. induction a as [|x a IH]; intros [|y b] H.
  - reflexivity.
  - apply (f_equal String.length) in H.
    rewrite app_nil_l_s, app_cons_s in H. cbn in H.
    rewrite app_length_s in H. lia.
  - apply (f_equal String.length) in H.
    rewrite app_nil_l_s, app_cons_s in H. cbn in H.
    rewrite app_length_s in H. lia.
  - rewrite !app_cons_s in H. injection H as -> H. f_equal. auto.
Qed.

Lemma contains_app (c : ascii) (a b : string) :
  contains c (a +:+ b) = contains c a || contains c b.
Proof.
  induction a as [|x a IH]; [reflexivity|].
  rewrite app_cons_s. cbn. rewrite IH, orb_assoc. reflexivity.
Qed.

Lemma contains_drop (c : ascii) (n : nat) (s : string) :
  contains c s = false -> contains c (string_drop n s) = false.
Proof.
  revert s. induction n as [|n IH]; intros [|x s] H; try assumption.
  cbn in *. apply orb_false_iff in H as [_ H]. auto.
Qed.

Lemma take_drop_s (n : nat) (s : string) :
  string_take n s +:+ string_drop n s = s.
Proof.
  revert s. induction n as [|n IH]; intros [|x s]; try reflexivity.
  cbn. rewrite app_cons_s, IH. reflexivity.
Qed.

(** [_rfind] returns its default or an index not below its start. *)
Lemma _rfind_range (c : ascii) (s : string) (i acc : Z) :
  _rfind c s i acc = acc \/ i <= _rfind c s i acc.
Proof.
  revert i acc. induction s as [|x s IH]; intros i acc; [left; reflexivity|].
  cbn. destruct (IH (i + 1) (if Ascii.eqb x c then i else acc)) as [E|E].
  - rewrite E. destruct (Ascii.eqb x c); [right; lia|left; reflexivity].
  - right. lia.
Qed.

(** Past the index that [rfind] returns the character does not occur. *)
Lemma _rfind_drop (c : ascii) (s : string) (i acc : Z) (n : nat) :
  acc < i -> _rfind c s i acc < i + Z.of_nat n ->
  contains c (string_drop n s) = false.
Proof.
  revert i acc n. induction s as [|x s IH]; intros i acc n Ha H.
  - destruct n; reflexivity.
  - cbn in H.
    destruct (_rfind_range c s (i + 1) (if Ascii.eqb x c then i else acc))
      as [E|E].
    + destruct n as [|n].
      * cbn. destruct (Ascii.eqb x c) eqn:Ex; [lia|]. cbn.
        apply (IH (i + 1) acc 0%nat); lia.
      * cbn. apply (IH (i + 1) (if Ascii.eqb x c then i else acc) n);
          [destruct (Ascii.eqb x c); lia|lia].
    + destruct n as [|n]; [lia|].
      cbn. apply (IH (i + 1) (if Ascii.eqb x c then i else acc) n);
        [destruct (Ascii.eqb x c); lia|lia].
Qed.

Lemma rfind_ge (c : ascii) (s : string) : -1 <= rfind c s.
Proof.
  unfold rfind. destruct (_rfind_range c s 0 (-1)) as [E|E]; lia.
Qed.

(** The extension that [splitext] returns has no separator, and the two
    parts make up the path. *)
Lemma splitext_spec (p : string) :
  contains posixpath.sep (snd (posixpath.splitext p)) = false
  /\ fst (posixpath.splitext p) +:+ snd (posixpath.splitext p) = p.
Proof.
  unfold posixpath.splitext. cbv zeta.
  pose proof (rfind_ge posixpath.sep p) as Hs.
  destruct (Z.ltb_spec (rfind posixpath.sep p) (rfind posixpath.extsep p))
    as [L|L]; cbn [fst snd].
  - destruct (posixpath._only_dots _ _); cbn [fst snd].
    + split; [reflexivity|]. apply app_nil_r_s.
    + split.
      * unfold slice_from. apply (_rfind_drop posixpath.sep p 0 (-1)); [lia|].
        fold (rfind posixpath.sep p). lia.
      * apply take_drop_s.
  - split; [reflexivity|]. apply app_nil_r_s.
Qed.

Lemma split_no_sep (c : ascii) (t : string) :
  contains c t = false -> split c t = [t].
Proof.
  induction t as [|x t IH]; [reflexivity|].
  cbn. intros H. apply orb_false_iff in H as [H1 H2].
  rewrite H1, (IH H2). reflexivity.
Qed.

(** A tail without separator extends the last component of a path. *)
Lemma split_snoc (c : ascii) (b t : string) :
  contains c t = false ->
  exists init lastc,
    split c b = (init ++ [lastc])%list
    /\ split c (b +:+ t) = (init ++ [lastc +:+ t])%list.
Proof.
  intros Ht. induction b as [|x b (init & lastc & E1 & E2)].
  - exists [], "". split; [reflexivity|]. apply split_no_sep, Ht.
  - rewrite app_cons_s. cbn [split]. destruct (Ascii.eqb x c).
    + exists ("" :: init), lastc. rewrite E1, E2. split; reflexivity.
    + rewrite E1, E2. destruct init as [|h init].
      * exists [], (String x lastc). split; reflexivity.
      * exists (String x h :: init), lastc. split; reflexivity.
Qed.

Lemma contains_not_special (s : string) :
  contains "_" s = true ->
  _resolve_step [] s = [s] /\ forall acc, _resolve_step acc s = (acc ++ [s])%list.
Proof.
  intros H.
  assert (E : forall acc, _resolve_step acc s = (acc ++ [s])%list).
  { intros acc. unfold _resolve_step.
    destruct (String.eqb_spec s "") as [->|_]; [discriminate|].
    destruct (String.eqb_spec s ".") as [->|_]; [discriminate|].
    destruct (String.eqb_spec s "..") as [->|_]; [discriminate|].
    reflexivity. }
  split; [apply E|exact E].
Qed.

Lemma isabs_cons (c : ascii) (s : string) :
  posixpath.isabs (String c s) = if ascii_dec "/" c then true else false.
Proof.
  unfold posixpath.isabs, startswith. cbn [String.prefix].
  destruct (ascii_dec "/" c); [destruct s|]; reflexivity.
Qed.

Lemma isabs_app (b x y : string) :
  posixpath.isabs (b +:+ String "_" x) = posixpath.isabs (b +:+ String "_" y).
Proof.
  destruct b as [|c b]; [rewrite !app_nil_l_s, !isabs_cons; reflexivity|].
  rewrite !app_cons_s, !isabs_cons. reflexivity.
Qed.

(** The digits of a number are no separators. *)
Lemma pretty_N_go_no_sep (x : N) (s : string) :
  contains "/" s = false -> contains "/" (pretty_N_go x s) = false.
Proof.
  revert s. induction (N.lt_wf_0 x) as [x _ IH]. intros s Hs.
  destruct (decide (x = 0%N)) as [->|Hx]; [rewrite pretty_N_go_0; exact Hs|].
  rewrite pretty_N_go_step by lia. apply IH.
  - apply N.div_lt; lia.
  - cbn. rewrite Hs, orb_false_r. unfold pretty_N_char.
    repeat case_match; reflexivity.
Qed.

Lemma str_int_no_sep (i : Z) : contains "/" (str_int i) = false.
Proof.
  unfold str_int, pretty, pretty_Z.
  destruct i as [|p|p]; [reflexivity| |].
  - unfold pretty, pretty_positive, pretty, pretty_N.
    case_decide; [reflexivity|]. apply pretty_N_go_no_sep. reflexivity.
  - change ("-" +:+ pretty p) with (String "-" (pretty p)). cbn.
    unfold pretty, pretty_positive, pretty, pretty_N.
    case_decide; [reflexivity|]. apply pretty_N_go_no_sep. reflexivity.
Qed.

Lemma str_int_inj (i j : Z) : str_int i = str_int j -> i = j.
Proof. apply pretty_Z_inj. Qed.

(** The file-system key of a candidate of [ensure_unique]: a directory
    part that does not depend on the number, and a last component that
    does. *)
Lemma candidate_key (cwd : list string) (base ext : string) :
  contains posixpath.sep ext = false ->
  exists dir lastc,
    forall i, resolve cwd (candidate base ext i)
              = (dir ++ [lastc +:+ "_" +:+ str_int i +:+ ext])%list.
Proof.
  intros He.
  destruct (split_snoc posixpath.sep base "" eq_refl)
    as (init & lastc & E1 & _).
  exists (fold_left _resolve_step init
            (if posixpath.isabs (base +:+ "_") then [] else cwd)), lastc.
  intros i. unfold resolve, candidate.
  assert (Ht : contains posixpath.sep ("_" +:+ str_int i +:+ ext) = false).
  { rewrite app_cons_s, app_nil_l_s. cbn [contains].
    rewrite contains_app, str_int_no_sep, He. reflexivity. }
  destruct (split_snoc posixpath.sep base _ Ht) as (init' & lastc' & E1' & E2).
  rewrite E1 in E1'. apply app_inj_tail in E1' as [<- <-].
  rewrite E2, fold_left_app. cbn [fold_left].
  change (base +:+ "_" +:+ str_int i +:+ ext)
    with (base +:+ String "_" (str_int i +:+ ext)).
  rewrite (isabs_app base (str_int i +:+ ext) "").
  apply contains_not_special.
  rewrite contains_app. rewrite app_cons_s. cbn [contains].
  rewrite orb_true_r. reflexivity.
Qed.

Lemma candidate_key_inj (cwd : list string) (base ext : string) (i j : Z) :
  contains posixpath.sep ext = false ->
  resolve cwd (candidate base ext i) = resolve cwd (candidate base ext j) ->
  i = j.
Proof.
  intros He H. destruct (candidate_key cwd base ext He) as (dir & lastc & E).
  rewrite !E in H. apply app_inj_tail in H as [_ H].
  apply app_inj_l_s in H. rewrite !app_cons_s, !app_nil_l_s in H.
  injection H as H. apply app_inj_r_s in H. apply str_int_inj, H.
Qed.

Lemma candidate_nonempty (base ext : string) (i : Z) :
  String.eqb (candidate base ext i) "" = false.
Proof.
  unfold candidate. destruct base; reflexivity.
Qed.

End Strings.

(** ** The label of a date *)

Section Labels.

Lemma _days_in_month_le_31 (y m : Z) : _days_in_month y m <= 31.
Proof.
  unfold _days_in_month, _DAYS_IN_MONTH.
  destruct ((m =? 2) && _is_leap y); [lia|].
  destruct m as [|p|p]; try lia.
  do 4 (try destruct p as [p|p|]; try lia).
Qed.

(** The label of a date: the year as it is, the month and the day on two
    digits. *)
Lemma strftime_Ymd_fields (d : date) :
  valid_date d = true ->
  strftime_Ymd d
  = str_int (year d) +:+ "." +:+ digits2 (month d) +:+ "." +:+ digits2 (day d).
Proof.
  intros V. apply valid_date_fields in V as (Hy & Hm & Hd).
  pose proof (_days_in_month_le_31 (year d) (month d)).
  unfold strftime_Ymd. rewrite !zfill_2 by lia. reflexivity.
Qed.

(** From the year 1000 on the year has its four digits. *)
Lemma strftime_Ymd_digits (d : date) :
  valid_date d = true -> 1000 <= year d ->
  strftime_Ymd d
  = digits4 (year d) +:+ "." +:+ digits2 (month d) +:+ "." +:+ digits2 (day d).
Proof.
  intros V Hy. rewrite strftime_Ymd_fields by assumption.
  apply valid_date_fields in V as (Hy' & _).
  rewrite str_int_4 by lia. reflexivity.
Qed.

Lemma strftime_Ymd_length (d : date) :
  valid_date d = true -> 1000 <= year d ->
  String.length (strftime_Ymd d) = 10%nat.
Proof. intros V Hy. rewrite strftime_Ymd_digits by assumption. reflexivity. Qed.

Lemma contains_digits2 (c : ascii) (n : Z) :
  contains c (digits2 n) = true -> strptime.is_digit c = true.
Proof.
  unfold digits2. cbn [contains]. rewrite orb_false_r.
  intros H. apply orb_true_iff in H as [H|H]; apply Ascii.eqb_eq in H;
    subst c; apply pretty_N_char_digit.
Qed.

(** A label of a date holds digits and dots only. *)
Lemma contains_strftime_Ymd (c : ascii) (d : date) :
  valid_date d = true -> contains c (strftime_Ymd d) = true ->
  strptime.is_digit c = true \/ c = "."%char.
Proof.
  intros V. rewrite strftime_Ymd_fields by assumption.
  apply valid_date_fields in V as (Hy & _).
  rewrite !contains_app. cbn [contains]. rewrite !orb_false_r.
  intros H.
  repeat (apply orb_true_iff in H as [H|H]);
    try (left; apply (contains_str_int c (year d)); [lia|exact H]);
    try discriminate;
    apply Ascii.eqb_eq in H; subst c;
    first [right; reflexivity | left; apply pretty_N_char_digit].
Qed.

Lemma strftime_Ymd_no (c : ascii) (d : date) :
  valid_date d = true -> strptime.is_digit c = false -> c <> "."%char ->
  contains c (strftime_Ymd d) = false.
Proof.
  intros V Hc Hd. destruct (contains c (strftime_Ymd d)) eqn:E; [|reflexivity].
  apply contains_strftime_Ymd in E as [E|E]; [congruence|contradiction|assumption].
Qed.

Lemma strftime_Ymd_inj (d1 d2 : date) :
  valid_date d1 = true -> valid_date d2 = true ->
  strftime_Ymd d1 = strftime_Ymd d2 -> d1 = d2.
Proof.
  intros V1 V2. rewrite !strftime_Ymd_fields by assumption.
  apply valid_date_fields in V1 as (Hy1 & Hm1 & Hd1).
  apply valid_date_fields in V2 as (Hy2 & Hm2 & Hd2).
  pose proof (_days_in_month_le_31 (year d1) (month d1)).
  pose proof (_days_in_month_le_31 (year d2) (month d2)).
  intros E.
  assert (Hno : forall y, 0 <= y -> contains "." (str_int y) = false).
  { intros y Hy. destruct (contains "." (str_int y)) eqn:Ec; [|reflexivity].
    apply contains_str_int in Ec; [discriminate|assumption]. }
  apply (app_sep_inj "." (str_int (year d1)) (str_int (year d2))) in E
    as [Ey E]; [|apply Hno; lia..].
  apply (inj pretty) in Ey.
  assert (digits2 (month d1) = digits2 (month d2)
          /\ digits2 (day d1) = digits2 (day d2)) as (Em & Ed).
  { unfold digits2 in *. cbn in E. injection E as -> -> -> ->. auto. }
  apply digits2_inj in Em; [|lia..].
  apply digits2_inj in Ed; [|lia..].
  destruct d1, d2; cbn in *; congruence.
Qed.

(** Two labels of valid dates are equal only if the start dates are. *)
Lemma bucket_label_inj (s1 e1 s2 e2 : date) :
  valid_date s1 = true -> valid_date s2 = true ->
  bucket_label (s1, e1) = bucket_label (s2, e2) -> s1 = s2.
Proof.
  intros V1 V2. unfold bucket_label. cbn [fst snd]. intros E.
  apply strftime_Ymd_inj; try assumption.
  apply (app_sep_inj "-" (strftime_Ymd s1) (strftime_Ymd s2)) in E as [E _];
    [exact E|apply strftime_Ymd_no; [assumption|reflexivity|discriminate]..].
Qed.

End Labels.

(** ** Buckets *)

Section Buckets.

Variable origin : date.
Variable days : Z.
Hypothesis origin_valid : valid_date origin = true.
Hypothesis days_pos : 0 < days.

Lemma bucket_bounds_Ret (idx : Z) :
  0 < toordinal origin + idx * days -> toordinal origin + idx * days + (days - 1) <= _MAXORDINAL ->
  bucket_bounds origin days idx
  = Ret (fromordinal (toordinal origin + idx * days), fromordinal (toordinal origin + idx * days + (days - 1))).
Proof.
  intros Hs He.
  pose proof (toordinal_range origin origin_valid) as Ho.
  unfold _MAXORDINAL in *.
  unfold bucket_bounds, timedelta, date_add.
  replace (Z.abs (idx * days) <=? 999999999) with true
    by (symmetry; apply Z.leb_le; lia).
  cbn [obind].
  replace ((0 <? toordinal origin + idx * days)
           && (toordinal origin + idx * days <=? _MAXORDINAL)) with true
    by (symmetry; apply andb_true_intro; unfold _MAXORDINAL;
        split; [apply Z.ltb_lt|apply Z.leb_le]; lia).
  cbn [obind].
  replace (Z.abs (days - 1) <=? 999999999) with true
    by (symmetry; apply Z.leb_le; lia).
  cbn [obind].
  destruct (toordinal_fromordinal (toordinal origin + idx * days)) as [E _];
    [unfold _MAXORDINAL; lia|].
  rewrite E.
  replace ((0 <? toordinal origin + idx * days + (days - 1))
           && (toordinal origin + idx * days + (days - 1) <=? _MAXORDINAL))
    with true
    by (symmetry; apply andb_true_intro; unfold _MAXORDINAL;
        split; [apply Z.ltb_lt|apply Z.leb_le]; lia).
  reflexivity.
Qed.

Lemma bucket_bounds_Raise (idx : Z) :
  toordinal origin + idx * days <= 0 \/ _MAXORDINAL < toordinal origin + idx * days + (days - 1) ->
  bucket_bounds origin days idx = Raise OverflowError.
Proof.
  intros H.
  unfold bucket_bounds, timedelta, date_add.
  destruct (Z.abs (idx * days) <=? 999999999); [|reflexivity]. cbn [obind].
  destruct (Z.ltb_spec 0 (toordinal origin + idx * days)) as [Hs|Hs];
    [|reflexivity].
  destruct (Z.leb_spec (toordinal origin + idx * days) _MAXORDINAL) as [Hs'|Hs'];
    [|reflexivity].
  cbn [andb obind].
  destruct (Z.abs (days - 1) <=? 999999999); [|reflexivity]. cbn [obind].
  destruct (toordinal_fromordinal (toordinal origin + idx * days)) as [E _];
    [lia|].
  rewrite E.
  replace ((0 <? toordinal origin + idx * days + (days - 1))
           && (toordinal origin + idx * days + (days - 1) <=? _MAXORDINAL))
    with false; [reflexivity|].
  symmetry. apply andb_false_iff. right. apply Z.leb_gt. lia.
Qed.

Lemma bucket_bounds_inv (idx : Z) (s e : date) :
  bucket_bounds origin days idx = Ret (s, e) ->
  0 < toordinal origin + idx * days /\ toordinal origin + idx * days + (days - 1) <= _MAXORDINAL
  /\ s = fromordinal (toordinal origin + idx * days) /\ e = fromordinal (toordinal origin + idx * days + (days - 1)).
Proof.
  intros H.
  destruct (Z.ltb_spec 0 (toordinal origin + idx * days)) as [Hs|Hs];
    [destruct (Z.leb_spec (toordinal origin + idx * days + (days - 1)) _MAXORDINAL) as [He|He]|].
  - rewrite bucket_bounds_Ret in H by assumption.
    injection H as <- <-. auto.
  - rewrite bucket_bounds_Raise in H by (right; assumption). discriminate.
  - rewrite bucket_bounds_Raise in H by (left; assumption). discriminate.
Qed.

End Buckets.

Lemma floor_window (x d k : Z) :
  0 < d -> (k * d <= x < (k + 1) * d <-> x / d = k).
Proof.
  intros Hd. split.
  - intros H. symmetry. apply (Z.div_unique_pos x d k (x - k * d)); lia.
  - intros <-. pose proof (Z.div_mod x d ltac:(lia)).
    pose proof (Z.mod_pos_bound x d Hd). lia.
Qed.

Lemma get_date_range_folder_bounds (dt origin : datetime) (days : Z) :
  days <> 0 ->
  get_date_range_folder dt origin days
  = obind (bucket_bounds (dt_date origin) days
             ((toordinal (dt_date dt) - toordinal (dt_date origin)) / days))
          (fun b => Ret (bucket_label b)).
Proof.
  intros H. unfold get_date_range_folder, floordiv, date_sub_days.
  destruct (Z.eqb_spec days 0); [contradiction|reflexivity].
Qed.




Lemma same_window_index (origin : date) (days : Z) (a b : date) :
  0 < days ->
  same_window origin days a b
  <-> (toordinal a - toordinal origin) / days
      = (toordinal b - toordinal origin) / days.
Proof.
  intros Hd. unfold same_window. split.
  - intros (k & Ha & Hb).
    transitivity k; [|symmetry];
      apply (proj1 (floor_window _ days k Hd)); lia.
  - intros E. exists ((toordinal a - toordinal origin) / days).
    pose proof (proj2 (floor_window (toordinal a - toordinal origin) days _ Hd)
                  eq_refl).
    pose proof (proj2 (floor_window (toordinal b - toordinal origin) days _ Hd)
                  (eq_sym E)).
    lia.
Qed.

Lemma window_in_calendar_index (origin : date) (days : Z) (a : date) :
  0 < days ->
  window_in_calendar origin days a
  <-> 0 < toordinal origin + (toordinal a - toordinal origin) / days * days
      /\ toordinal origin + (toordinal a - toordinal origin) / days * days
         + (days - 1) <= _MAXORDINAL.
Proof.
  intros Hd. unfold window_in_calendar. split.
  - intros (k & Hk & Hs & He).
    assert (E : (toordinal a - toordinal origin) / days = k)
      by (apply (proj1 (floor_window _ days k Hd)); lia).
    rewrite E. lia.
  - intros [Hs He]. exists ((toordinal a - toordinal origin) / days).
    pose proof (proj2 (floor_window (toordinal a - toordinal origin) days _ Hd)
                  eq_refl).
    lia.
Qed.

(** C7 (amended).  For a valid origin and a positive period.  Two
    consecutive buckets made of dates of the calendar are there, and the
    day after the end of the first is the start of the second (and so
    whenever the bounds of two consecutive buckets are returned).  Two
    instants in one window of [days] days from the origin get the same
    result.  Two instants whose windows are made of dates of the calendar
    both get a label, and the two labels are equal if and only if the
    instants are in one window.  An instant whose window is not made of
    dates of the calendar gets no label: [OverflowError] is raised. *)
Theorem buckets_tile (origin : datetime) (days : Z) :
  valid_date (dt_date origin) = true ->
  0 < days ->
  (forall i : Z,
     0 < toordinal (dt_date origin) + i * days ->
     toordinal (dt_date origin) + (i + 2) * days - 1 <= _MAXORDINAL ->
     exists s e s' e' : date,
       bucket_bounds (dt_date origin) days i = Ret (s, e)
       /\ bucket_bounds (dt_date origin) days (i + 1) = Ret (s', e')
       /\ date_add e 1 = Ret s'
       /\ toordinal e + 1 = toordinal s'
       /\ toordinal e = toordinal s + (days - 1))
  /\ (forall (i : Z) (s e s' e' : date),
        bucket_bounds (dt_date origin) days i = Ret (s, e) ->
        bucket_bounds (dt_date origin) days (i + 1) = Ret (s', e') ->
        date_add e 1 = Ret s'
        /\ toordinal e + 1 = toordinal s'
        /\ toordinal e = toordinal s + (days - 1))
  /\ (forall t1 t2 : datetime,
        same_window (dt_date origin) days (dt_date t1) (dt_date t2) ->
        get_date_range_folder t1 origin days
        = get_date_range_folder t2 origin days)
  /\ (forall t1 t2 : datetime,
        window_in_calendar (dt_date origin) days (dt_date t1) ->
        window_in_calendar (dt_date origin) days (dt_date t2) ->
        exists l1 l2 : string,
          get_date_range_folder t1 origin days = Ret l1
          /\ get_date_range_folder t2 origin days = Ret l2
          /\ (l1 = l2
              <-> same_window (dt_date origin) days (dt_date t1) (dt_date t2)))
  /\ (forall t : datetime,
        ~ window_in_calendar (dt_date origin) days (dt_date t) ->
        get_date_range_folder t origin days = Raise OverflowError).
Proof.
  intros Vo Hd.
  assert (Hmeet : forall (i : Z) (s e s' e' : date),
            bucket_bounds (dt_date origin) days i = Ret (s, e) ->
            bucket_bounds (dt_date origin) days (i + 1) = Ret (s', e') ->
            date_add e 1 = Ret s'
            /\ toordinal e + 1 = toordinal s'
            /\ toordinal e = toordinal s + (days - 1)).
  { intros i s e s' e' H1 H2.
    apply (bucket_bounds_inv _ _ Vo Hd) in H1 as (Hs1 & He1 & -> & ->).
    apply (bucket_bounds_inv _ _ Vo Hd) in H2 as (Hs2 & He2 & -> & _).
    destruct (toordinal_fromordinal
                (toordinal (dt_date origin) + i * days + (days - 1)))
      as [Ee _]; [lia|].
    destruct (toordinal_fromordinal (toordinal (dt_date origin) + i * days))
      as [Es _]; [lia|].
    destruct (toordinal_fromordinal
                (toordinal (dt_date origin) + (i + 1) * days))
      as [Es' _]; [lia|].
    rewrite Ee, Es, Es'. split; [|lia].
    unfold date_add. rewrite Ee.
    replace (toordinal (dt_date origin) + i * days + (days - 1) + 1)
      with (toordinal (dt_date origin) + (i + 1) * days) by lia.
    replace ((0 <? toordinal (dt_date origin) + (i + 1) * days)
             && (toordinal (dt_date origin) + (i + 1) * days <=? _MAXORDINAL))
      with true; [reflexivity|].
    symmetry. apply andb_true_intro.
    split; [apply Z.ltb_lt|apply Z.leb_le]; lia. }
  split; [|split; [exact Hmeet|split; [|split]]].
  - intros i Hs He.
    pose proof (bucket_bounds_Ret _ _ Vo Hd i Hs ltac:(lia)) as B1.
    pose proof (bucket_bounds_Ret _ _ Vo Hd (i + 1) ltac:(lia) ltac:(lia)) as B2.
    eexists _, _, _, _. split; [exact B1|]. split; [exact B2|].
    exact (Hmeet _ _ _ _ _ B1 B2).
  - intros t1 t2 H. apply (same_window_index _ _ _ _ Hd) in H.
    rewrite !get_date_range_folder_bounds by lia. rewrite H. reflexivity.
  - intros t1 t2 H1 H2.
    apply (window_in_calendar_index _ _ _ Hd) in H1 as [Hs1 He1].
    apply (window_in_calendar_index _ _ _ Hd) in H2 as [Hs2 He2].
    rewrite !get_date_range_folder_bounds by lia.
    set (i1 := (toordinal (dt_date t1) - toordinal (dt_date origin)) / days) in *.
    set (i2 := (toordinal (dt_date t2) - toordinal (dt_date origin)) / days) in *.
    rewrite (bucket_bounds_Ret _ _ Vo Hd i1 Hs1 He1).
    rewrite (bucket_bounds_Ret _ _ Vo Hd i2 Hs2 He2).
    cbn [obind]. eexists _, _. split; [reflexivity|]. split; [reflexivity|].
    rewrite (same_window_index _ _ _ _ Hd). fold i1 i2. split.
    + intros E.
      destruct (toordinal_fromordinal (toordinal (dt_date origin) + i1 * days))
        as [E1 V1]; [lia|].
      destruct (toordinal_fromordinal (toordinal (dt_date origin) + i2 * days))
        as [E2 V2]; [lia|].
      apply (bucket_label_inj _ _ _ _ V1 V2) in E.
      rewrite E in E1. rewrite E1 in E2.
      assert (i1 * days = i2 * days) as E' by lia.
      apply Z.mul_cancel_r in E'; lia.
    + intros ->. reflexivity.
  - intros t H. rewrite get_date_range_folder_bounds by lia.
    rewrite bucket_bounds_Raise; [reflexivity|assumption..|].
    rewrite (window_in_calendar_index _ _ _ Hd) in H.
    lia.
Qed.

Lemma buckets_tile_witness :
  exists l1 l2 : string,
    get_date_range_folder (mkdatetime (mkdate 2025 5 13) 9 30 0) ORIGIN_DATE 10
    = Ret l1
    /\ get_date_range_folder (mkdatetime (mkdate 2025 5 21) 0 0 0) ORIGIN_DATE 10
       = Ret l2
    /\ (l1 = l2
        <-> same_window (dt_date ORIGIN_DATE) 10 (mkdate 2025 5 13)
              (mkdate 2025 5 21)).
Proof.
  apply (proj1 (proj2 (proj2 (proj2
           (buckets_tile ORIGIN_DATE 10 eq_refl eq_refl))))
           (mkdatetime (mkdate 2025 5 13) 9 30 0)
           (mkdatetime (mkdate 2025 5 21) 0 0 0)).
  - exists 1. vm_compute. repeat split; discriminate.
  - exists 2. vm_compute. repeat split; discriminate.
Defined.

(** C7 as stated fails at the end of the calendar: the last two days of
    the year 9999 are in one window of ten days from 2025-05-01, the one
    that starts on 9999-12-24, and neither gets a label. *)
Lemma same_window_without_label :
  0 < 10
  /\ same_window (dt_date ORIGIN_DATE) 10 (mkdate 9999 12 30) (mkdate 9999 12 31)
  /\ get_date_range_folder (mkdatetime (mkdate 9999 12 30) 0 0 0) ORIGIN_DATE 10
     = Raise OverflowError
  /\ get_date_range_folder (mkdatetime (mkdate 9999 12 31) 0 0 0) ORIGIN_DATE 10
     = Raise OverflowError.
Proof.
  split; [reflexivity|]. split; [|split; vm_compute; reflexivity].
  exists 291268. vm_compute. repeat split; discriminate.
Qed.

(** ** Eligibility *)

Lemma endswith_spec (s e : string) :
  endswith s e = true <-> exists p, s = p +:+ e.
Proof.
  induction s as [|c s IH]; cbn [endswith].
  - rewrite orb_false_r, String.eqb_eq. split.
    + intros <-. exists "". reflexivity.
    + intros ([|c p] & H); [exact H|]. rewrite app_cons_s in H. discriminate.
  - rewrite orb_true_iff, String.eqb_eq, IH. split.
    + intros [<-|(p & ->)]; [exists ""; reflexivity|].
      exists (String c p). reflexivity.
    + intros ([|c' p] & H); [left; exact H|].
      rewrite app_cons_s in H. injection H as -> ->.
      right. exists p. reflexivity.
Qed.

Lemma existsb_elements (f : string -> bool) (exts : gset string) :
  existsb f (elements exts) = true <-> exists e, e ∈ exts /\ f e = true.
Proof.
  rewrite existsb_exists. split; intros (e & H1 & H2); exists e; split;
    try assumption.
  - apply elem_of_elements, list_elem_of_In. assumption.
  - apply list_elem_of_In, elem_of_elements. assumption.
Qed.

(** C9.  In the sweep and in the watch loop a name is eligible exactly
    when its lower-case form ends with one of the extension strings; no
    dot is required, so [xpng] passes for the extension [png].  The sweep
    leaves a name that is not eligible alone and takes an eligible one
    to the check of the root and then to the classification; the watch
    loop leaves a path that is not eligible alone and hands an eligible
    one to the classification.  So the sweep of a directory with the
    files [xpng] and [shot.gif] for the extension [png] moves [xpng] to
    its folder and leaves [shot.gif], and so does the watch loop at
    their creation. *)
Theorem eligibility_is_suffix_match :
  (forall (exts : gset string) (f : string),
     sweep_eligible f exts = true
     <-> exists e, e ∈ exts /\ exists p, lower f = p +:+ e)
  /\ (forall (exts : gset string) (src_path : string),
        watch_eligible src_path exts = true
        <-> exists e, e ∈ exts /\ exists p, lower src_path = p +:+ e)
  /\ sweep_eligible "xpng" {["png"]} = true
  /\ watch_eligible "/w/xpng" {["png"]} = true
  /\ sweep_eligible "SHOT.PNG" {["png"]} = true
  /\ sweep_eligible "shot.gif" {["png"]} = false
  /\ (forall (root f dst_root source : string) (origin : datetime) (days : Z)
             (exts : gset string) (w : world),
        (sweep_eligible f exts = false ->
         sweep_file root f dst_root source origin days exts w = (Ret tt, w))
        /\ (sweep_eligible f exts = true ->
            sweep_file root f dst_root source origin days exts w
            = match posixpath.commonpath (posixpath.join root f) dst_root with
              | Raise e => (Raise e, w)
              | Ret common =>
                  if String.eqb common dst_root then (Ret tt, w)
                  else sort_file (posixpath.join root f) dst_root source
                         origin days w
              end))
  /\ (forall (self : ScreenshotHandler) (p : string) (w : world),
        (watch_eligible p (h_exts self) = false ->
         on_created self (mkevent false p) w = (Ret tt, w))
        /\ (watch_eligible p (h_exts self) = true ->
            on_created self (mkevent false p) w
            = sort_file p (h_dst self) (h_source self) (h_origin self)
                (h_days self) w))
  /\ (exists w' : world,
        process_existing 3 "/w" "/out" "mtime" ORIGIN_DATE 10 {["png"]}
          Examples.mixed_names = Some (Ret tt, w')
        /\ fs w' !! ["w"; "xpng"] = None
        /\ fs w' !! ["out"; Examples.bucket_0513; "xpng"]
           = Some (File (mkstat Examples.t_0513 Examples.t_now) "X" NoGetexif)
        /\ fs w' !! ["w"; "shot.gif"]
           = Some (Examples.png Examples.t_0513 "G"))
  /\ (exists w' : world,
        on_created (mkhandler "/out" "mtime" ORIGIN_DATE 10 {["png"]})
          (mkevent false "/w/xpng") Examples.mixed_names = (Ret tt, w')
        /\ fs w' !! ["w"; "xpng"] = None
        /\ fs w' !! ["out"; Examples.bucket_0513; "xpng"]
           = Some (File (mkstat Examples.t_0513 Examples.t_now) "X" NoGetexif))
  /\ on_created (mkhandler "/out" "mtime" ORIGIN_DATE 10 {["png"]})
       (mkevent false "/w/shot.gif") Examples.mixed_names
     = (Ret tt, Examples.mixed_names).
Proof.
  assert (S : forall exts f, sweep_eligible f exts = true
     <-> exists e, e ∈ exts /\ exists p, lower f = p +:+ e).
  { intros exts f. unfold sweep_eligible. rewrite existsb_elements.
    split; intros (e & H1 & H2); exists e; split; try assumption;
      apply endswith_spec; assumption. }
  assert (W : forall exts f, watch_eligible f exts = true
     <-> exists e, e ∈ exts /\ exists p, lower f = p +:+ e).
  { intros exts f. unfold watch_eligible. rewrite existsb_elements.
    split; intros (e & H1 & H2); exists e; split; try assumption;
      apply endswith_spec; assumption. }
  split; [exact S|]. split; [exact W|].
  split; [apply (proj2 (S {["png"]} "xpng")); exists "png";
          split; [set_solver|exists "x"; reflexivity]|].
  split; [apply (proj2 (W {["png"]} "/w/xpng")); exists "png";
          split; [set_solver|exists "/w/x"; reflexivity]|].
  split; [apply (proj2 (S {["png"]} "SHOT.PNG")); exists "png";
          split; [set_solver|exists "shot."; reflexivity]|].
  split; [vm_compute; reflexivity|].
  split.
  { intros root f dst_root source origin days exts w.
    unfold sweep_file. split; intros ->; [reflexivity|].
    unfold bind, lift, ret.
    destruct (posixpath.commonpath _ _) as [common|e]; [|reflexivity].
    destruct (String.eqb common dst_root); reflexivity. }
  split.
  { intros self p w. unfold on_created. cbn [is_directory src_path].
    split; intros ->; reflexivity. }
  split.
  { destruct (process_existing 3 "/w" "/out" "mtime" ORIGIN_DATE 10 {["png"]}
                Examples.mixed_names) as [[[[]|e] w']|] eqn:E;
      [|vm_compute in E; discriminate..].
    exists w'. split; [reflexivity|].
    vm_compute in E. injection E as <-. repeat split; vm_compute; reflexivity. }
  split.
  { destruct (on_created (mkhandler "/out" "mtime" ORIGIN_DATE 10 {["png"]})
                (mkevent false "/w/xpng") Examples.mixed_names)
      as [[[]|e] w'] eqn:E; [|vm_compute in E; discriminate].
    exists w'. split; [reflexivity|].
    vm_compute in E. injection E as <-. repeat split; vm_compute; reflexivity. }
  vm_compute. reflexivity.
Qed.

(** ** The timestamp of a file *)

Section Timestamps.

Lemma _exif_loop_no_tag (items : list (Z * exif_value)) :
  no_datetime_tag items -> _exif_loop items = Ret None.
Proof.
  induction 1 as [|[tag val] items H _ IH]; [reflexivity|].
  cbn in *. rewrite H. exact IH.
Qed.

Lemma _exif_loop_first_tag (before after : list (Z * exif_value))
    (tag : Z) (val : exif_value) :
  no_datetime_tag before -> is_datetime_tag tag = true ->
  _exif_loop (before ++ (tag, val) :: after)
  = obind (strptime_exif val) (fun dt => Ret (Some dt)).
Proof.
  intros Hb Ht. induction Hb as [|[tag' val'] items H _ IH].
  - cbn. rewrite Ht. reflexivity.
  - cbn in *. rewrite H. exact IH.
Qed.

(** Whatever the file, [get_exif_datetime] returns, and it changes
    nothing but the record of the calls of [Image.open]. *)
Lemma get_exif_datetime_total (path : string) (w : world) :
  exists o opens,
    get_exif_datetime path w
    = (Ret o, mkworld (fs w) (cwd w) (EXIF_AVAILABLE w) (now w) (stdout w) opens).
Proof.
  unfold get_exif_datetime.
  destruct (EXIF_AVAILABLE w) eqn:E; cbn [negb].
  - unfold try_except, bind, Image_open, lift, ret. rewrite E.
    destruct (node_at w path) as [[st data [| |d]|st wr]|]; cbn; eauto.
    destruct (_exif_loop (default [] d)); eauto.
  - exists None, (image_opens w). destruct w; cbn in *. rewrite E. reflexivity.
Qed.

Lemma get_exif_datetime_None (path : string) (w : world) :
  no_readable_tag w path -> fst (get_exif_datetime path w) = Ret None.
Proof.
  unfold get_exif_datetime.
  intros [H|H]; [rewrite H; reflexivity|].
  destruct (EXIF_AVAILABLE w); cbn [negb]; [|reflexivity].
  unfold try_except, bind, Image_open, lift, ret.
  destruct H as [H|[(st & data & H)|[(st & data & items & H & Hn)
                   |(st & data & before & tag & val & after & e & H & Hb & Ht & Hv)]]].
  - destruct (node_at w path) as [[st data [| |d]|st wr]|]; cbn; try reflexivity.
    exfalso. exact (H st data d eq_refl).
  - rewrite H. reflexivity.
  - rewrite H. cbn. rewrite _exif_loop_no_tag by assumption. reflexivity.
  - rewrite H. cbn. rewrite _exif_loop_first_tag by assumption.
    rewrite Hv. reflexivity.
Qed.

Lemma pick_timestamp_mtime (path : string) (w : world) :
  pick_timestamp path "mtime" w
  = match node_at w path with
    | Some n => (fromtimestamp (st_mtime (node_stat n)), w)
    | None => (Raise FileNotFoundError, w)
    end.
Proof.
  unfold pick_timestamp, bind, os_stat, lift, ret. cbn.
  destruct (node_at w path); reflexivity.
Qed.

Lemma pick_timestamp_exif_None (path : string) (w w' : world) :
  get_exif_datetime path w = (Ret None, w') ->
  pick_timestamp path "exif" w
  = match node_at w' path with
    | Some n => (fromtimestamp (st_mtime (node_stat n)), w')
    | None => (Raise FileNotFoundError, w')
    end.
Proof.
  intros H. unfold pick_timestamp, bind. cbn. rewrite H.
  unfold os_stat, lift. destruct (node_at w' path); reflexivity.
Qed.

Lemma pick_timestamp_fallback (path : string) (w : world) :
  fst (get_exif_datetime path w) = Ret None ->
  fst (pick_timestamp path "exif" w) = fst (pick_timestamp path "mtime" w)
  /\ fs (snd (pick_timestamp path "exif" w)) = fs w.
Proof.
  intros H. destruct (get_exif_datetime_total path w) as (o & opens & E).
  rewrite E in H. cbn in H. injection H as ->.
  rewrite (pick_timestamp_exif_None _ _ _ E), pick_timestamp_mtime.
  change (node_at (mkworld (fs w) (cwd w) (EXIF_AVAILABLE w) (now w)
                     (stdout w) opens) path) with (node_at w path).
  destruct (node_at w path); split; reflexivity.
Qed.

(** The timestamps that are instants of [datetime]: from 0001-01-02
    00:00:00 to 9999-12-31 23:59:59. *)
Lemma fromtimestamp_Ret (ts : Z) :
  -62135510400 <= ts <= 253402300799 ->
  exists t : datetime,
    fromtimestamp ts = Ret t
    /\ valid_date (dt_date t) = true
    /\ toordinal (dt_date t) = 719163 + ts / 86400
    /\ 0 <= hour t <= 23 /\ 0 <= minute t <= 59 /\ 0 <= second t <= 59
    /\ 3600 * hour t + 60 * minute t + second t = ts mod 86400.
Proof.
  intros H. unfold fromtimestamp.
  replace ((ts <? - 2 ^ 63) || (2 ^ 63 <? ts)) with false
    by (symmetry; apply orb_false_iff; split; apply Z.ltb_ge; lia).
  replace ((ts <? -67768040609740800) || (67768036191676799 <? ts)) with false
    by (symmetry; apply orb_false_iff; split; apply Z.ltb_ge; lia).
  assert (Ho : 2 <= 719163 + ts / 86400 <= _MAXORDINAL)
    by (unfold _MAXORDINAL; Z.to_euclidean_division_equations; lia).
  replace ((1 <? 719163 + ts / 86400) && (719163 + ts / 86400 <=? _MAXORDINAL))
    with true
    by (symmetry; apply andb_true_intro;
        split; [apply Z.ltb_lt|apply Z.leb_le]; lia).
  destruct (toordinal_fromordinal (719163 + ts / 86400)) as [E V]; [lia|].
  eexists. split; [reflexivity|]. cbn [dt_date hour minute second].
  split; [exact V|]. split; [exact E|].
  Z.to_euclidean_division_equations; lia.
Qed.

Lemma fromtimestamp_Raise (ts : Z) :
  ts < -62135510400 \/ 253402300799 < ts ->
  exists e : exn,
    fromtimestamp ts = Raise e
    /\ (e = ValueError \/ e = OSError \/ e = OverflowError).
Proof.
  intros H. unfold fromtimestamp.
  destruct ((ts <? - 2 ^ 63) || (2 ^ 63 <? ts)); [eauto|].
  destruct ((ts <? -67768040609740800) || (67768036191676799 <? ts)); [eauto|].
  replace ((1 <? 719163 + ts / 86400) && (719163 + ts / 86400 <=? _MAXORDINAL))
    with false; [eauto|].
  symmetry. apply andb_false_iff. unfold _MAXORDINAL.
  destruct H as [H|H]; [left; apply Z.ltb_ge|right; apply Z.leb_gt];
    Z.to_euclidean_division_equations; lia.
Qed.

End Timestamps.

(** C5 (amended).  When the capture time is asked for and the file has no
    readable capture tag, whatever the reason, the resolution gives what
    the resolution by modification time gives, exception or instant, and
    the file system is as before.  For a file whose status can be read
    and whose modification time is an instant of [datetime] (from
    0001-01-02 00:00:00 to 9999-12-31 23:59:59) both return that instant:
    the day and the second of the day of the timestamp.  For another
    modification time both raise. *)
Theorem pick_timestamp_exif_fallback (w : world) (path : string) :
  no_readable_tag w path ->
  fst (pick_timestamp path "exif" w) = fst (pick_timestamp path "mtime" w)
  /\ fs (snd (pick_timestamp path "exif" w)) = fs w
  /\ (forall n : node,
        node_at w path = Some n ->
        let ts := st_mtime (node_stat n) in
        (-62135510400 <= ts <= 253402300799 ->
         exists t : datetime,
           fst (pick_timestamp path "exif" w) = Ret t
           /\ fst (pick_timestamp path "mtime" w) = Ret t
           /\ valid_date (dt_date t) = true
           /\ toordinal (dt_date t) = 719163 + ts / 86400
           /\ 0 <= hour t <= 23 /\ 0 <= minute t <= 59 /\ 0 <= second t <= 59
           /\ 3600 * hour t + 60 * minute t + second t = ts mod 86400)
        /\ (ts < -62135510400 \/ 253402300799 < ts ->
            exists e : exn,
              fst (pick_timestamp path "exif" w) = Raise e
              /\ fst (pick_timestamp path "mtime" w) = Raise e
              /\ (e = ValueError \/ e = OSError \/ e = OverflowError))).
Proof.
  intros H. apply get_exif_datetime_None in H.
  destruct (pick_timestamp_fallback path w H) as [E1 E2].
  split; [exact E1|]. split; [exact E2|].
  intros n Hn ts. rewrite E1, pick_timestamp_mtime, Hn. cbn [fst]. split.
  - intros Hts. destruct (fromtimestamp_Ret ts Hts) as (t & Et & Ht).
    exists t. fold ts. rewrite Et. auto.
  - intros Hts. destruct (fromtimestamp_Raise ts Hts) as (e & Ee & He).
    exists e. fold ts. rewrite Ee. auto.
Qed.

Lemma pick_timestamp_exif_fallback_witness :
  exists t : datetime,
    fst (pick_timestamp "/w/a.jpg" "exif" Examples.bad_tag) = Ret t
    /\ fst (pick_timestamp "/w/a.jpg" "mtime" Examples.bad_tag) = Ret t
    /\ valid_date (dt_date t) = true
    /\ toordinal (dt_date t) = 719163 + Examples.t_0513 / 86400
    /\ 0 <= hour t <= 23 /\ 0 <= minute t <= 59 /\ 0 <= second t <= 59
    /\ 3600 * hour t + 60 * minute t + second t = Examples.t_0513 mod 86400.
Proof.
  assert (H : no_readable_tag Examples.bad_tag "/w/a.jpg").
  { right. right. right. right.
    exists (mkstat Examples.t_0513 Examples.t_0425), "A",
      [(271, ExifStr "Camera")], 306, (ExifStr "yesterday"),
      [(36867, ExifStr "2025:04:25 10:00:00")], ValueError.
    split; [vm_compute; reflexivity|].
    split; [repeat constructor|]. split; reflexivity. }
  apply (proj1 (proj2 (proj2 (pick_timestamp_exif_fallback Examples.bad_tag
                                "/w/a.jpg" H))
                  (File (mkstat Examples.t_0513 Examples.t_0425) "A"
                     (Exif (Some [(271, ExifStr "Camera");
                                  (306, ExifStr "yesterday");
                                  (36867, ExifStr "2025:04:25 10:00:00")])))
                  eq_refl)).
  vm_compute. split; discriminate.
Defined.

(** C5 as stated fails: a file whose status can be read, without a
    capture tag, and whose modification time is the first second of the
    year 10000; the resolution raises [ValueError]. *)
Lemma pick_timestamp_exif_raises :
  no_readable_tag Examples.far_future "/w/a.png"
  /\ node_at Examples.far_future "/w/a.png"
     = Some (Examples.png 253402300800 "A")
  /\ pick_timestamp "/w/a.png" "exif" Examples.far_future
     = (Raise ValueError,
        mkworld (fs Examples.far_future) [] true Examples.t_now []
          ["/w/a.png"]).
Proof.
  split; [|split; reflexivity].
  right. left. intros st data d H. discriminate H.
Qed.

(** ** What a computation may change *)

Section Frames.

Lemma with_stdout_id (w : world) : with_stdout (stdout w) w = w.
Proof. destruct w; reflexivity. Qed.

Lemma fs_only_frame {A} (c : M A) : fs_only c -> frame c.
Proof.
  intros H w. destruct (H w) as (o & f & E). exists o, f, [].
  split; [constructor|exact E].
Qed.

Lemma frame_at {A} (c : M A) (w : world) :
  frame c ->
  exists o f lines,
    Forall (fun line => line <> PILLOW_WARNING) lines
    /\ c w = (o, mkworld f (cwd w) (EXIF_AVAILABLE w) (now w)
                   (lines ++ stdout w)%list (image_opens w)).
Proof.
  intros H. destruct (H w) as (o & f & lines & Hl & E).
  exists o, f, lines. split; [exact Hl|].
  rewrite <- (E (stdout w)), with_stdout_id. reflexivity.
Qed.

Lemma frame_ret {A} (a : A) : frame (ret a).
Proof. intros w. exists (Ret a), (fs w), []. split; [constructor|reflexivity]. Qed.

Lemma frame_raise {A} (e : exn) : frame (@raise A e).
Proof.
  intros w. exists (Raise e), (fs w), []. split; [constructor|reflexivity].
Qed.

Lemma frame_lift {A} (o : outcome A) : frame (lift o).
Proof. intros w. exists o, (fs w), []. split; [constructor|reflexivity]. Qed.

Lemma frame_print (line : string) :
  line <> PILLOW_WARNING -> frame (print line).
Proof.
  intros Hl w. unfold print. destruct (utf8 line).
  - exists (Ret tt), (fs w), [line]. split; [repeat constructor; exact Hl|].
    reflexivity.
  - exists (Raise UnicodeEncodeError), (fs w), [].
    split; [constructor|reflexivity].
Qed.

Lemma print_Ret (line : string) (w : world) :
  utf8 line = true ->
  print line w
  = (Ret tt, mkworld (fs w) (cwd w) (EXIF_AVAILABLE w) (now w) (line :: stdout w)
               (image_opens w)).
Proof. intros H. unfold print. rewrite H. reflexivity. Qed.

Lemma print_Raise (line : string) (w : world) :
  utf8 line = false -> print line w = (Raise UnicodeEncodeError, w).
Proof. intros H. unfold print. rewrite H. reflexivity. Qed.

Lemma frame_bind {A B} (c : M A) (k : A -> M B) :
  frame c -> (forall a, frame (k a)) -> frame (bind c k).
Proof.
  intros Hc Hk w. destruct (Hc w) as (o & f & lines & Hl & E).
  destruct o as [a|e].
  - destruct (Hk a (mkworld f (cwd w) (EXIF_AVAILABLE w) (now w) []
                      (image_opens w))) as (o' & f' & lines' & Hl' & E').
    exists o', f', (lines' ++ lines)%list.
    split; [apply Forall_app; split; assumption|]. intros s.
    unfold bind. rewrite E. rewrite <- app_assoc.
    exact (E' (lines ++ s)%list).
  - exists (Raise e), f, lines. split; [exact Hl|].
    intros s. unfold bind. rewrite E. reflexivity.
Qed.

Ltac fs_only_cases :=
  intros w; cbv beta delta [with_stdout node_at]; cbn [fs cwd now];
  repeat case_match; subst;
  try (eexists _, _; intros s; reflexivity).

Lemma fs_only_os_stat (p : string) : fs_only (os_stat p).
Proof. unfold os_stat. fs_only_cases. Qed.

Lemma fs_only_os_mkdir (k : list string) : fs_only (os_mkdir k).
Proof. unfold os_mkdir, with_fs. fs_only_cases. Qed.

Lemma fs_only__makedirs (rest k : list string) : fs_only (_makedirs k rest).
Proof.
  revert k. induction rest as [|c rest IH]; intros k w.
  - exists (Ret tt), (fs w). reflexivity.
  - cbn [_makedirs]. cbv beta delta [with_stdout]. cbn [fs].
    destruct (fs w !! (k ++ [c])%list) as [[st data img|st wr]|] eqn:E.
    + destruct rest; [eexists _, _; intros s; reflexivity|].
      apply (IH (k ++ [c])%list).
    + apply (IH (k ++ [c])%list).
    + destruct (fs_only_os_mkdir (k ++ [c])%list w) as (o & f & Em).
      destruct o as [[]|e].
      * destruct (IH (k ++ [c])%list
                    (mkworld f (cwd w) (EXIF_AVAILABLE w) (now w) []
                       (image_opens w))) as (o' & f' & E').
        exists o', f'. intros s.
        change (mkworld (fs w) (cwd w) (EXIF_AVAILABLE w) (now w) s
                  (image_opens w)) with (with_stdout s w).
        rewrite Em. exact (E' s).
      * exists (Raise e), f. intros s.
        change (mkworld (fs w) (cwd w) (EXIF_AVAILABLE w) (now w) s
                  (image_opens w)) with (with_stdout s w).
        rewrite Em. reflexivity.
Qed.

Lemma fs_only_os_makedirs (name : string) : fs_only (os_makedirs name).
Proof.
  intros w. unfold os_makedirs. destruct (String.eqb name "").
  - exists (Raise FileNotFoundError), (fs w). reflexivity.
  - exact (fs_only__makedirs (resolve (cwd w) name) [] w).
Qed.

Lemma fs_only_ensure_unique (dst : string) : fs_only (ensure_unique dst).
Proof.
  intros w. unfold ensure_unique. destruct (posixpath.splitext dst) as [base ext].
  cbv beta delta [with_stdout]. cbn [fs].
  assert (H : forall s fuel i cur,
    _ensure_unique_loop fuel
      (mkworld (fs w) (cwd w) (EXIF_AVAILABLE w) (now w) s (image_opens w))
      base ext i cur
    = _ensure_unique_loop fuel w base ext i cur).
  { intros s fuel. induction fuel as [|fuel IH]; intros i cur; cbn;
      unfold path_exists, node_at; cbn [fs cwd]; [reflexivity|].
    rewrite IH. reflexivity. }
  destruct (_ensure_unique_loop (S (size (fs w))) w base ext 1 dst) eqn:E;
    eexists _, _; intros s'; rewrite H, E; reflexivity.
Qed.

Lemma fs_only_os_rename (src dst : string) : fs_only (os_rename src dst).
Proof. unfold os_rename, with_fs. fs_only_cases. Qed.

Lemma fs_only_os_unlink (p : string) : fs_only (os_unlink p).
Proof. unfold os_unlink, with_fs. fs_only_cases. Qed.

Lemma fs_only_shutil_copy2 (src dst : string) : fs_only (shutil_copy2 src dst).
Proof. unfold shutil_copy2, with_fs. fs_only_cases. Qed.

Lemma fs_only_os_scandir (top : string) : fs_only (os_scandir top).
Proof. unfold os_scandir. fs_only_cases. Qed.

Lemma fs_only_arrive (watch_dir : string) (a : arrival) :
  fs_only (arrive watch_dir a).
Proof. unfold arrive, with_fs. fs_only_cases. Qed.

Lemma fs_only_observer_start (watch_dir : string) :
  fs_only (observer_start watch_dir).
Proof. unfold observer_start. fs_only_cases. Qed.

Lemma fs_only_os_path_exists (p : string) : fs_only (os_path_exists p).
Proof. intros w. exists (Ret (path_exists w p)), (fs w). reflexivity. Qed.

Lemma fs_only_os_path_isdir (p : string) : fs_only (os_path_isdir p).
Proof. intros w. exists (Ret (path_isdir w p)), (fs w). reflexivity. Qed.

Lemma frame_try_except_OSError {A} (c : M A) (handler : exn -> M A) :
  frame c -> (forall e, frame (handler e)) ->
  frame (try_except_OSError c handler).
Proof.
  intros Hc Hk w. destruct (Hc w) as (o & f & lines & Hl & E).
  destruct o as [a|e]; [|destruct (is_OSError e) eqn:Eo].
  - exists (Ret a), f, lines. split; [exact Hl|].
    intros s. unfold try_except_OSError. rewrite E. reflexivity.
  - destruct (Hk e (mkworld f (cwd w) (EXIF_AVAILABLE w) (now w) []
                      (image_opens w))) as (o' & f' & lines' & Hl' & E').
    exists o', f', (lines' ++ lines)%list.
    split; [apply Forall_app; split; assumption|]. intros s.
    unfold try_except_OSError. rewrite E, Eo. rewrite <- app_assoc.
    exact (E' (lines ++ s)%list).
  - exists (Raise e), f, lines. split; [exact Hl|].
    intros s. unfold try_except_OSError. rewrite E, Eo. reflexivity.
Qed.

End Frames.

Create HintDb frames discriminated.

#[export] Hint Resolve frame_ret frame_raise frame_lift : frames.
#[export] Hint Resolve fs_only_os_stat fs_only_os_makedirs fs_only_ensure_unique
  fs_only_os_rename fs_only_os_unlink fs_only_shutil_copy2 fs_only_os_scandir
  fs_only_arrive fs_only_os_path_exists fs_only_os_path_isdir
  fs_only_observer_start : frames.

(** Frames of compound computations, from the frames of their parts. *)
(** A line that starts otherwise than the warning. *)
Ltac other_line :=
  let E := fresh in
  intros E; unfold PILLOW_WARNING in E; rewrite ?app_cons_s in E;
  discriminate E.

Ltac frame_step :=
  match goal with
  | |- frame (bind _ _) => apply frame_bind; [|intros ?]
  | |- frame (print _) => apply frame_print; other_line
  | |- frame (try_except_OSError _ _) =>
      apply frame_try_except_OSError; [|intros ?]
  | |- frame (if ?b then _ else _) => destruct b
  | |- frame (match ?o with Some _ => _ | None => _ end) => destruct o
  | |- frame time_sleep => apply frame_ret
  | |- frame _ => solve [auto with frames]
  | |- frame _ => apply fs_only_frame; solve [auto with frames]
  end.

Ltac frames := repeat frame_step.

Section Frames_shixian.

Lemma frame_shutil_move (src dst : string) : frame (shutil_move src dst).
Proof. unfold shutil_move. frames. Qed.

Lemma frame_pick_timestamp (path source : string) :
  String.eqb source "exif" = false -> frame (pick_timestamp path source).
Proof. intros H. unfold pick_timestamp. rewrite H. frames. Qed.

Lemma frame_sort_file (path dst_root source : string) (origin : datetime)
    (days : Z) :
  String.eqb source "exif" = false ->
  frame (sort_file path dst_root source origin days).
Proof.
  intros H. unfold sort_file. frames;
    auto using frame_pick_timestamp, frame_shutil_move.
Qed.

Lemma frame_sweep_file (root f dst_root source : string) (origin : datetime)
    (days : Z) (exts : gset string) :
  String.eqb source "exif" = false ->
  frame (sweep_file root f dst_root source origin days exts).
Proof. intros H. unfold sweep_file. frames; auto using frame_sort_file. Qed.

Lemma frame_sweep_files (root : string) (files : list string)
    (dst_root source : string) (origin : datetime) (days : Z)
    (exts : gset string) :
  String.eqb source "exif" = false ->
  frame (sweep_files root files dst_root source origin days exts).
Proof.
  intros H. induction files as [|f files IH]; cbn [sweep_files]; frames;
    auto using frame_sweep_file.
Qed.

Lemma frame_on_created (self : ScreenshotHandler) (event : FileSystemEvent) :
  String.eqb (h_source self) "exif" = false ->
  frame (on_created self event).
Proof. intros H. unfold on_created. frames; auto using frame_sort_file. Qed.

Lemma frame_observer_run (self : ScreenshotHandler) (watch_dir : string)
    (arrivals : list arrival) :
  String.eqb (h_source self) "exif" = false ->
  frame (observer_run self watch_dir arrivals).
Proof.
  intros H. induction arrivals as [|a rest IH]; cbn [observer_run]; frames;
    auto using frame_on_created.
Qed.

End Frames_shixian.

(** ** The run without Pillow *)

Section Degraded.

Lemma frame_opt_bind {A} (c : M A)
    (k : outcome A -> world -> option (outcome unit * world)) :
  frame c -> (forall o, frame_opt (k o)) ->
  frame_opt (fun w => let '(o, w') := c w in k o w').
Proof.
  intros Hc Hk w. destruct (Hc w) as (o & f & lines & Hl & E).
  destruct (Hk o (mkworld f (cwd w) (EXIF_AVAILABLE w) (now w) []
                    (image_opens w))) as [N|(o' & f' & lines' & Hl' & E')].
  - left. intros s. rewrite E. exact (N (lines ++ s)%list).
  - right. exists o', f', (lines' ++ lines)%list.
    split; [apply Forall_app; split; assumption|]. intros s.
    rewrite E, <- app_assoc. exact (E' (lines ++ s)%list).
Qed.

Lemma frame_opt_ext (c c' : world -> option (outcome unit * world)) :
  (forall w, c w = c' w) -> frame_opt c -> frame_opt c'.
Proof.
  intros E H w. destruct (H w) as [N|(o & f & lines & Hl & E')].
  - left. intros s. rewrite <- E. apply N.
  - right. exists o, f, lines. split; [exact Hl|].
    intros s. rewrite <- E. apply E'.
Qed.

Lemma frame_opt_Some (c : M unit) : frame c -> frame_opt (fun w => Some (c w)).
Proof.
  intros Hc w. right. destruct (Hc w) as (o & f & lines & Hl & E).
  exists o, f, lines. split; [exact Hl|]. intros s. rewrite E. reflexivity.
Qed.

Lemma frame_opt__walk (fuel : nat) (stack : list string)
    (dst_root source : string) (origin : datetime) (days : Z)
    (exts : gset string) :
  String.eqb source "exif" = false ->
  frame_opt (_walk fuel stack dst_root source origin days exts).
Proof.
  intros Hs. revert stack.
  induction fuel as [|fuel IH]; intros [|top stack].
  - apply (frame_opt_Some (ret tt)), frame_ret.
  - intros w. left. reflexivity.
  - apply (frame_opt_Some (ret tt)), frame_ret.
  - cbn [_walk].
    eapply frame_opt_ext;
      [|apply (frame_opt_bind (os_scandir top)
             (fun o =>
                match o with
                | Raise _ => _walk fuel stack dst_root source origin days exts
                | Ret (dirs, files) =>
                    fun w' =>
                      let '(o2, w'') :=
                        sweep_files top files dst_root source origin days exts w' in
                      match o2 with
                      | Raise e => Some (Raise e, w'')
                      | Ret _ =>
                          _walk fuel
                            (map (posixpath.join top) dirs ++ stack)%list
                            dst_root source origin days exts w''
                      end
                end))].
    + intros w. cbv beta. destruct (os_scandir top w) as [[[dirs files]|e] w'];
        reflexivity.
    + apply fs_only_frame, fs_only_os_scandir.
    + intros [[dirs files]|e]; [|apply IH].
      eapply frame_opt_ext;
      [|apply (frame_opt_bind
               (sweep_files top files dst_root source origin days exts)
               (fun o2 =>
                  match o2 with
                  | Raise e => fun w'' => Some (Raise e, w'')
                  | Ret _ =>
                      _walk fuel (map (posixpath.join top) dirs ++ stack)%list
                        dst_root source origin days exts
                  end))].
      * intros w. cbv beta.
        destruct (sweep_files top files dst_root source origin days exts w)
          as [[[]|e] w']; reflexivity.
      * apply frame_sweep_files, Hs.
      * intros [[]|e]; [apply IH|].
        apply (frame_opt_Some (raise e)), frame_raise.
Qed.

Lemma frame_opt_process_existing (fuel : nat)
    (watch_dir dst_root source : string) (origin : datetime) (days : Z)
    (exts : gset string) :
  String.eqb source "exif" = false ->
  frame_opt (process_existing fuel watch_dir dst_root source origin days exts).
Proof.
  intros Hs. unfold process_existing.
  eapply frame_opt_ext;
    [|apply (frame_opt_bind (print "Processing existing files...")
           (fun o w1 =>
              match o with
              | Raise e => Some (Raise e, w1)
              | Ret _ =>
                  match _walk fuel [watch_dir] dst_root source origin days
                          exts w1 with
                  | Some (Ret _, w2) => Some (print "Existing done." w2)
                  | r => r
                  end
              end)); [apply frame_print; other_line|]].
  { intros w. cbv beta.
    destruct (print "Processing existing files..." w) as [[[]|e] w1];
      reflexivity. }
  intros [[]|e] w; [|apply (frame_opt_Some (raise e)), frame_raise].
  destruct (frame_opt__walk fuel [watch_dir] dst_root source origin days exts
              Hs w) as [N|(o & f & lines & Hl & E)].
  - left. intros s. rewrite N. reflexivity.
  - right. destruct o as [[]|e].
    + exists (Ret tt), f, ("Existing done." :: lines).
      split; [constructor; [other_line|exact Hl]|].
      intros s. rewrite E. rewrite (print_Ret "Existing done." _ eq_refl).
      reflexivity.
    + exists (Raise e), f, lines. split; [exact Hl|].
      intros s. rewrite E. reflexivity.
Qed.

Lemma frame_EXIF_AVAILABLE {A} (c : M A) (w : world) :
  frame c -> EXIF_AVAILABLE (snd (c w)) = EXIF_AVAILABLE w.
Proof.
  intros H. destruct (frame_at c w H) as (o & f & lines & _ & E).
  rewrite E. reflexivity.
Qed.

Lemma get_exif_datetime_unavailable (path : string) (w : world) :
  EXIF_AVAILABLE w = false -> get_exif_datetime path w = (Ret None, w).
Proof. intros H. unfold get_exif_datetime. rewrite H. reflexivity. Qed.

Lemma pick_timestamp_degraded (path : string) (w : world) :
  EXIF_AVAILABLE w = false ->
  pick_timestamp path "exif" w = pick_timestamp path "mtime" w.
Proof.
  intros H. unfold pick_timestamp, bind. cbn.
  rewrite (get_exif_datetime_unavailable _ _ H). reflexivity.
Qed.

Lemma sort_file_degraded (path dst_root : string) (origin : datetime)
    (days : Z) (w : world) :
  EXIF_AVAILABLE w = false ->
  sort_file path dst_root "exif" origin days w
  = sort_file path dst_root "mtime" origin days w.
Proof.
  intros H. unfold sort_file. unfold bind at 1 6.
  rewrite (pick_timestamp_degraded _ _ H). reflexivity.
Qed.

Lemma sweep_file_degraded (root f dst_root : string) (origin : datetime)
    (days : Z) (exts : gset string) (w : world) :
  EXIF_AVAILABLE w = false ->
  sweep_file root f dst_root "exif" origin days exts w
  = sweep_file root f dst_root "mtime" origin days exts w.
Proof.
  intros H. unfold sweep_file.
  destruct (sweep_eligible f exts); [|reflexivity].
  unfold bind, lift.
  destruct (posixpath.commonpath (posixpath.join root f) dst_root) as [c|e];
    [|reflexivity].
  destruct (String.eqb c dst_root); [reflexivity|].
  apply sort_file_degraded, H.
Qed.

Lemma sweep_files_degraded (root : string) (files : list string)
    (dst_root : string) (origin : datetime) (days : Z) (exts : gset string)
    (w : world) :
  EXIF_AVAILABLE w = false ->
  sweep_files root files dst_root "exif" origin days exts w
  = sweep_files root files dst_root "mtime" origin days exts w.
Proof.
  revert w. induction files as [|f files IH]; intros w H; [reflexivity|].
  cbn [sweep_files]. unfold bind at 1 2.
  rewrite (sweep_file_degraded _ _ _ _ _ _ _ H).
  pose proof (frame_EXIF_AVAILABLE
                (sweep_file root f dst_root "mtime" origin days exts) w
                (frame_sweep_file root f dst_root "mtime" origin days exts
                   eq_refl)) as HE.
  destruct (sweep_file root f dst_root "mtime" origin days exts w)
    as [[[]|e] w']; [|reflexivity].
  apply IH. cbn in HE. congruence.
Qed.

Lemma _walk_degraded (fuel : nat) (stack : list string) (dst_root : string)
    (origin : datetime) (days : Z) (exts : gset string) (w : world) :
  EXIF_AVAILABLE w = false ->
  _walk fuel stack dst_root "exif" origin days exts w
  = _walk fuel stack dst_root "mtime" origin days exts w.
Proof.
  revert stack w. induction fuel as [|fuel IH]; intros [|top stack] w H;
    try reflexivity.
  cbn [_walk].
  pose proof (frame_EXIF_AVAILABLE (os_scandir top) w
                (fs_only_frame _ (fs_only_os_scandir top))) as HE.
  destruct (os_scandir top w) as [[[dirs files]|e] w']; cbn in HE.
  - rewrite (sweep_files_degraded _ _ _ _ _ _ w') by congruence.
    pose proof (frame_EXIF_AVAILABLE
                  (sweep_files top files dst_root "mtime" origin days exts) w'
                  (frame_sweep_files top files dst_root "mtime" origin days
                     exts eq_refl)) as HE'.
    destruct (sweep_files top files dst_root "mtime" origin days exts w')
      as [[[]|e] w'']; [|reflexivity].
    apply IH. cbn in HE'. congruence.
  - apply IH. congruence.
Qed.

Lemma process_existing_degraded (fuel : nat) (watch_dir dst_root : string)
    (origin : datetime) (days : Z) (exts : gset string) (w : world) :
  EXIF_AVAILABLE w = false ->
  process_existing fuel watch_dir dst_root "exif" origin days exts w
  = process_existing fuel watch_dir dst_root "mtime" origin days exts w.
Proof.
  intros H. unfold process_existing.
  rewrite (print_Ret "Processing existing files..." _ eq_refl).
  rewrite _walk_degraded by exact H. reflexivity.
Qed.

Lemma on_created_degraded (dst : string) (origin : datetime) (days : Z)
    (exts : gset string) (event : FileSystemEvent) (w : world) :
  EXIF_AVAILABLE w = false ->
  on_created (mkhandler dst "exif" origin days exts) event w
  = on_created (mkhandler dst "mtime" origin days exts) event w.
Proof.
  intros H. unfold on_created. cbn.
  destruct (is_directory event); [reflexivity|].
  destruct (watch_eligible (src_path event) exts); [|reflexivity].
  cbn. unfold bind, time_sleep, ret. apply sort_file_degraded, H.
Qed.

Lemma observer_run_degraded (dst : string) (origin : datetime) (days : Z)
    (exts : gset string) (watch_dir : string) (arrivals : list arrival)
    (w : world) :
  EXIF_AVAILABLE w = false ->
  observer_run (mkhandler dst "exif" origin days exts) watch_dir arrivals w
  = observer_run (mkhandler dst "mtime" origin days exts) watch_dir arrivals w.
Proof.
  revert w. induction arrivals as [|a rest IH]; intros w H; [reflexivity|].
  cbn [observer_run]. unfold bind at 1 3.
  pose proof (frame_EXIF_AVAILABLE (arrive watch_dir a) w
                (fs_only_frame _ (fs_only_arrive watch_dir a))) as HE.
  destruct (arrive watch_dir a w) as [[event|e] w']; [|reflexivity].
  cbn in HE. unfold bind at 1 2.
  rewrite on_created_degraded by congruence.
  pose proof (frame_EXIF_AVAILABLE
                (on_created (mkhandler dst "mtime" origin days exts) event) w'
                (frame_on_created (mkhandler dst "mtime" origin days exts)
                   event eq_refl)) as HE'.
  destruct (on_created (mkhandler dst "mtime" origin days exts) event w')
    as [[[]|e] w'']; [|reflexivity].
  apply IH. cbn in HE'. congruence.
Qed.

Lemma watch_degraded (dst : string) (origin : datetime) (days : Z)
    (exts : gset string) (watch_dir line : string) (arrivals : list arrival)
    (w : world) :
  EXIF_AVAILABLE w = false ->
  (observer_start watch_dir ;; print line ;;
   observer_run (mkhandler dst "exif" origin days exts) watch_dir arrivals) w
  = (observer_start watch_dir ;; print line ;;
     observer_run (mkhandler dst "mtime" origin days exts) watch_dir arrivals) w.
Proof.
  intros H. unfold bind at 1 3.
  pose proof (frame_EXIF_AVAILABLE (observer_start watch_dir) w
                (fs_only_frame _ (fs_only_observer_start watch_dir))) as HE.
  destruct (observer_start watch_dir w) as [[[]|e] w']; [|reflexivity].
  cbn in HE. unfold bind, print. destruct (utf8 line); [|reflexivity].
  apply observer_run_degraded. cbn. congruence.
Qed.

Lemma main_run_degraded (args : Namespace) (origin_ : datetime)
    (exts_ : gset string) (fuel : nat) (arrivals : list arrival) (w : world) :
  EXIF_AVAILABLE w = false ->
  main_run (with_source "exif" args) origin_ exts_ fuel arrivals w
  = main_run (with_source "mtime" args) origin_ exts_ fuel arrivals w.
Proof.
  intros H. unfold main_run.
  cbn [with_source source watch_dir dst_dir days process_existing_flag].
  destruct (process_existing_flag args).
  - rewrite process_existing_degraded by exact H.
    destruct (frame_opt_process_existing fuel (watch_dir args) (dst_dir args)
                "mtime" origin_ (days args) exts_ eq_refl w)
      as [N|(o & f & lines & _ & E)].
    + specialize (N (stdout w)). rewrite with_stdout_id in N. rewrite N.
      reflexivity.
    + specialize (E (stdout w)). rewrite with_stdout_id in E. rewrite E.
      destruct o as [[]|e]; [|reflexivity].
      f_equal. apply watch_degraded. exact H.
  - f_equal. apply watch_degraded. exact H.
Qed.

Lemma frame_opt_main_run (args : Namespace) (origin_ : datetime)
    (exts_ : gset string) (fuel : nat) (arrivals : list arrival) :
  String.eqb (source args) "exif" = false ->
  frame_opt (main_run args origin_ exts_ fuel arrivals).
Proof.
  intros Hs.
  assert (Hw : frame (observer_start (watch_dir args) ;;
                      print ("Watching " +:+ watch_dir args
                             +:+ " → sorting into " +:+ dst_dir args
                             +:+ " every " +:+ str_int (days args)
                             +:+ " days from " +:+ isoformat (dt_date origin_)) ;;
                      observer_run
                        (mkhandler (dst_dir args) (source args) origin_
                           (days args) exts_) (watch_dir args) arrivals)).
  { frames. apply frame_observer_run. exact Hs. }
  unfold main_run. destruct (process_existing_flag args).
  - intros w.
    destruct (frame_opt_process_existing fuel (watch_dir args) (dst_dir args)
                (source args) origin_ (days args) exts_ Hs w)
      as [N|(o & f & lines & Hl & E)].
    + left. intros s. rewrite N. reflexivity.
    + right. destruct o as [[]|e].
      * destruct (Hw (mkworld f (cwd w) (EXIF_AVAILABLE w) (now w) []
                        (image_opens w))) as (o' & f' & lines' & Hl' & E').
        exists o', f', (lines' ++ lines)%list.
        split; [apply Forall_app; split; assumption|].
        intros s. rewrite E.
        rewrite <- app_assoc. f_equal. exact (E' (lines ++ s)%list).
      * exists (Raise e), f, lines. split; [exact Hl|].
        intros s. rewrite E. reflexivity.
  - apply (frame_opt_Some _ Hw).
Qed.

(** Without sweep [main] has a result whatever the fuel. *)
Lemma main_Some (args : Namespace) (fuel : nat) (arrivals : list arrival)
    (w : world) :
  process_existing_flag args = false ->
  exists r, main args fuel arrivals w = Some r.
Proof.
  intros H. unfold main.
  destruct (strptime.parse strptime.origin_format (origin args)); [|eauto].
  destruct (os_makedirs (dst_dir args) w) as [[[]|e] w1]; [|eauto].
  destruct ((if String.eqb (source args) "exif" && negb (EXIF_AVAILABLE w1)
             then print PILLOW_WARNING else ret tt) w1) as [[[]|e] w2];
    [|eauto].
  unfold main_run. rewrite H. eauto.
Qed.

End Degraded.



(** ** [ensure_unique] *)

Section Unique.

Variable w : world.
Variables base ext : string.
Hypothesis ext_no_sep : contains posixpath.sep ext = false.

Lemma path_exists_candidate (i : Z) :
  path_exists w (candidate base ext i) = true ->
  resolve (cwd w) (candidate base ext i) ∈ dom (fs w).
Proof.
  unfold path_exists, node_at. rewrite candidate_nonempty.
  intros H. apply elem_of_dom.
  destruct (fs w !! resolve (cwd w) (candidate base ext i)); [eauto|discriminate].
Qed.

(** Among the first [size + 1] candidates one is free: there are more
    candidates than entries in the file system. *)
Lemma free_candidate :
  exists k, 1 <= k <= Z.of_nat (size (fs w)) + 1
            /\ path_exists w (candidate base ext k) = false.
Proof.
  set (n := size (fs w)).
  set (ks := map (fun j => Z.of_nat j) (seq 1 (S n))).
  destruct (Forall_Exists_dec
              (fun k => path_exists w (candidate base ext k) = true)
              (fun k => path_exists w (candidate base ext k) = false)
              (fun k => match path_exists w (candidate base ext k) as b
                              return {b = true} + {b = false} with
                        | true => left eq_refl
                        | false => right eq_refl
                        end) ks) as [Hall|Hex].
  - exfalso.
    set (keys := map (fun k => resolve (cwd w) (candidate base ext k)) ks).
    assert (Hnd : NoDup keys).
    { apply NoDup_fmap_2_strong.
      - intros i j _ _ E. apply (candidate_key_inj _ _ _ _ _ ext_no_sep E).
      - apply NoDup_fmap_2; [intros i j; lia|apply NoDup_seq]. }
    assert (Hsub : list_to_set keys ⊆ dom (fs w)).
    { intros k Hk. apply elem_of_list_to_set in Hk.
      apply list_elem_of_fmap in Hk as (i & -> & Hi).
      apply path_exists_candidate.
      rewrite Forall_forall in Hall. apply Hall, Hi. }
    apply subseteq_size in Hsub.
    rewrite size_list_to_set in Hsub by exact Hnd.
    rewrite size_dom in Hsub. unfold keys, ks in Hsub.
    rewrite !length_map, length_seq in Hsub. fold n in Hsub. lia.
  - apply Exists_exists in Hex as (k & Hk & Hfree).
    exists k. split; [|exact Hfree].
    apply list_elem_of_fmap in Hk as (j & -> & Hj).
    apply elem_of_seq in Hj. fold n. lia.
Qed.

(** The loop stops at the first free candidate. *)
Lemma _ensure_unique_loop_spec (fuel : nat) (i : Z) (cur : string) :
  (path_exists w cur = true ->
   exists k, i <= k < i + Z.of_nat fuel
             /\ path_exists w (candidate base ext k) = false) ->
  exists r,
    _ensure_unique_loop fuel w base ext i cur = Some r
    /\ path_exists w r = false
    /\ ((path_exists w cur = false /\ r = cur)
        \/ (path_exists w cur = true
            /\ exists k, i <= k /\ r = candidate base ext k
                         /\ forall j, i <= j < k ->
                                      path_exists w (candidate base ext j) = true)).
Proof.
  revert i cur. induction fuel as [|fuel IH]; intros i cur H.
  - cbn. destruct (path_exists w cur) eqn:E.
    + destruct (H eq_refl) as (k & Hk & _). lia.
    + exists cur. auto.
  - cbn [_ensure_unique_loop]. destruct (path_exists w cur) eqn:E.
    + fold (candidate base ext i).
      destruct (IH (i + 1) (candidate base ext i)) as (r & Hr & Hfree & Hcase).
      { intros Ei. destruct (H eq_refl) as (k & Hk & Hkfree).
        exists k. split; [|exact Hkfree].
        assert (k <> i) by (intros ->; congruence). lia. }
      exists r. split; [exact Hr|]. split; [exact Hfree|]. right.
      split; [reflexivity|].
      destruct Hcase as [[Ei ->]|(Ei & k & Hk & -> & Hlt)].
      * exists i. split; [lia|]. split; [reflexivity|]. intros j Hj. lia.
      * exists k. split; [lia|]. split; [reflexivity|]. intros j Hj.
        destruct (decide (j = i)) as [->|Hne]; [exact Ei|apply Hlt; lia].
    + exists cur. auto.
Qed.

End Unique.

Lemma ensure_unique_result (w : world) (dst : string) :
  exists r,
    ensure_unique dst w = (Ret r, w)
    /\ path_exists w r = false
    /\ (path_exists w dst = false -> r = dst)
    /\ (path_exists w dst = true ->
        exists k, 1 <= k
          /\ r = candidate (fst (posixpath.splitext dst))
                   (snd (posixpath.splitext dst)) k
          /\ forall j, 1 <= j < k ->
               path_exists w
                 (candidate (fst (posixpath.splitext dst))
                    (snd (posixpath.splitext dst)) j) = true).
Proof.
  unfold ensure_unique.
  destruct (splitext_spec dst) as [Hsep _].
  destruct (posixpath.splitext dst) as [base ext]. cbn [fst snd] in *.
  destruct (_ensure_unique_loop_spec w base ext (S (size (fs w))) 1 dst)
    as (r & Hr & Hfree & Hcase).
  { intros _. destruct (free_candidate w base ext Hsep) as (k & Hk & Hkfree).
    exists k. split; [lia|exact Hkfree]. }
  rewrite Hr. exists r. split; [reflexivity|]. split; [exact Hfree|].
  destruct Hcase as [[E ->]|(E & k & Hk & -> & Hlt)]; split;
    try congruence; eauto.
Qed.

(** ** Moving a file *)

Section Moves.

Lemma check_dir_writable_OSError (f : gmap (list string) node)
    (k : list string) (e : exn) :
  check_dir_writable f k = Raise e -> is_OSError e = true.
Proof.
  unfold check_dir_writable.
  destruct (f !! k) as [[st data img|st [|]]|]; intros H;
    try discriminate; injection H as <-; reflexivity.
Qed.

Lemma path_exists_false (w : world) (p : string) :
  path_exists w p = false -> String.eqb p "" = false ->
  fs w !! resolve (cwd w) p = None.
Proof.
  unfold path_exists, node_at. intros H E. rewrite E in H.
  destruct (fs w !! resolve (cwd w) p); [discriminate|reflexivity].
Qed.

Lemma check_dir_writable_insert_file (f : gmap (list string) node)
    (k t : list string) (n : node) (e : exn) :
  is_dir n = false ->
  check_dir_writable f k = Raise e ->
  f !! t = None ->
  exists e', check_dir_writable (<[t := n]> f) k = Raise e'.
Proof.
  intros Hn Hc Ht. unfold check_dir_writable in *.
  destruct (decide (k = t)) as [->|Hk].
  - rewrite lookup_insert_eq. destruct n; [eauto|discriminate].
  - rewrite lookup_insert_ne by congruence.
    destruct (f !! k) as [[? ? ?|? [|] ?]|]; try discriminate; eauto.
Qed.

(** A file moved to a free name, in three cases.  The directory of the
    source allows the removal, the move returns and the entry has gone
    from the source to the destination, with a new status time.  Or the
    move raises and nothing changed.  Or the directory of the source
    does not allow the removal and the move raises after the copy: the
    file is in both places. *)
Lemma shutil_move_file_any (w : world) (src dst : string)
    (st : stat_result) (data : string) (img : pil_image) :
  node_at w src = Some (File st data img) ->
  path_exists w dst = false ->
  (shutil_move src dst w
   = (Ret dst,
      with_fs (<[resolve (cwd w) dst := File (mkstat (st_mtime st) (now w))
                                            data img]>
                 (delete (resolve (cwd w) src) (fs w))) w)
   /\ resolve (cwd w) src <> resolve (cwd w) dst
   /\ fs w !! resolve (cwd w) dst = None
   /\ String.eqb dst "" = false
   /\ check_dir_writable (fs w) (removelast (resolve (cwd w) src)) = Ret tt)
  \/ (exists e, shutil_move src dst w = (Raise e, w))
  \/ (exists e e0,
        shutil_move src dst w
        = (Raise e,
           with_fs (<[resolve (cwd w) dst := File (mkstat (st_mtime st) (now w))
                                                 data img]> (fs w)) w)
        /\ resolve (cwd w) src <> resolve (cwd w) dst
        /\ fs w !! resolve (cwd w) dst = None
        /\ check_dir_writable (fs w) (removelast (resolve (cwd w) src))
           = Raise e0).
Proof.
  intros Hsrc Hdst.
  assert (Hd : path_isdir w dst = false).
  { unfold path_isdir. unfold path_exists in Hdst.
    destruct (node_at w dst); [discriminate|reflexivity]. }
  assert (Hs : path_isdir w src = false).
  { unfold path_isdir. rewrite Hsrc. reflexivity. }
  unfold shutil_move, bind, os_path_isdir, ret, try_except_OSError.
  rewrite Hd. unfold os_rename. rewrite Hsrc.
  destruct (String.eqb dst "") eqn:Edst.
  { right. left. cbn. unfold os_path_isdir. rewrite Hs.
    unfold bind, shutil_copy2. rewrite Hsrc, Edst. eauto. }
  pose proof (path_exists_false w dst Hdst Edst) as Ht.
  assert (Hne : resolve (cwd w) src <> resolve (cwd w) dst).
  { intros E. unfold node_at in Hsrc.
    destruct (String.eqb src ""); [discriminate|]. congruence. }
  destruct (check_dir_writable (fs w) (removelast (resolve (cwd w) dst)))
    as [[]|e] eqn:Ec.
  - destruct (check_dir_writable (fs w) (removelast (resolve (cwd w) src)))
      as [[]|e] eqn:Es.
    + rewrite Ht. left. cbn [with_ctime]. auto.
    + right. right. rewrite (check_dir_writable_OSError _ _ _ Es).
      rewrite Hs. unfold bind, shutil_copy2. rewrite Hsrc, Edst, Ht, Ec.
      unfold os_unlink. cbn [with_ctime].
      set (copy := File (mkstat (st_mtime st) (now w)) data img).
      assert (Hsrc' : node_at (with_fs (<[resolve (cwd w) dst := copy]> (fs w))
                                 w) src
                      = Some (File st data img)).
      { unfold node_at in *. cbn [with_fs fs cwd].
        destruct (String.eqb src ""); [discriminate|].
        rewrite lookup_insert_ne by congruence. exact Hsrc. }
      rewrite Hsrc'. cbn [with_fs fs cwd].
      destruct (check_dir_writable_insert_file (fs w)
                  (removelast (resolve (cwd w) src)) (resolve (cwd w) dst)
                  copy e eq_refl Es Ht) as (e' & ->).
      exists e', e. auto.
  - right. left. rewrite (check_dir_writable_OSError _ _ _ Ec).
    rewrite Hs. unfold bind, shutil_copy2. rewrite Hsrc, Edst, Ht, Ec. eauto.
Qed.

Lemma dirs_added_refl (w : world) : dirs_added w w.
Proof. repeat split; auto. Qed.

Lemma dirs_added_trans (w1 w2 w3 : world) :
  dirs_added w1 w2 -> dirs_added w2 w3 -> dirs_added w1 w3.
Proof.
  intros (C1 & L1 & F1) (C2 & L2 & F2). repeat split; try congruence. auto.
Qed.

Lemma os_mkdir_dirs_added (k : list string) (w w' : world) (o : outcome unit) :
  os_mkdir k w = (o, w') -> dirs_added w w'.
Proof.
  unfold os_mkdir. destruct (fs w !! k) eqn:E.
  { intros [= <- <-]. apply dirs_added_refl. }
  destruct (check_dir_writable (fs w) (removelast k)).
  - intros [= <- <-]. unfold with_fs. repeat split; cbn [fs cwd].
    + intros key n H. rewrite lookup_insert_ne; [exact H|congruence].
    + unfold files_of. apply map_filter_insert_not'.
      * cbn. discriminate.
      * intros y Hy. congruence.
  - intros [= <- <-]. apply dirs_added_refl.
Qed.

Lemma _makedirs_dirs_added (rest k : list string) (w w' : world)
    (o : outcome unit) :
  _makedirs k rest w = (o, w') -> dirs_added w w'.
Proof.
  revert k w. induction rest as [|c rest IH]; intros k w.
  - intros [= <- <-]. apply dirs_added_refl.
  - cbn [_makedirs].
    destruct (fs w !! (k ++ [c])%list) as [[st data img|st wr]|] eqn:E.
    + destruct rest; [intros [= <- <-]; apply dirs_added_refl|apply IH].
    + apply IH.
    + destruct (os_mkdir (k ++ [c])%list w) as [[[]|e] w1] eqn:Em.
      * intros H. eapply dirs_added_trans;
          [exact (os_mkdir_dirs_added _ _ _ _ Em)|exact (IH _ _ H)].
      * intros [= <- <-]. exact (os_mkdir_dirs_added _ _ _ _ Em).
Qed.

Lemma os_makedirs_dirs_added (name : string) (w w' : world)
    (o : outcome unit) :
  os_makedirs name w = (o, w') -> dirs_added w w'.
Proof.
  unfold os_makedirs. destruct (String.eqb name "").
  - intros [= <- <-]. apply dirs_added_refl.
  - apply _makedirs_dirs_added.
Qed.

Lemma pick_timestamp_fs (path source : string) (w : world) :
  exists o opens,
    pick_timestamp path source w
    = (o, mkworld (fs w) (cwd w) (EXIF_AVAILABLE w) (now w) (stdout w) opens).
Proof.
  unfold pick_timestamp, bind.
  assert (H : exists d opens,
    (if String.eqb source "exif" then get_exif_datetime path else ret None) w
    = (Ret d, mkworld (fs w) (cwd w) (EXIF_AVAILABLE w) (now w) (stdout w)
                opens)).
  { destruct (String.eqb source "exif").
    - apply get_exif_datetime_total.
    - exists None, (image_opens w). destruct w; reflexivity. }
  destruct H as (d & opens & ->). destruct d as [dt|]; [eauto|].
  unfold os_stat, lift, node_at. cbn [fs cwd].
  destruct (if String.eqb path "" then None else fs w !! resolve (cwd w) path);
    eauto.
Qed.

Lemma os_makedirs_settings (name : string) (w w' : world) (o : outcome unit) :
  os_makedirs name w = (o, w') ->
  now w' = now w /\ EXIF_AVAILABLE w' = EXIF_AVAILABLE w
  /\ stdout w' = stdout w /\ image_opens w' = image_opens w.
Proof.
  intros H. destruct (fs_only_os_makedirs name w) as (o0 & f & E).
  specialize (E (stdout w)). rewrite with_stdout_id, H in E.
  injection E as _ ->. auto.
Qed.

End Moves.


(** ** [commonpath] on paths in normal form *)

Section Commonpath.

Lemma clean_component_no_sep (c : string) :
  clean_component c = true -> contains posixpath.sep c = false.
Proof.
  unfold clean_component. intros H.
  apply andb_prop in H as [_ H]. apply negb_true_iff in H. exact H.
Qed.

Lemma split_app_sep (a b : string) :
  contains posixpath.sep a = false ->
  split posixpath.sep (a +:+ "/" +:+ b) = a :: split posixpath.sep b.
Proof.
  induction a as [|x a IH]; intros H.
  - reflexivity.
  - cbn in H. apply orb_false_iff in H as [Hx Ha].
    rewrite app_cons_s. cbn [split]. rewrite Hx, (IH Ha). reflexivity.
Qed.

Lemma split_join_with (comps : list string) :
  comps <> [] ->
  Forall (fun c => clean_component c = true) comps ->
  split posixpath.sep (join_with "/" comps) = comps.
Proof.
  intros Hne H. induction H as [|c comps Hc H IH]; [contradiction|].
  destruct comps as [|c' comps].
  - cbn. apply split_no_sep, clean_component_no_sep, Hc.
  - change (join_with "/" (c :: c' :: comps))
      with (c +:+ "/" +:+ join_with "/" (c' :: comps)).
    rewrite split_app_sep by (apply clean_component_no_sep, Hc).
    rewrite IH by discriminate. reflexivity.
Qed.

Lemma filter_clean (comps : list string) :
  Forall (fun c => clean_component c = true) comps ->
  filter (fun c => negb (String.eqb c "") && negb (String.eqb c ".")) comps
  = comps.
Proof.
  induction 1 as [|c comps Hc H IH]; [reflexivity|].
  rewrite filter_cons, IH. unfold clean_component in Hc.
  apply andb_prop in Hc as [Hc _]. rewrite Hc. reflexivity.
Qed.

(** The components that [commonpath] keeps of a path in normal form. *)
Lemma clean_split_normal_path (abs : bool) (comps : list string) :
  Forall (fun c => clean_component c = true) comps ->
  filter (fun c => negb (String.eqb c "") && negb (String.eqb c "."))
         (split posixpath.sep (normal_path abs comps))
  = comps.
Proof.
  intros H. unfold normal_path.
  destruct comps as [|c comps]; [destruct abs; reflexivity|].
  destruct abs.
  - change ("/" +:+ join_with "/" (c :: comps))
      with ("" +:+ "/" +:+ join_with "/" (c :: comps)).
    rewrite split_app_sep by reflexivity.
    rewrite split_join_with by (discriminate || assumption).
    rewrite filter_cons. cbn [String.eqb negb andb].
    apply filter_clean, H.
  - rewrite app_nil_l_s, split_join_with by (discriminate || assumption).
    apply filter_clean, H.
Qed.

Lemma isabs_normal_path (abs : bool) (comps : list string) :
  Forall (fun c => clean_component c = true) comps ->
  posixpath.isabs (normal_path abs comps) = abs.
Proof.
  intros H. unfold normal_path. destruct abs.
  - change ("/" +:+ join_with "/" comps) with (String "/" (join_with "/" comps)).
    rewrite isabs_cons. reflexivity.
  - rewrite app_nil_l_s. destruct H as [|c comps Hc H]; [reflexivity|].
    assert (Hj : exists s, join_with "/" (c :: comps) = c +:+ s).
    { destruct comps; [exists ""; symmetry; apply app_nil_r_s|eexists; reflexivity]. }
    destruct Hj as (s & ->).
    destruct c as [|x c]; [discriminate|].
    rewrite app_cons_s, isabs_cons.
    destruct (ascii_dec "/" x) as [<-|]; [|reflexivity].
    unfold clean_component in Hc. cbn in Hc. discriminate.
Qed.

Lemma string_compare_refl (x : string) : String.compare x x = Eq.
Proof.
  pose proof (String.compare_antisym x x) as H.
  destruct (String.compare x x); cbn in H; congruence.
Qed.

Lemma list_leb_prefix (a b : list string) :
  posixpath.list_leb a (a ++ b) = true.
Proof.
  induction a as [|x a IH]; [reflexivity|].
  cbn. rewrite string_compare_refl. exact IH.
Qed.

Lemma _common_prefix (a b : list string) :
  posixpath._common a (a ++ b) = Ret a.
Proof.
  induction a as [|x a IH]; [reflexivity|].
  cbn. rewrite String.eqb_refl, IH. reflexivity.
Qed.

Lemma list_leb_app_nil (a b : list string) :
  posixpath.list_leb (a ++ b) a = true -> b = [].
Proof.
  induction a as [|x a IH]; cbn.
  - destruct b; [reflexivity|discriminate].
  - rewrite string_compare_refl. exact IH.
Qed.

(** For a destination root in normal form and a path in normal form below
    it, [commonpath] returns the root as it is written. *)
Lemma commonpath_below_root (abs : bool) (comps below : list string) :
  Forall (fun c => clean_component c = true) comps ->
  Forall (fun c => clean_component c = true) below ->
  posixpath.commonpath (normal_path abs (comps ++ below)) (normal_path abs comps)
  = Ret (normal_path abs comps).
Proof.
  intros Hc Hb.
  assert (Hcb : Forall (fun c => clean_component c = true) (comps ++ below))
    by (apply Forall_app; split; assumption).
  unfold posixpath.commonpath. cbv zeta.
  rewrite !isabs_normal_path by assumption.
  rewrite Bool.eqb_reflx. cbn [negb].
  rewrite !clean_split_normal_path by assumption.
  destruct (posixpath.list_leb (comps ++ below) comps) eqn:E.
  - apply list_leb_app_nil in E. subst below. rewrite app_nil_r.
    rewrite <- (app_nil_r comps) at 2. rewrite _common_prefix. cbn [obind].
    unfold normal_path. destruct abs; reflexivity.
  - rewrite _common_prefix. cbn [obind].
    unfold normal_path. destruct abs; reflexivity.
Qed.

End Commonpath.

Import Examples.

(** ** Exceptions in the sweep and in the watch loop *)

Section Propagation.

Variables (dst_root source : string) (origin : datetime) (days : Z)
          (exts : gset string).

(** A path that names nothing: the classification raises
    [FileNotFoundError]. *)
Lemma sort_file_vanished (path : string) (w : world) :
  node_at w path = None ->
  fst (sort_file path dst_root source origin days w) = Raise FileNotFoundError.
Proof.
  intros H.
  assert (Hp : fst (pick_timestamp path source w) = Raise FileNotFoundError).
  { destruct (String.eqb_spec source "exif") as [->|Hne].
    - destruct (pick_timestamp_fallback path w) as [E _].
      + apply get_exif_datetime_None. right. left. intros st data d.
        rewrite H. discriminate.
      + rewrite E, pick_timestamp_mtime, H. reflexivity.
    - unfold pick_timestamp, bind, os_stat.
      apply String.eqb_neq in Hne. rewrite Hne. cbn. rewrite H. reflexivity. }
  unfold sort_file. unfold bind at 1.
  destruct (pick_timestamp path source w) as [[dt|e] w']; cbn in Hp;
    [discriminate|]. cbn. injection Hp as ->. reflexivity.
Qed.

(** The handler has no [try]: what [sort_file] raises leaves
    [on_created]. *)
Lemma on_created_raises (self : ScreenshotHandler) (path : string)
    (e : exn) (w w' : world) :
  watch_eligible path (h_exts self) = true ->
  sort_file path (h_dst self) (h_source self) (h_origin self) (h_days self) w
  = (Raise e, w') ->
  on_created self (mkevent false path) w = (Raise e, w').
Proof.
  intros He H. unfold on_created. cbn [is_directory src_path].
  rewrite He. cbn [negb]. unfold bind, time_sleep, ret. exact H.
Qed.

(** The loop over the names of a directory ends at the first name whose
    processing raises. *)
Lemma sweep_files_raises (root : string) (before after : list string)
    (f : string) (e : exn) (w w1 w2 : world) :
  sweep_files root before dst_root source origin days exts w = (Ret tt, w1) ->
  sweep_file root f dst_root source origin days exts w1 = (Raise e, w2) ->
  sweep_files root (before ++ f :: after) dst_root source origin days exts w
  = (Raise e, w2).
Proof.
  revert w. induction before as [|g before IH]; intros w H1 H2.
  - cbn in H1. injection H1 as <-. cbn [app sweep_files]. unfold bind.
    rewrite H2. reflexivity.
  - cbn [app sweep_files] in *. unfold bind in *.
    destruct (sweep_file root g dst_root source origin days exts w)
      as [[[]|e'] w']; [|discriminate].
    apply IH; assumption.
Qed.

(** And so does the walk, and [process_existing]. *)
Lemma _walk_raises (fuel : nat) (top : string) (stack dirs files : list string)
    (e : exn) (w w1 w2 : world) :
  os_scandir top w = (Ret (dirs, files), w1) ->
  sweep_files top files dst_root source origin days exts w1 = (Raise e, w2) ->
  _walk (S fuel) (top :: stack) dst_root source origin days exts w
  = Some (Raise e, w2).
Proof. intros H1 H2. cbn [_walk]. rewrite H1, H2. reflexivity. Qed.

Lemma process_existing_raises (fuel : nat) (watch_dir : string) (e : exn)
    (w w2 : world) :
  _walk fuel [watch_dir] dst_root source origin days exts
    (snd (print "Processing existing files..." w)) = Some (Raise e, w2) ->
  process_existing fuel watch_dir dst_root source origin days exts w
  = Some (Raise e, w2).
Proof.
  intros H. unfold process_existing.
  rewrite (print_Ret "Processing existing files..." _ eq_refl) in *.
  cbn [snd] in H. rewrite H. reflexivity.
Qed.

(** An eligible name whose path and the destination root are not both
    absolute or both relative: [commonpath] raises [ValueError]. *)
Lemma commonpath_mixed (p1 p2 : string) :
  posixpath.isabs p1 <> posixpath.isabs p2 ->
  posixpath.commonpath p1 p2 = Raise ValueError.
Proof.
  intros H. unfold posixpath.commonpath.
  destruct (posixpath.isabs p1), (posixpath.isabs p2);
    try reflexivity; contradiction.
Qed.

Lemma sweep_file_mixed (root f : string) (w : world) :
  sweep_eligible f exts = true ->
  posixpath.isabs (posixpath.join root f) <> posixpath.isabs dst_root ->
  sweep_file root f dst_root source origin days exts w = (Raise ValueError, w).
Proof.
  intros He H. unfold sweep_file. rewrite He. unfold bind, lift.
  rewrite (commonpath_mixed _ _ H). reflexivity.
Qed.

(** A file below a destination root in normal form is skipped. *)
Lemma sweep_file_skips (abs : bool) (comps below : list string)
    (root f : string) (w : world) :
  Forall (fun c => clean_component c = true) comps ->
  Forall (fun c => clean_component c = true) below ->
  posixpath.join root f = normal_path abs (comps ++ below) ->
  sweep_file root f (normal_path abs comps) source origin days exts w
  = (Ret tt, w).
Proof.
  intros Hc Hb E. unfold sweep_file.
  destruct (sweep_eligible f exts); [|reflexivity].
  unfold bind, lift. rewrite E, commonpath_below_root by assumption.
  rewrite String.eqb_refl. reflexivity.
Qed.

End Propagation.

(** C2 (amended).  An error of the classification of a file is handled
    nowhere.  [sort_file] raises [FileNotFoundError] for a file that is
    gone; what it raises leaves [on_created]; in the sweep the first name
    whose processing raises ends the loop over the directory, the walk and
    [process_existing] with that exception, in the state reached then,
    the names after it not processed. *)
Theorem per_file_errors_propagate :
  (forall (path dst_root source : string) (origin : datetime) (days : Z)
          (w : world),
     node_at w path = None ->
     fst (sort_file path dst_root source origin days w)
     = Raise FileNotFoundError)
  /\ (forall (self : ScreenshotHandler) (path : string) (e : exn)
             (w w' : world),
        watch_eligible path (h_exts self) = true ->
        sort_file path (h_dst self) (h_source self) (h_origin self)
          (h_days self) w = (Raise e, w') ->
        on_created self (mkevent false path) w = (Raise e, w'))
  /\ (forall (dst_root source : string) (origin : datetime) (days : Z)
             (exts : gset string) (root : string)
             (before after : list string) (f : string) (e : exn)
             (w w1 w2 : world),
        sweep_files root before dst_root source origin days exts w
        = (Ret tt, w1) ->
        sweep_file root f dst_root source origin days exts w1
        = (Raise e, w2) ->
        sweep_files root (before ++ f :: after) dst_root source origin days
          exts w = (Raise e, w2))
  /\ (forall (dst_root source : string) (origin : datetime) (days : Z)
             (exts : gset string) (fuel : nat) (top : string)
             (stack dirs files : list string) (e : exn) (w w1 w2 : world),
        os_scandir top w = (Ret (dirs, files), w1) ->
        sweep_files top files dst_root source origin days exts w1
        = (Raise e, w2) ->
        _walk (S fuel) (top :: stack) dst_root source origin days exts w
        = Some (Raise e, w2))
  /\ (forall (dst_root source : string) (origin : datetime) (days : Z)
             (exts : gset string) (fuel : nat) (watch_dir : string)
             (e : exn) (w w2 : world),
        _walk fuel [watch_dir] dst_root source origin days exts
          (snd (print "Processing existing files..." w))
        = Some (Raise e, w2) ->
        process_existing fuel watch_dir dst_root source origin days exts w
        = Some (Raise e, w2)).
Proof.
  split; [intros; apply sort_file_vanished; assumption|].
  split; [intros; apply on_created_raises; assumption|].
  split; [intros; eapply sweep_files_raises; eassumption|].
  split; [intros; eapply _walk_raises; eassumption|].
  intros; apply process_existing_raises; assumption.
Qed.

Lemma per_file_errors_propagate_witness :
  fst (sort_file "/w/gone.png" "/out" "mtime" ORIGIN_DATE 10 one_file)
  = Raise FileNotFoundError.
Proof.
  apply (proj1 per_file_errors_propagate). reflexivity.
Defined.

(** C2 as stated fails.  In [readonly_bucket] the sweep lists [b.png]
    first; its bucket refuses a new entry; the sweep ends there with
    [PermissionError], nothing printed about the file, and [a.png], which
    the classification would have placed, is still where it was.  And
    [on_created] raises for a file that is gone. *)
Lemma sweep_aborts_on_first_error :
  exists w' : world,
    process_existing 4 "/w" "/w/out" "mtime" ORIGIN_DATE 10 {["png"]}
      readonly_bucket = Some (Raise PermissionError, w')
    /\ stdout w' = ["Processing existing files..."]
    /\ fs w' !! ["w"; "a.png"] = Some (png t_0513 "A")
    /\ fst (sort_file "/w/a.png" "/w/out" "mtime" ORIGIN_DATE 10 w') = Ret tt
    /\ fst (on_created (mkhandler "/w/out" "mtime" ORIGIN_DATE 10 {["png"]})
              (mkevent false "/w/gone.png") w')
       = Raise FileNotFoundError.
Proof.
  eexists. split; [vm_compute; reflexivity|].
  repeat split; vm_compute; reflexivity.
Qed.

(** C4.  A file below a destination root written in normal form is
    skipped, in any state.  At a destination root written with a final
    separator it is not: [commonpath] returns the root without the
    separator, which is not the string given, so the file already in its
    bucket is classified again and renamed to [shot_1.png].  With the
    root written [/w/out] the same sweep leaves it alone. *)
Theorem sweep_resorts_archive :
  (forall (source : string) (origin : datetime) (days : Z)
          (exts : gset string) (abs : bool) (comps below : list string)
          (root f : string) (w : world),
     Forall (fun c => clean_component c = true) comps ->
     Forall (fun c => clean_component c = true) below ->
     posixpath.join root f = normal_path abs (comps ++ below) ->
     sweep_file root f (normal_path abs comps) source origin days exts w
     = (Ret tt, w))
  /\ posixpath.commonpath "/w/out/2025.05.11-2025.05.20/shot.png" "/w/out/"
     = Ret "/w/out"
  /\ (exists w' : world,
        process_existing 4 "/w" "/w/out/" "mtime" ORIGIN_DATE 10 {["png"]}
          archived = Some (Ret tt, w')
        /\ fs w' !! ["w"; "out"; bucket_0513; "shot.png"] = None
        /\ fs w' !! ["w"; "out"; bucket_0513; "shot_1.png"]
           = Some (placed t_0513 "data")
        /\ stdout w' = ["Existing done.";
                        "Moved shot.png → 2025.05.11-2025.05.20/";
                        "Processing existing files..."])
  /\ (exists w' : world,
        process_existing 4 "/w" "/w/out" "mtime" ORIGIN_DATE 10 {["png"]}
          archived = Some (Ret tt, w')
        /\ fs w' = fs archived
        /\ stdout w' = ["Existing done."; "Processing existing files..."]).
Proof.
  split; [intros; eapply sweep_file_skips; eassumption|].
  split; [vm_compute; reflexivity|]. split.
  - eexists. split; [vm_compute; reflexivity|].
    repeat split; vm_compute; reflexivity.
  - eexists. split; [vm_compute; reflexivity|].
    repeat split; vm_compute; reflexivity.
Qed.

(** C10.  The check is not total: for a path and a destination root of
    which one is absolute and the other relative [commonpath] raises
    [ValueError]; an eligible file then ends the loop over its directory
    with that exception, unclassified; and the sweep of the relative
    directory [w] with the destination [/out] ends so. *)
Theorem commonpath_check_not_total :
  (forall p1 p2 : string,
     posixpath.isabs p1 <> posixpath.isabs p2 ->
     posixpath.commonpath p1 p2 = Raise ValueError)
  /\ (forall (dst_root source : string) (origin : datetime) (days : Z)
             (exts : gset string) (root f : string) (after : list string)
             (w : world),
        sweep_eligible f exts = true ->
        posixpath.isabs (posixpath.join root f) <> posixpath.isabs dst_root ->
        sweep_files root (f :: after) dst_root source origin days exts w
        = (Raise ValueError, w))
  /\ (exists w' : world,
        process_existing 4 "w" "/out" "mtime" ORIGIN_DATE 10 {["png"]}
          one_file = Some (Raise ValueError, w')
        /\ fs w' = fs one_file
        /\ stdout w' = ["Processing existing files..."]).
Proof.
  split; [exact commonpath_mixed|]. split.
  - intros dst_root source origin days exts root f after w He H.
    apply (sweep_files_raises dst_root source origin days exts root [] after f
             ValueError w w w); [reflexivity|].
    apply sweep_file_mixed; assumption.
  - eexists. split; [vm_compute; reflexivity|].
    split; vm_compute; reflexivity.
Qed.

Lemma commonpath_check_not_total_witness :
  posixpath.commonpath "w/a.png" "/out" = Raise ValueError.
Proof.
  apply (proj1 commonpath_check_not_total). vm_compute. discriminate.
Defined.



(** C6.  [ensure_unique] returns a path that does not exist: the path
    given when that is free, and otherwise the first free one of
    [base_1ext], [base_2ext], ..., where [base] and [ext] are the two
    parts that [splitext] makes of the path.  Two files named [shot.png]
    of one bucket end as [shot.png] and [shot_1.png], each with its own
    data. *)
Theorem ensure_unique_spec :
  (forall (w : world) (dst : string),
     exists r,
       ensure_unique dst w = (Ret r, w)
       /\ path_exists w r = false
       /\ (path_exists w dst = false -> r = dst)
       /\ (path_exists w dst = true ->
           exists k, 1 <= k
             /\ r = fst (posixpath.splitext dst) +:+ "_" +:+ str_int k
                    +:+ snd (posixpath.splitext dst)
             /\ forall j, 1 <= j < k ->
                  path_exists w
                    (fst (posixpath.splitext dst) +:+ "_" +:+ str_int j
                     +:+ snd (posixpath.splitext dst)) = true))
  /\ posixpath.splitext "/out/2025.05.11-2025.05.20/shot.png"
     = ("/out/2025.05.11-2025.05.20/shot", ".png")
  /\ (exists w1 w2 : world,
        sort_file "/in1/shot.png" "/out" "mtime" ORIGIN_DATE 10 two_shots
        = (Ret tt, w1)
        /\ sort_file "/in2/shot.png" "/out" "mtime" ORIGIN_DATE 10 w1
           = (Ret tt, w2)
        /\ fs w2 !! ["out"; bucket_0513; "shot.png"]
           = Some (placed t_0513 "first")
        /\ fs w2 !! ["out"; bucket_0513; "shot_1.png"]
           = Some (placed t_0513 "second")
        /\ fs w2 !! ["in1"; "shot.png"] = None
        /\ fs w2 !! ["in2"; "shot.png"] = None).
Proof.
  split; [exact ensure_unique_result|].
  split; [vm_compute; reflexivity|].
  eexists. eexists. split; [vm_compute; reflexivity|].
  split; [vm_compute; reflexivity|].
  repeat split; vm_compute; reflexivity.
Qed.

Lemma ensure_unique_spec_witness :
  exists r,
    ensure_unique "/w/a.png" one_file = (Ret r, one_file)
    /\ path_exists one_file r = false
    /\ (path_exists one_file "/w/a.png" = false -> r = "/w/a.png")
    /\ (path_exists one_file "/w/a.png" = true ->
        exists k, 1 <= k
          /\ r = fst (posixpath.splitext "/w/a.png") +:+ "_" +:+ str_int k
                 +:+ snd (posixpath.splitext "/w/a.png")
          /\ forall j, 1 <= j < k ->
               path_exists one_file
                 (fst (posixpath.splitext "/w/a.png") +:+ "_" +:+ str_int j
                  +:+ snd (posixpath.splitext "/w/a.png")) = true).
Proof. exact (proj1 ensure_unique_spec one_file "/w/a.png"). Defined.

(** ** The capture time *)

Section Capture_time.

Lemma _exif_loop_Some (items : list (Z * exif_value)) (dt : datetime) :
  _exif_loop items = Ret (Some dt) ->
  exists before tag val after,
    items = (before ++ (tag, val) :: after)%list
    /\ no_datetime_tag before
    /\ is_datetime_tag tag = true
    /\ strptime_exif val = Ret dt.
Proof.
  induction items as [|[tag val] items IH]; [discriminate|].
  cbn. destruct (is_datetime_tag tag) eqn:Ht.
  - destruct (strptime_exif val) as [dt'|e] eqn:Hv; [|discriminate].
    cbn. intros [= ->].
    exists [], tag, val, items. repeat split; try assumption. constructor.
  - intros H. destruct (IH H) as (before & tag' & val' & after & -> & Hb & Ht' & Hv).
    exists ((tag, val) :: before), tag', val', after.
    repeat split; try assumption. constructor; assumption.
Qed.

End Capture_time.

(** X1.  [get_exif_datetime] returns for every path and every state of
    the environment, it never raises; it changes nothing but the record
    of the calls of [Image.open], which gets the path when Pillow is
    there.  It returns an instant exactly when Pillow is there, the path
    is an image with EXIF data, and the first of the three date fields in
    the order of the data is a string of the format: the instant is then
    the one written in that field, whatever the fields after it hold. *)
Theorem get_exif_datetime_first_field (path : string) (w : world) :
  exists o : option datetime,
    get_exif_datetime path w
    = (Ret o,
       mkworld (fs w) (cwd w) (EXIF_AVAILABLE w) (now w) (stdout w)
         (if EXIF_AVAILABLE w then path :: image_opens w else image_opens w))
    /\ forall dt : datetime,
         o = Some dt <->
         EXIF_AVAILABLE w = true
         /\ exists st data before tag val after,
              node_at w path
              = Some (File st data
                        (Exif (Some (before ++ (tag, val) :: after)%list)))
              /\ no_datetime_tag before
              /\ is_datetime_tag tag = true
              /\ strptime_exif val = Ret dt.
Proof.
  unfold get_exif_datetime.
  destruct (EXIF_AVAILABLE w) eqn:E; cbn [negb].
  - unfold try_except, bind, Image_open, lift, ret. rewrite E.
    destruct (node_at w path) as [[st data [| |[items|]]|st wr]|] eqn:Hn; cbn.
    1,2,4,5,6: exists None; split; [reflexivity|];
      intros dt; split; [discriminate|];
      intros (_ & st' & data' & before & tag & val & after & [=] & _).
    destruct (_exif_loop items) as [[dt0|]|e] eqn:Hl.
    + exists (Some dt0). split; [reflexivity|]. intros dt. split.
      * intros [= <-]. split; [reflexivity|].
        destruct (_exif_loop_Some _ _ Hl) as (before & tag & val & after & -> & Hb & Ht & Hv).
        exists st, data, before, tag, val, after. auto.
      * intros (_ & st' & data' & before & tag & val & after & [= _ _ ->] & Hb & Ht & Hv).
        rewrite _exif_loop_first_tag, Hv in Hl by assumption.
        cbn in Hl. congruence.
    + exists None. split; [reflexivity|]. intros dt. split; [discriminate|].
      intros (_ & st' & data' & before & tag & val & after & [= _ _ ->] & Hb & Ht & Hv).
      rewrite _exif_loop_first_tag, Hv in Hl by assumption. discriminate.
    + exists None. split; [reflexivity|]. intros dt. split; [discriminate|].
      intros (_ & st' & data' & before & tag & val & after & [= _ _ ->] & Hb & Ht & Hv).
      rewrite _exif_loop_first_tag, Hv in Hl by assumption. discriminate.
  - exists None. split.
    + destruct w; cbn in *. rewrite E. reflexivity.
    + intros dt. split; [discriminate|]. intros [[=] _].
Qed.

(** X2.  Asked for the capture time, [pick_timestamp] returns the instant
    written in the first date field of the picture when that field is
    readable: the times of the file are not looked at, and the file
    system is as before. *)
Theorem pick_timestamp_prefers_tag (path : string) (w : world)
    (st : stat_result) (data : string) (before after : list (Z * exif_value))
    (tag : Z) (val : exif_value) (dt : datetime) :
  EXIF_AVAILABLE w = true ->
  node_at w path
  = Some (File st data (Exif (Some (before ++ (tag, val) :: after)%list))) ->
  no_datetime_tag before ->
  is_datetime_tag tag = true ->
  strptime_exif val = Ret dt ->
  fst (pick_timestamp path "exif" w) = Ret dt
  /\ fs (snd (pick_timestamp path "exif" w)) = fs w.
Proof.
  intros E Hn Hb Ht Hv.
  unfold pick_timestamp, bind. cbn [String.eqb Ascii.eqb Bool.eqb].
  unfold get_exif_datetime. rewrite E. cbn [negb].
  unfold try_except, bind, Image_open, lift, ret. rewrite Hn. cbn.
  rewrite _exif_loop_first_tag, Hv by assumption. cbn. auto.
Qed.

Lemma pick_timestamp_prefers_tag_witness :
  fst (pick_timestamp "/w/a.jpg" "exif" Scenarios.tagged)
  = Ret (mkdatetime (mkdate 2025 4 25) 10 0 0)
  /\ fs (snd (pick_timestamp "/w/a.jpg" "exif" Scenarios.tagged))
     = fs Scenarios.tagged.
Proof.
  apply (pick_timestamp_prefers_tag "/w/a.jpg" Scenarios.tagged
           (mkstat Examples.t_0513 Examples.t_0513) "A"
           [(271, ExifStr "Camera")] [(306, ExifStr "yesterday")]
           36867 (ExifStr "2025:04:25 10:00:00")).
  - reflexivity.
  - vm_compute. reflexivity.
  - repeat constructor.
  - reflexivity.
  - vm_compute. reflexivity.
Defined.

(** ** The period: zero, negative *)

Section Periods.

Lemma bucket_bounds_error (origin : date) (days idx : Z) (e : exn) :
  bucket_bounds origin days idx = Raise e -> e = OverflowError.
Proof.
  unfold bucket_bounds, timedelta, date_add.
  repeat (match goal with
          | |- context [if ?c then _ else _] => destruct c
          end; cbn [obind]); congruence.
Qed.

(** The bounds of a bucket that is returned, for a period of any sign. *)
Lemma bucket_bounds_any (origin : date) (days idx : Z) (s e : date) :
  valid_date origin = true ->
  bucket_bounds origin days idx = Ret (s, e) ->
  1 <= toordinal origin + idx * days <= _MAXORDINAL
  /\ 1 <= toordinal origin + idx * days + (days - 1) <= _MAXORDINAL
  /\ s = fromordinal (toordinal origin + idx * days)
  /\ e = fromordinal (toordinal origin + idx * days + (days - 1)).
Proof.
  intros V. unfold bucket_bounds, timedelta, date_add.
  destruct (Z.abs (idx * days) <=? 999999999); [|discriminate]. cbn [obind].
  destruct (Z.ltb_spec 0 (toordinal origin + idx * days)) as [H1|H1];
    [|discriminate].
  destruct (Z.leb_spec (toordinal origin + idx * days) _MAXORDINAL) as [H2|H2];
    [|discriminate].
  cbn [andb obind].
  destruct (Z.abs (days - 1) <=? 999999999); [|discriminate]. cbn [obind].
  destruct (toordinal_fromordinal (toordinal origin + idx * days)) as [E _];
    [lia|].
  rewrite E.
  destruct (Z.ltb_spec 0 (toordinal origin + idx * days + (days - 1))) as [H3|H3];
    [|discriminate].
  destruct (Z.leb_spec (toordinal origin + idx * days + (days - 1)) _MAXORDINAL)
    as [H4|H4]; [|discriminate].
  cbn [andb]. intros [= <- <-]. repeat split; lia.
Qed.

End Periods.

(** X3.  The folder name can fail in two ways only: a period of zero days
    is a [ZeroDivisionError], whatever the dates; with any other period
    the only exception is [OverflowError]. *)
Theorem get_date_range_folder_errors (dt origin : datetime) (days : Z) :
  (days = 0 -> get_date_range_folder dt origin days = Raise ZeroDivisionError)
  /\ (days <> 0 ->
      forall e : exn,
        get_date_range_folder dt origin days = Raise e -> e = OverflowError).
Proof.
  split.
  - intros ->. reflexivity.
  - intros H e. rewrite get_date_range_folder_bounds by assumption.
    destruct (bucket_bounds _ _ _) as [b|e'] eqn:Hb; [discriminate|].
    cbn. intros [= <-]. exact (bucket_bounds_error _ _ _ _ Hb).
Qed.

Lemma get_date_range_folder_errors_witness :
  get_date_range_folder (mkdatetime (mkdate 2025 5 13) 12 0 0) ORIGIN_DATE 0
  = Raise ZeroDivisionError.
Proof.
  apply (proj1 (get_date_range_folder_errors
                  (mkdatetime (mkdate 2025 5 13) 12 0 0) ORIGIN_DATE 0)).
  reflexivity.
Defined.

(** X4.  A negative period is accepted.  The name returned then has its
    second date before its first one: the first date [start] is a whole
    number of periods from the origin, the second is [1 - days] days
    before it, and the date of the instant lies after [start + days] and
    not after [start]. *)
Theorem get_date_range_folder_negative_days (dt origin : datetime) (days : Z)
    (label : string) :
  valid_date (dt_date dt) = true ->
  valid_date (dt_date origin) = true ->
  days < 0 ->
  get_date_range_folder dt origin days = Ret label ->
  exists (idx : Z) (start end_ : date),
    label = strftime_Ymd start +:+ "-" +:+ strftime_Ymd end_
    /\ valid_date start = true /\ valid_date end_ = true
    /\ toordinal start = toordinal (dt_date origin) + idx * days
    /\ toordinal end_ = toordinal start + days - 1
    /\ toordinal end_ < toordinal start
    /\ toordinal start + days < toordinal (dt_date dt) <= toordinal start.
Proof.
  intros Vd Vo Hd. rewrite get_date_range_folder_bounds by lia.
  set (idx := (toordinal (dt_date dt) - toordinal (dt_date origin)) / days).
  destruct (bucket_bounds _ _ _) as [[s e]|e'] eqn:Hb; [|discriminate].
  cbn. intros [= <-].
  destruct (bucket_bounds_any _ _ _ _ _ Vo Hb) as (H1 & H2 & -> & ->).
  destruct (toordinal_fromordinal _ H1) as [E1 V1].
  destruct (toordinal_fromordinal _ H2) as [E2 V2].
  exists idx, (fromordinal (toordinal (dt_date origin) + idx * days)),
    (fromordinal (toordinal (dt_date origin) + idx * days + (days - 1))).
  rewrite E1, E2. repeat split; try assumption; try lia.
  - pose proof (Z.div_mod (toordinal (dt_date dt) - toordinal (dt_date origin))
                  days ltac:(lia)).
    pose proof (Z.mod_neg_bound
                  (toordinal (dt_date dt) - toordinal (dt_date origin))
                  days Hd).
    fold idx in H. lia.
  - pose proof (Z.div_mod (toordinal (dt_date dt) - toordinal (dt_date origin))
                  days ltac:(lia)).
    pose proof (Z.mod_neg_bound
                  (toordinal (dt_date dt) - toordinal (dt_date origin))
                  days Hd).
    fold idx in H. lia.
Qed.

Lemma get_date_range_folder_negative_days_witness :
  exists (idx : Z) (start end_ : date),
    "2025.05.21-2025.05.10" = strftime_Ymd start +:+ "-" +:+ strftime_Ymd end_
    /\ valid_date start = true /\ valid_date end_ = true
    /\ toordinal start = toordinal (dt_date ORIGIN_DATE) + idx * (-10)
    /\ toordinal end_ = toordinal start + (-10) - 1
    /\ toordinal end_ < toordinal start
    /\ toordinal start + (-10)
       < toordinal (dt_date (mkdatetime (mkdate 2025 5 13) 12 0 0))
       <= toordinal start.
Proof.
  apply (get_date_range_folder_negative_days
           (mkdatetime (mkdate 2025 5 13) 12 0 0) ORIGIN_DATE (-10)).
  - reflexivity.
  - reflexivity.
  - lia.
  - vm_compute. reflexivity.
Defined.

(** ** Dates written and read back *)

Section Round_trips.

Import strptime.

Lemma digit_pretty (x : N) :
  (x < 10)%N ->
  is_digit (pretty_N_char x) = true
  /\ digit_val (pretty_N_char x) = Z.of_N x
  /\ is_space (pretty_N_char x) = false.
Proof.
  intros H.
  assert (x = 0 \/ x = 1 \/ x = 2 \/ x = 3 \/ x = 4 \/ x = 5 \/ x = 6
          \/ x = 7 \/ x = 8 \/ x = 9)%N as C by lia.
  repeat (destruct C as [->|C]; [repeat split|]). subst x. repeat split.
Qed.

Lemma _match_dY (y : Z) (fmt : list directive) (s : string) (f : fields) :
  0 <= y <= 9999 ->
  _match (dY :: fmt) (digits4 y +:+ s) f = _match fmt s (set_field dY y f).
Proof.
  intros Hy. unfold digits4. cbv zeta.
  set (x := Z.to_N y). assert (Hx : (x < 10000)%N) by lia.
  assert (Ex : y = Z.of_N x) by lia. clearbody x. subst y.
  rewrite !app_cons_s, app_nil_l_s.
  destruct (digit_pretty (x / 1000)) as (D1 & V1 & _);
    [apply N.Div0.div_lt_upper_bound; lia|].
  destruct (digit_pretty (x / 100 mod 10)) as (D2 & V2 & _);
    [apply N.mod_lt; lia|].
  destruct (digit_pretty (x / 10 mod 10)) as (D3 & V3 & _);
    [apply N.mod_lt; lia|].
  destruct (digit_pretty (x mod 10)) as (D4 & V4 & _); [apply N.mod_lt; lia|].
  cbn [_match]. rewrite D1, D2, D3, D4, V1, V2, V3, V4. cbn [andb].
  f_equal. f_equal. rewrite (N_decimal_4 x) at 5. lia.
Qed.

Lemma _match_two (d : directive) (v : Z) (fmt : list directive) (s : string)
    (f : fields) :
  two_digit_ok d v = true ->
  _match (d :: fmt) (digits2 v +:+ s) f = _match fmt s (set_field d v f).
Proof.
  unfold two_digit_ok, digits2. cbv zeta.
  intros H. apply andb_prop in H as [H1 H2]. apply Z.eqb_eq in H2.
  rewrite !app_cons_s, app_nil_l_s.
  destruct d; try discriminate H1; cbn [_match]; rewrite H1, H2; reflexivity.
Qed.

Lemma _match_dLit (c : ascii) (fmt : list directive) (s : string) (f : fields) :
  _match (dLit c :: fmt) (String c s) f = _match fmt s f.
Proof. cbn [_match]. rewrite Ascii.eqb_refl. reflexivity. Qed.

Lemma two_digit_month (m : Z) : 1 <= m <= 12 -> two_digit_ok dm m = true.
Proof.
  intros H. apply (Zrange_forallb (two_digit_ok dm) 1 12);
    [vm_compute; reflexivity|lia].
Qed.

Lemma two_digit_day (d : Z) : 1 <= d <= 31 -> two_digit_ok dd d = true.
Proof.
  intros H. apply (Zrange_forallb (two_digit_ok dd) 1 31);
    [vm_compute; reflexivity|lia].
Qed.

Lemma two_digit_hour (h : Z) : 0 <= h <= 23 -> two_digit_ok dH h = true.
Proof.
  intros H. apply (Zrange_forallb (two_digit_ok dH) 0 24);
    [vm_compute; reflexivity|lia].
Qed.

Lemma two_digit_minute (m : Z) : 0 <= m <= 59 -> two_digit_ok dM m = true.
Proof.
  intros H. apply (Zrange_forallb (two_digit_ok dM) 0 60);
    [vm_compute; reflexivity|lia].
Qed.

Lemma two_digit_second (s : Z) : 0 <= s <= 59 -> two_digit_ok dS s = true.
Proof.
  intros H. apply (Zrange_forallb (two_digit_ok dS) 0 60);
    [vm_compute; reflexivity|lia].
Qed.

Lemma valid_time_fields (dt : datetime) :
  valid_time dt = true ->
  0 <= hour dt <= 23 /\ 0 <= minute dt <= 59 /\ 0 <= second dt <= 59.
Proof.
  unfold valid_time. intros H.
  repeat (apply andb_prop in H; destruct H as [H ?]).
  repeat match goal with
         | H : (_ <=? _) = true |- _ => apply Z.leb_le in H
         end.
  lia.
Qed.

Lemma _match_origin_format (d : date) :
  valid_date d = true ->
  _match origin_format (strftime_Y_m_d d) (mkfields 1900 1 1 0 0 0)
  = Some (mkfields (year d) (month d) (day d) 0 0 0).
Proof.
  intros V. pose proof (valid_date_fields d V) as (Hy & Hm & Hd).
  pose proof (_days_in_month_le_31 (year d) (month d)).
  unfold strftime_Y_m_d, origin_format.
  rewrite zfill_4, !zfill_2 by lia.
  rewrite _match_dY by lia. rewrite app_cons_s, app_nil_l_s, _match_dLit.
  rewrite _match_two by (apply two_digit_month; lia).
  rewrite app_cons_s, app_nil_l_s, _match_dLit.
  rewrite <- (app_nil_r_s (digits2 (day d))).
  rewrite _match_two by (apply two_digit_day; lia).
  reflexivity.
Qed.

Lemma _match_exif_format (dt : datetime) :
  valid_date (dt_date dt) = true -> valid_time dt = true ->
  _match exif_format (strftime_exif dt) (mkfields 1900 1 1 0 0 0)
  = Some (mkfields (year (dt_date dt)) (month (dt_date dt)) (day (dt_date dt))
            (hour dt) (minute dt) (second dt)).
Proof.
  intros V T. pose proof (valid_date_fields _ V) as (Hy & Hm & Hd).
  pose proof (_days_in_month_le_31 (year (dt_date dt)) (month (dt_date dt))).
  pose proof (valid_time_fields _ T) as (HH & HM & HS).
  unfold strftime_exif, exif_format.
  rewrite zfill_4, !zfill_2 by lia.
  rewrite _match_dY by lia. rewrite app_cons_s, app_nil_l_s, _match_dLit.
  rewrite _match_two by (apply two_digit_month; lia).
  rewrite app_cons_s, app_nil_l_s, _match_dLit.
  rewrite _match_two by (apply two_digit_day; lia).
  rewrite app_cons_s, app_nil_l_s.
  destruct (digit_pretty (Z.to_N (hour dt) / 10)) as (_ & _ & Sp);
    [apply N.Div0.div_lt_upper_bound; lia|].
  assert (Edrop : forall s, drop_spaces (digits2 (hour dt) +:+ s)
                            = digits2 (hour dt) +:+ s).
  { intros s. unfold digits2. cbv zeta. rewrite !app_cons_s.
    cbn [drop_spaces]. rewrite Sp. reflexivity. }
  change (_match (dSpace :: ?fmt) (String " " ?s) ?f)
    with (_match fmt (drop_spaces s) f).
  rewrite Edrop.
  rewrite _match_two by (apply two_digit_hour; lia).
  rewrite app_cons_s, app_nil_l_s, _match_dLit.
  rewrite _match_two by (apply two_digit_minute; lia).
  rewrite app_cons_s, app_nil_l_s, _match_dLit.
  rewrite <- (app_nil_r_s (digits2 (second dt))).
  rewrite _match_two by (apply two_digit_second; lia).
  reflexivity.
Qed.

End Round_trips.

(** X5.  The origin is written and read back with one format: for every
    date [d] of the calendar from the year 1000 on, the text
    [d.strftime('%Y-%m-%d')] (the form of the default of [--origin]) is
    parsed by [strptime] with ['%Y-%m-%d'] to midnight of [d]. *)
Theorem origin_round_trip (d : date) :
  valid_date d = true ->
  1000 <= year d ->
  strptime.parse strptime.origin_format (strftime_Y_m_d d)
  = Ret (mkdatetime d 0 0 0).
Proof.
  intros V _. unfold strptime.parse.
  rewrite _match_origin_format by assumption.
  unfold strptime.build. cbn [strptime.fY strptime.fm strptime.fd
                               strptime.fH strptime.fM strptime.fS].
  destruct d as [y m dd]. cbn [year month day]. rewrite V. reflexivity.
Qed.

Lemma origin_round_trip_witness :
  strptime.parse strptime.origin_format (strftime_Y_m_d (dt_date ORIGIN_DATE))
  = Ret (mkdatetime (dt_date ORIGIN_DATE) 0 0 0).
Proof.
  apply (origin_round_trip (dt_date ORIGIN_DATE)).
  - reflexivity.
  - cbn. lia.
Defined.

(** X6.  A date field in the form of the EXIF standard is read as the
    instant it denotes: for every instant [dt] of the calendar, the text
    [YYYY:MM:DD HH:MM:SS] of [dt] is parsed by the [strptime] of
    [get_exif_datetime] to [dt] itself. *)
Theorem exif_text_round_trip (dt : datetime) :
  valid_date (dt_date dt) = true ->
  valid_time dt = true ->
  strptime_exif (ExifStr (strftime_exif dt)) = Ret dt.
Proof.
  intros V T. unfold strptime_exif, strptime.parse.
  rewrite _match_exif_format by assumption.
  pose proof (valid_time_fields _ T) as (_ & _ & HS).
  unfold strptime.build. cbn [strptime.fY strptime.fm strptime.fd
                               strptime.fH strptime.fM strptime.fS].
  destruct dt as [[y m dd] h mi s]. cbn [dt_date year month day hour minute second] in *.
  rewrite V. replace (s <=? 59) with true by (symmetry; apply Z.leb_le; lia).
  reflexivity.
Qed.

Lemma exif_text_round_trip_witness :
  strptime_exif (ExifStr (strftime_exif (mkdatetime (mkdate 2025 4 25) 10 0 0)))
  = Ret (mkdatetime (mkdate 2025 4 25) 10 0 0).
Proof.
  apply (exif_text_round_trip (mkdatetime (mkdate 2025 4 25) 10 0 0));
    reflexivity.
Defined.

(** ** The extension list *)

Section Extensions.

Lemma lower_ascii_idem (c : ascii) : lower_ascii (lower_ascii c) = lower_ascii c.
Proof. destruct c as [[] [] [] [] [] [] [] []]; reflexivity. Qed.

Lemma lower_ascii_eqb (c x : ascii) :
  lower_ascii x = x ->
  (forall y, lower_ascii y = x -> y = x) ->
  Ascii.eqb (lower_ascii c) x = Ascii.eqb c x.
Proof.
  intros Hx Hy. destruct (Ascii.eqb_spec c x) as [->|N].
  - rewrite Hx. apply Ascii.eqb_refl.
  - apply Ascii.eqb_neq. intros E. apply N, Hy, E.
Qed.

Lemma lower_ascii_comma (c : ascii) :
  Ascii.eqb (lower_ascii c) "," = Ascii.eqb c ",".
Proof. destruct c as [[] [] [] [] [] [] [] []]; reflexivity. Qed.

Lemma lower_ascii_sep (c : ascii) :
  Ascii.eqb (lower_ascii c) "/" = Ascii.eqb c "/".
Proof. destruct c as [[] [] [] [] [] [] [] []]; reflexivity. Qed.

Lemma lower_ascii_space (c : ascii) :
  strptime.is_space (lower_ascii c) = strptime.is_space c.
Proof. destruct c as [[] [] [] [] [] [] [] []]; reflexivity. Qed.

Lemma lower_idem (s : string) : lower (lower s) = lower s.
Proof.
  induction s as [|c s IH]; [reflexivity|].
  cbn. rewrite lower_ascii_idem, IH. reflexivity.
Qed.

Lemma lower_app (a b : string) : lower (a +:+ b) = lower a +:+ lower b.
Proof.
  induction a as [|c a IH]; [reflexivity|].
  rewrite app_cons_s. cbn [lower]. rewrite IH, app_cons_s. reflexivity.
Qed.

Lemma lower_rev_app (s acc : string) :
  lower (String.rev_app s acc) = String.rev_app (lower s) (lower acc).
Proof.
  revert acc. induction s as [|c s IH]; intros acc; [reflexivity|].
  cbn [String.rev_app lower]. rewrite IH. reflexivity.
Qed.

Lemma lower_rev (s : string) : lower (String.rev s) = String.rev (lower s).
Proof. unfold String.rev. apply lower_rev_app. Qed.

Lemma lower_drop_spaces (s : string) :
  strptime.drop_spaces (lower s) = lower (strptime.drop_spaces s).
Proof.
  induction s as [|c s IH]; [reflexivity|].
  cbn [lower strptime.drop_spaces]. rewrite lower_ascii_space.
  destruct (strptime.is_space c); [exact IH|reflexivity].
Qed.

Lemma lower_strip (s : string) : strip (lower s) = lower (strip s).
Proof.
  unfold strip.
  rewrite lower_drop_spaces, <- lower_rev, lower_drop_spaces, <- lower_rev.
  reflexivity.
Qed.

Lemma lower_split_comma (s : string) :
  split "," (lower s) = map lower (split "," s).
Proof.
  induction s as [|c s IH]; [reflexivity|].
  cbn [lower split]. rewrite lower_ascii_comma, IH.
  destruct (Ascii.eqb c ","); [reflexivity|].
  destruct (split "," s); reflexivity.
Qed.

Lemma contains_lower_sep (s : string) :
  contains "/" (lower s) = contains "/" s.
Proof.
  induction s as [|c s IH]; [reflexivity|].
  cbn [lower contains]. rewrite lower_ascii_sep, IH. reflexivity.
Qed.

Lemma parse_exts_lower (s : string) : parse_exts (lower s) = parse_exts s.
Proof.
  unfold parse_exts. rewrite lower_split_comma, map_map. f_equal.
  apply map_ext. intros e. rewrite lower_strip, lower_idem. reflexivity.
Qed.

Lemma endswith_empty (s : string) : endswith s "" = true.
Proof. apply endswith_spec. exists s. symmetry. apply app_nil_r_s. Qed.

(** A suffix without separator lies after the last separator. *)
Lemma endswith_after_sep (a b e : string) :
  contains "/" e = false ->
  endswith (a +:+ "/" +:+ b) e = endswith b e.
Proof.
  intros He.
  assert (N : forall x y, String.eqb (x +:+ "/" +:+ y) e = false).
  { intros x y. apply String.eqb_neq. intros E.
    rewrite <- E, !contains_app in He. cbn in He.
    rewrite orb_true_r in He. discriminate. }
  induction a as [|c a IH].
  - rewrite app_nil_l_s, app_cons_s, app_nil_l_s. cbn [endswith].
    specialize (N "" b). rewrite app_nil_l_s, app_cons_s, app_nil_l_s in N.
    rewrite N. reflexivity.
  - rewrite app_cons_s. cbn [endswith]. rewrite IH.
    specialize (N (String c a) b). rewrite app_cons_s in N. rewrite N.
    reflexivity.
Qed.

Lemma endswith_sep_inv (a : string) :
  endswith a "/" = true -> exists a', a = a' +:+ "/".
Proof. intros H. apply endswith_spec in H. exact H. Qed.

Lemma existsb_elements_ext (f g : string -> bool) (exts : gset string) :
  (forall e, e ∈ exts -> f e = g e) ->
  existsb f (elements exts) = existsb g (elements exts).
Proof.
  intros H. apply eq_true_iff_eq. rewrite !existsb_elements.
  split; intros (e & H1 & H2); exists e; split; try assumption.
  - rewrite <- H; assumption.
  - rewrite H; assumption.
Qed.

End Extensions.

(** X7.  When a piece of the [--exts] argument is empty or blank (an
    empty argument, a comma at an end, two commas in a row), the set of
    extensions holds the empty string, and then every name is eligible,
    in the sweep and in the watch loop. *)
Theorem blank_extension_matches_all (s piece : string) :
  piece ∈ split "," s ->
  strip piece = "" ->
  "" ∈ parse_exts s
  /\ forall f : string,
       sweep_eligible f (parse_exts s) = true
       /\ watch_eligible f (parse_exts s) = true.
Proof.
  intros Hp Hs.
  assert (E : "" ∈ parse_exts s).
  { unfold parse_exts. apply elem_of_list_to_set, list_elem_of_In.
    apply in_map_iff. exists piece. rewrite Hs. split; [reflexivity|].
    apply list_elem_of_In. exact Hp. }
  split; [exact E|]. intros f. split.
  - unfold sweep_eligible. apply existsb_elements.
    exists "". split; [exact E|apply endswith_empty].
  - unfold watch_eligible. apply existsb_elements.
    exists "". split; [exact E|apply endswith_empty].
Qed.

Lemma blank_extension_matches_all_witness :
  "" ∈ parse_exts "png,"
  /\ forall f : string,
       sweep_eligible f (parse_exts "png,") = true
       /\ watch_eligible f (parse_exts "png,") = true.
Proof.
  apply (blank_extension_matches_all "png," "").
  - apply list_elem_of_In. cbn. auto.
  - reflexivity.
Defined.

(** X8.  Eligibility does not depend on the case of the letters, neither
    of the name nor of the [--exts] argument: two names with one
    lower-case form and two arguments with one lower-case form give the
    same set of extensions and the same answer. *)
Theorem eligibility_ignores_case (s s' f f' : string) :
  lower s = lower s' ->
  lower f = lower f' ->
  parse_exts s = parse_exts s'
  /\ sweep_eligible f (parse_exts s) = sweep_eligible f' (parse_exts s')
  /\ watch_eligible f (parse_exts s) = watch_eligible f' (parse_exts s').
Proof.
  intros Hs Hf.
  assert (E : parse_exts s = parse_exts s').
  { rewrite <- (parse_exts_lower s), <- (parse_exts_lower s'), Hs. reflexivity. }
  split; [exact E|].
  unfold sweep_eligible, watch_eligible. rewrite E, Hf. split; reflexivity.
Qed.

Lemma eligibility_ignores_case_witness :
  parse_exts "PNG, Jpg" = parse_exts "png, jpg"
  /\ sweep_eligible "Shot.Png" (parse_exts "PNG, Jpg")
     = sweep_eligible "shot.png" (parse_exts "png, jpg")
  /\ watch_eligible "Shot.Png" (parse_exts "PNG, Jpg")
     = watch_eligible "shot.png" (parse_exts "png, jpg").
Proof.
  apply (eligibility_ignores_case "PNG, Jpg" "png, jpg" "Shot.Png" "shot.png");
    reflexivity.
Defined.

(** X9.  The sweep tests the name of a file, the watch loop the whole
    path of the event.  For a name in a directory and extensions without
    separator the two tests agree: the path [join(root, f)] is eligible
    in the watch loop exactly when [f] is eligible in the sweep. *)
Theorem sweep_and_watch_agree (root f : string) (exts : gset string) :
  contains "/" f = false ->
  (forall e, e ∈ exts -> contains "/" e = false) ->
  watch_eligible (posixpath.join root f) exts = sweep_eligible f exts.
Proof.
  intros Hf He. unfold watch_eligible, sweep_eligible.
  apply existsb_elements_ext. intros e Hin. specialize (He e Hin).
  unfold posixpath.join, startswith.
  assert (Hp : String.prefix "/" f = false).
  { destruct f as [|c f]; [reflexivity|].
    cbn in Hf. apply orb_false_elim in Hf as [Hc _].
    change (String.prefix "/" (String c f))
      with (posixpath.isabs (String c f)).
    rewrite isabs_cons. destruct (ascii_dec "/" c) as [<-|N]; [discriminate|].
    reflexivity. }
  rewrite Hp.
  destruct (String.eqb_spec root "") as [->|Hr]; cbn [orb].
  - rewrite app_nil_l_s. reflexivity.
  - destruct (endswith root "/") eqn:Hend.
    + apply endswith_sep_inv in Hend as (a & ->).
      rewrite app_assoc_s, lower_app, lower_app.
      change (lower "/") with "/". apply endswith_after_sep. exact He.
    + rewrite lower_app, lower_app.
      change (lower "/") with "/". apply endswith_after_sep. exact He.
Qed.

Lemma sweep_and_watch_agree_witness :
  watch_eligible (posixpath.join "/w" "Shot.PNG") {["png"]}
  = sweep_eligible "Shot.PNG" {["png"]}.
Proof.
  apply (sweep_and_watch_agree "/w" "Shot.PNG" {["png"]}).
  - reflexivity.
  - intros e He. apply elem_of_singleton in He. subst e. reflexivity.
Defined.

(** ** The key of a joined path *)

Section Joined_paths.

Lemma split_nonempty (c : ascii) (s : string) : split c s <> [].
Proof.
  destruct s as [|x s]; [discriminate|].
  cbn. destruct (Ascii.eqb x c); [discriminate|].
  destruct (split c s); discriminate.
Qed.

Lemma split_app_sep_gen (x y : string) :
  split "/" (x +:+ String "/" y) = (split "/" x ++ split "/" y)%list.
Proof.
  induction x as [|c x IH]; [reflexivity|].
  rewrite app_cons_s. cbn [split]. rewrite IH.
  destruct (Ascii.eqb c "/"); [reflexivity|].
  pose proof (split_nonempty "/" x) as N.
  destruct (split "/" x); [contradiction|reflexivity].
Qed.

Lemma ordinary_name_fields (s : string) :
  ordinary_name s = true ->
  s <> "" /\ contains "/" s = false
  /\ forall acc, _resolve_step acc s = (acc ++ [s])%list.
Proof.
  unfold ordinary_name. intros H.
  repeat (apply andb_prop in H; destruct H as [H ?]).
  repeat match goal with
         | H : negb _ = true |- _ => apply negb_true_iff in H
         end.
  split; [apply String.eqb_neq; assumption|]. split; [assumption|].
  intros acc. unfold _resolve_step.
  repeat match goal with
         | H : String.eqb _ _ = false |- _ => rewrite H; clear H
         end.
  reflexivity.
Qed.

Lemma isabs_no_sep (b : string) :
  contains "/" b = false -> posixpath.isabs b = false.
Proof.
  destruct b as [|c b]; [reflexivity|].
  cbn [contains]. intros H. apply orb_false_elim in H as [H _].
  rewrite isabs_cons. destruct (ascii_dec "/" c) as [<-|]; [discriminate|].
  reflexivity.
Qed.

Lemma isabs_app_nonempty (a b : string) :
  a <> "" -> posixpath.isabs (a +:+ b) = posixpath.isabs a.
Proof.
  destruct a as [|c a]; [contradiction|]. intros _.
  rewrite app_cons_s, !isabs_cons. reflexivity.
Qed.

Lemma isabs_app_sep (a x y : string) :
  posixpath.isabs (a +:+ String "/" x) = posixpath.isabs (a +:+ String "/" y).
Proof.
  destruct a as [|c a]; [rewrite !app_nil_l_s, !isabs_cons; reflexivity|].
  rewrite !app_cons_s, !isabs_cons. reflexivity.
Qed.

(** The components of [join(a, b)] for a name [b]: those of [a], then
    [b]. *)
Lemma split_join (a b : string) :
  contains "/" b = false ->
  exists X,
    split "/" (posixpath.join a b) = (X ++ [b])%list
    /\ forall cwd,
         fold_left _resolve_step X
           (if posixpath.isabs (posixpath.join a b) then [] else cwd)
         = resolve cwd a.
Proof.
  intros Hb. unfold posixpath.join, startswith.
  change (String.prefix "/" b) with (posixpath.isabs b).
  rewrite (isabs_no_sep b Hb).
  destruct (String.eqb_spec a "") as [->|Ha]; cbn [orb].
  - exists []. rewrite app_nil_l_s, (isabs_no_sep b Hb). split.
    + apply split_no_sep, Hb.
    + reflexivity.
  - destruct (endswith a "/") eqn:Hend.
    + apply endswith_spec in Hend as (a' & ->).
      exists (split "/" a'). rewrite app_assoc_s.
      rewrite app_cons_s, app_nil_l_s. split.
      * rewrite split_app_sep_gen, (split_no_sep _ b Hb). reflexivity.
      * intros cwd. unfold resolve.
        rewrite (isabs_app_sep a' b ""), split_app_sep_gen, fold_left_app.
        reflexivity.
    + exists (split "/" a). rewrite app_cons_s, app_nil_l_s. split.
      * rewrite split_app_sep_gen, (split_no_sep _ b Hb). reflexivity.
      * intros cwd. unfold resolve.
        rewrite (isabs_app_nonempty a _ Ha). reflexivity.
Qed.

(** A name joined to a directory is the entry of that name in it. *)
Lemma resolve_join (cwd : list string) (a b : string) :
  ordinary_name b = true ->
  resolve cwd (posixpath.join a b) = (resolve cwd a ++ [b])%list.
Proof.
  intros Hb. destruct (ordinary_name_fields b Hb) as (_ & Hs & Hstep).
  destruct (split_join a b Hs) as (X & E & F).
  unfold resolve at 1. change posixpath.sep with "/"%char.
  rewrite E, fold_left_app, F. cbn [fold_left].
  apply Hstep.
Qed.

Lemma join_nonempty (a b : string) :
  b <> "" -> String.eqb (posixpath.join a b) "" = false.
Proof.
  intros Hb. apply String.eqb_neq. unfold posixpath.join.
  destruct (startswith b "/"); [exact Hb|].
  destruct (String.eqb a "" || endswith a "/").
  - destruct a; [exact Hb|discriminate].
  - destruct a; discriminate.
Qed.

(** The candidates of [ensure_unique] for a name in a directory are
    entries of that directory: the name with [_k] before its
    extension. *)
Lemma candidate_in_directory (cwd : list string) (a b : string) :
  ordinary_name b = true ->
  exists stem,
    stem +:+ snd (posixpath.splitext (posixpath.join a b)) = b
    /\ forall k,
         resolve cwd (candidate (fst (posixpath.splitext (posixpath.join a b)))
                        (snd (posixpath.splitext (posixpath.join a b))) k)
         = (resolve cwd a
            ++ [stem +:+ "_" +:+ str_int k
                +:+ snd (posixpath.splitext (posixpath.join a b))])%list.
Proof.
  intros Hb. destruct (ordinary_name_fields b Hb) as (Hne & Hs & Hstep).
  destruct (split_join a b Hs) as (X & E & F).
  destruct (splitext_spec (posixpath.join a b)) as [He Hbe].
  set (base := fst (posixpath.splitext (posixpath.join a b))) in *.
  set (ext := snd (posixpath.splitext (posixpath.join a b))) in *.
  destruct (split_snoc posixpath.sep base ext He) as (init & lastc & E1 & E2).
  rewrite Hbe in E2. change posixpath.sep with "/"%char in E2.
  rewrite E in E2. apply app_inj_tail in E2 as [-> Elast].
  exists lastc. split; [symmetry; exact Elast|].
  intros k. unfold resolve, candidate.
  assert (Ht : contains posixpath.sep ("_" +:+ str_int k +:+ ext) = false).
  { rewrite app_cons_s, app_nil_l_s. cbn [contains].
    rewrite contains_app, str_int_no_sep, He. reflexivity. }
  destruct (split_snoc posixpath.sep base _ Ht) as (init' & lastc' & E1' & E2').
  rewrite E1 in E1'. apply app_inj_tail in E1' as [<- <-].
  change posixpath.sep with "/"%char in E2'. change posixpath.sep with "/"%char.
  rewrite E2', fold_left_app. cbn [fold_left].
  assert (Eabs : posixpath.isabs (base +:+ "_" +:+ str_int k +:+ ext)
                 = posixpath.isabs (posixpath.join a b)).
  { rewrite <- Hbe. destruct base as [|c base].
    - rewrite !app_nil_l_s. rewrite (isabs_no_sep ext He).
      rewrite app_cons_s, isabs_cons. reflexivity.
    - rewrite !app_cons_s, !isabs_cons. reflexivity. }
  rewrite Eabs, F.
  apply contains_not_special.
  rewrite contains_app. rewrite app_cons_s. cbn [contains].
  rewrite orb_true_r. reflexivity.
Qed.

Lemma zeros_no_sep (n : nat) : contains "/" (zeros n) = false.
Proof. induction n as [|n IH]; [reflexivity|exact IH]. Qed.

Lemma zfill_no_sep (n : nat) (i : Z) : contains "/" (zfill n (str_int i)) = false.
Proof.
  unfold zfill. rewrite contains_app, zeros_no_sep, str_int_no_sep. reflexivity.
Qed.

(** The name of a folder is a name that a directory can hold. *)
Lemma bucket_label_ordinary (b : date * date) :
  ordinary_name (bucket_label b) = true.
Proof.
  assert (Hs : contains "/" (bucket_label b) = false).
  { unfold bucket_label, strftime_Ymd.
    rewrite !contains_app, !zfill_no_sep, !str_int_no_sep. reflexivity. }
  assert (Hd : contains "-" (bucket_label b) = true).
  { unfold bucket_label. rewrite !contains_app. cbn [contains Ascii.eqb Bool.eqb].
    rewrite orb_true_r. reflexivity. }
  unfold ordinary_name. change posixpath.sep with "/"%char. rewrite Hs.
  destruct (String.eqb_spec (bucket_label b) "") as [E|_];
    [rewrite E in Hd; discriminate|].
  destruct (String.eqb_spec (bucket_label b) ".") as [E|_];
    [rewrite E in Hd; discriminate|].
  destruct (String.eqb_spec (bucket_label b) "..") as [E|_];
    [rewrite E in Hd; discriminate|].
  reflexivity.
Qed.

Lemma split_components_no_sep (s : string) :
  Forall (fun c => contains "/" c = false) (split "/" s).
Proof.
  induction s as [|x s IH]; [repeat constructor|].
  cbn [split]. destruct (Ascii.eqb x "/") eqn:E.
  - constructor; [reflexivity|exact IH].
  - destruct (split "/" s) as [|h t].
    + repeat constructor. cbn. rewrite E. reflexivity.
    + inversion IH as [|? ? Hh Ht]; subst.
      constructor; [|exact Ht]. cbn. rewrite E, Hh. reflexivity.
Qed.

Lemma ordinary_key_removelast (key : list string) :
  ordinary_key key -> ordinary_key (removelast key).
Proof.
  unfold ordinary_key. induction 1 as [|c key Hc H IH]; [constructor|].
  cbn. destruct key; [constructor|]. constructor; assumption.
Qed.

Lemma _resolve_step_ordinary (acc : list string) (c : string) :
  ordinary_key acc -> contains "/" c = false ->
  ordinary_key (_resolve_step acc c).
Proof.
  intros Ha Hc. unfold _resolve_step.
  destruct (String.eqb c "") eqn:E1; [exact Ha|].
  destruct (String.eqb c ".") eqn:E2; [exact Ha|]. cbn [orb].
  destruct (String.eqb c "..") eqn:E3; [apply ordinary_key_removelast, Ha|].
  apply Forall_app. split; [exact Ha|].
  repeat constructor. unfold ordinary_name.
  change posixpath.sep with "/"%char. rewrite E1, E2, E3, Hc. reflexivity.
Qed.

(** The key of a path has ordinary names when the working directory
    has. *)
Lemma resolve_ordinary (cwd : list string) (p : string) :
  ordinary_key cwd -> ordinary_key (resolve cwd p).
Proof.
  intros Hc. unfold resolve. change posixpath.sep with "/"%char.
  assert (H0 : ordinary_key (if posixpath.isabs p then [] else cwd))
    by (destruct (posixpath.isabs p); [constructor|exact Hc]).
  revert H0. generalize (if posixpath.isabs p then [] else cwd).
  pose proof (split_components_no_sep p) as Hs.
  induction Hs as [|c l Hc' Hl IH]; intros acc Ha; [exact Ha|].
  cbn [fold_left]. apply IH, _resolve_step_ordinary; assumption.
Qed.

End Joined_paths.

(** ** The classification of a file, whatever the permissions *)

Section Classification.

Lemma os_mkdir_isdir (k : list string) (w w' : world) :
  os_mkdir k w = (Ret tt, w') ->
  exists st wr rd, fs w' !! k = Some (Dir st wr rd).
Proof.
  unfold os_mkdir. destruct (fs w !! k); [discriminate|].
  destruct (check_dir_writable (fs w) (removelast k)); [|discriminate].
  intros [= <-]. cbn [with_fs fs]. rewrite lookup_insert_eq. eauto.
Qed.

Lemma _makedirs_isdir (rest k : list string) (w w' : world) :
  rest <> [] ->
  _makedirs k rest w = (Ret tt, w') ->
  exists st wr rd, fs w' !! (k ++ rest)%list = Some (Dir st wr rd).
Proof.
  revert k w. induction rest as [|c rest IH]; intros k w Hne; [contradiction|].
  cbn [_makedirs].
  replace (k ++ c :: rest)%list with ((k ++ [c]) ++ rest)%list
    by (rewrite <- app_assoc; reflexivity).
  destruct (fs w !! (k ++ [c])%list) as [[st data img|st wr]|] eqn:E.
  - destruct rest as [|c' rest]; [discriminate|]. apply IH. discriminate.
  - destruct rest as [|c' rest].
    + intros [= <-]. rewrite app_nil_r. eauto.
    + apply IH. discriminate.
  - destruct (os_mkdir (k ++ [c])%list w) as [[[]|e] w1] eqn:Em; [|discriminate].
    destruct rest as [|c' rest].
    + intros [= <-]. rewrite app_nil_r. exact (os_mkdir_isdir _ _ _ Em).
    + apply IH. discriminate.
Qed.

Lemma os_makedirs_isdir (name : string) (w w' : world) :
  resolve (cwd w) name <> [] ->
  os_makedirs name w = (Ret tt, w') ->
  exists st wr rd, fs w' !! resolve (cwd w) name = Some (Dir st wr rd).
Proof.
  unfold os_makedirs. intros Hne. destruct (String.eqb name ""); [discriminate|].
  intros H. exact (_makedirs_isdir _ [] _ _ Hne H).
Qed.

Lemma get_date_range_folder_label (dt origin : datetime) (days : Z)
    (label : string) :
  get_date_range_folder dt origin days = Ret label ->
  exists b, label = bucket_label b.
Proof.
  unfold get_date_range_folder.
  destruct (floordiv _ _); [|discriminate]. cbn [obind].
  destruct (bucket_bounds _ _ _) as [b|]; [|discriminate].
  cbn. intros [= <-]. eauto.
Qed.

Lemma ordinary_key_prefix (k rest : list string) :
  ordinary_key (k ++ rest) -> ordinary_key k.
Proof. unfold ordinary_key. intros H. apply Forall_app in H as [H _]. exact H. Qed.

Lemma wf_insert (w : world) (key : list string) (n : node) :
  wf_world w -> ordinary_key key -> wf_world (with_fs (<[key := n]> (fs w)) w).
Proof.
  intros [Hc Hf] Hk. split; [exact Hc|]. cbn [with_fs fs].
  intros key' n' H. destruct (decide (key' = key)) as [->|N]; [exact Hk|].
  rewrite lookup_insert_ne in H by congruence. exact (Hf _ _ H).
Qed.

Lemma wf_delete (w : world) (key : list string) :
  wf_world w -> wf_world (with_fs (delete key (fs w)) w).
Proof.
  intros [Hc Hf]. split; [exact Hc|]. cbn [with_fs fs].
  intros key' n' H. apply lookup_delete_Some in H as [_ H]. exact (Hf _ _ H).
Qed.

Lemma os_mkdir_wf (k : list string) (w w' : world) (o : outcome unit) :
  wf_world w -> ordinary_key k -> os_mkdir k w = (o, w') -> wf_world w'.
Proof.
  intros Hw Hk. unfold os_mkdir. destruct (fs w !! k); [intros [= <- <-]; exact Hw|].
  destruct (check_dir_writable (fs w) (removelast k)); intros [= <- <-];
    [|exact Hw].
  apply wf_insert; assumption.
Qed.

Lemma _makedirs_wf (rest k : list string) (w w' : world) (o : outcome unit) :
  wf_world w -> ordinary_key (k ++ rest) ->
  _makedirs k rest w = (o, w') -> wf_world w'.
Proof.
  revert k w. induction rest as [|c rest IH]; intros k w Hw Hk.
  - intros [= <- <-]. exact Hw.
  - cbn [_makedirs].
    assert (Hk' : ordinary_key ((k ++ [c]) ++ rest))
      by (rewrite <- app_assoc; exact Hk).
    destruct (fs w !! (k ++ [c])%list) as [[st data img|st wr]|] eqn:E.
    + destruct rest; [intros [= <- <-]; exact Hw|apply IH; assumption].
    + apply IH; assumption.
    + destruct (os_mkdir (k ++ [c])%list w) as [[[]|e] w1] eqn:Em.
      * apply IH; [|assumption].
        exact (os_mkdir_wf _ _ _ _ Hw (ordinary_key_prefix _ _ Hk') Em).
      * intros [= <- <-].
        exact (os_mkdir_wf _ _ _ _ Hw (ordinary_key_prefix _ _ Hk') Em).
Qed.

Lemma os_makedirs_wf (name : string) (w w' : world) (o : outcome unit) :
  wf_world w -> os_makedirs name w = (o, w') -> wf_world w'.
Proof.
  intros Hw. unfold os_makedirs. destruct (String.eqb name "").
  - intros [= <- <-]. exact Hw.
  - apply _makedirs_wf; [exact Hw|]. apply resolve_ordinary, Hw.
Qed.

Lemma prefixes_of_head (k : list string) : In [] (prefixes_of k).
Proof. destruct k; left; reflexivity. Qed.

Lemma os_mkdir_new (k : list string) (w w' : world) (o : outcome unit) :
  os_mkdir k w = (o, w') ->
  forall key n,
    fs w' !! key = Some n ->
    fs w !! key = Some n \/ (is_dir n = true /\ key = k).
Proof.
  unfold os_mkdir. destruct (fs w !! k); [intros [= <- <-]; auto|].
  destruct (check_dir_writable (fs w) (removelast k)); intros [= <- <-];
    [|auto].
  cbn [with_fs fs]. intros key n H.
  destruct (decide (key = k)) as [->|N].
  - rewrite lookup_insert_eq in H. injection H as <-. auto.
  - rewrite lookup_insert_ne in H by congruence. auto.
Qed.

(** What [os.makedirs] adds: directories, at prefixes of the path. *)
Lemma _makedirs_new (rest k : list string) (w w' : world) (o : outcome unit) :
  _makedirs k rest w = (o, w') ->
  forall key n,
    fs w' !! key = Some n ->
    fs w !! key = Some n
    \/ (is_dir n = true /\ In key (map (app k) (prefixes_of rest))).
Proof.
  revert k w. induction rest as [|c rest IH]; intros k w.
  { intros [= <- <-]. auto. }
  cbn [_makedirs].
  assert (Hsub : forall key,
            In key (map (app (k ++ [c])%list) (prefixes_of rest)) ->
            In key (map (app k) (prefixes_of (c :: rest)))).
  { intros key H. apply in_map_iff in H as (p & <- & Hp).
    apply in_map_iff. exists (c :: p). split.
    - rewrite <- app_assoc. reflexivity.
    - cbn [prefixes_of]. right. apply in_map, Hp. }
  assert (Hrec : forall w1,
            _makedirs (k ++ [c])%list rest w1 = (o, w') ->
            forall key n,
              fs w' !! key = Some n ->
              fs w1 !! key = Some n
              \/ (is_dir n = true
                  /\ In key (map (app k) (prefixes_of (c :: rest))))).
  { intros w1 H key n Hk. destruct (IH _ _ H key n Hk) as [?|[? ?]]; auto. }
  destruct (fs w !! (k ++ [c])%list) as [[st data img|st wr]|] eqn:E.
  - destruct rest; [intros [= <- <-]; auto|apply Hrec].
  - apply Hrec.
  - destruct (os_mkdir (k ++ [c])%list w) as [[[]|e] w1] eqn:Em.
    + intros H key n Hk. destruct (Hrec _ H key n Hk) as [H1|?]; [|auto].
      destruct (os_mkdir_new _ _ _ _ Em key n H1) as [?|[Hd ->]]; [auto|].
      right. split; [exact Hd|]. apply Hsub, in_map_iff. exists [].
      split; [apply app_nil_r|apply prefixes_of_head].
    + intros [= <- <-] key n H1.
      destruct (os_mkdir_new _ _ _ _ Em key n H1) as [?|[Hd ->]]; [auto|].
      right. split; [exact Hd|]. apply Hsub, in_map_iff. exists [].
      split; [apply app_nil_r|apply prefixes_of_head].
Qed.

Lemma os_makedirs_new (name : string) (w w' : world) (o : outcome unit) :
  os_makedirs name w = (o, w') ->
  forall key n,
    fs w' !! key = Some n ->
    fs w !! key = Some n
    \/ (is_dir n = true /\ In key (prefixes_of (resolve (cwd w) name))).
Proof.
  unfold os_makedirs. destruct (String.eqb name ""); [intros [= <- <-]; auto|].
  intros H key n Hk. destruct (_makedirs_new _ _ _ _ _ H key n Hk) as [?|[Hd Hin]];
    [auto|]. right. split; [exact Hd|].
  rewrite map_id in Hin. exact Hin.
Qed.

Lemma get_exif_datetime_node (p1 p2 : string) (w1 w2 : world) :
  EXIF_AVAILABLE w1 = EXIF_AVAILABLE w2 ->
  node_at w1 p1 = node_at w2 p2 ->
  fst (get_exif_datetime p1 w1) = fst (get_exif_datetime p2 w2).
Proof.
  intros E N.
  unfold get_exif_datetime, try_except, bind, Image_open, lift, ret.
  rewrite E, N. destruct (EXIF_AVAILABLE w2); cbn [negb]; [|reflexivity].
  destruct (node_at w2 p2) as [[st data [| |d]|st wr]|]; cbn [_getexif];
    try reflexivity.
  destruct (_exif_loop (default [] d)); reflexivity.
Qed.

Lemma pick_timestamp_node (p1 p2 source : string) (w1 w2 : world) :
  EXIF_AVAILABLE w1 = EXIF_AVAILABLE w2 ->
  node_at w1 p1 = node_at w2 p2 ->
  fst (pick_timestamp p1 source w1) = fst (pick_timestamp p2 source w2).
Proof.
  intros E N. unfold pick_timestamp, bind.
  destruct (String.eqb source "exif").
  - pose proof (get_exif_datetime_node p1 p2 w1 w2 E N) as Eo.
    destruct (get_exif_datetime_total p1 w1) as (o1 & opens1 & E1).
    destruct (get_exif_datetime_total p2 w2) as (o2 & opens2 & E2).
    rewrite E1, E2 in *. cbn [fst] in Eo. injection Eo as ->.
    destruct o2 as [dt|]; [reflexivity|].
    unfold os_stat, node_at in *. cbn [fs cwd]. rewrite N.
    destruct (if String.eqb p2 "" then None else fs w2 !! resolve (cwd w2) p2);
      reflexivity.
  - unfold ret, os_stat. rewrite N. destruct (node_at w2 p2); reflexivity.
Qed.

(** The classification of a file, case by case.  [w1] is the state after
    the directories were made (or the state at the exception before). *)
Lemma sort_file_cases (w : world) (path dst_root source : string)
    (origin : datetime) (days : Z)
    (st : stat_result) (data : string) (img : pil_image) :
  node_at w path = Some (File st data img) ->
  exists w1,
    cwd w1 = cwd w /\ stdout w1 = stdout w
    /\ EXIF_AVAILABLE w1 = EXIF_AVAILABLE w
    /\ now w1 = now w
    /\ (forall key n, fs w !! key = Some n -> fs w1 !! key = Some n)
    /\ (wf_world w -> wf_world w1)
    /\ (forall key n,
          fs w1 !! key = Some n ->
          fs w !! key = Some n
          \/ (is_dir n = true
              /\ exists dt label,
                   fst (pick_timestamp path source w) = Ret dt
                   /\ get_date_range_folder dt origin days = Ret label
                   /\ In key (prefixes_of
                                (resolve (cwd w)
                                   (posixpath.join dst_root label)))))
    /\ ((exists e, sort_file path dst_root source origin days w = (Raise e, w1))
        \/ (exists e dst,
              sort_file path dst_root source origin days w
              = (Raise e,
                 with_fs (<[resolve (cwd w) dst
                            := File (mkstat (st_mtime st) (now w)) data img]>
                            (fs w1))
                         w1)
              /\ fs w1 !! resolve (cwd w) dst = None)
        \/ (exists dt label dst,
              fst (pick_timestamp path source w) = Ret dt
              /\ get_date_range_folder dt origin days = Ret label
              /\ (dst = posixpath.join (posixpath.join dst_root label)
                          (posixpath.basename path)
                  \/ exists k,
                       1 <= k
                       /\ dst
                          = candidate
                              (fst (posixpath.splitext
                                      (posixpath.join
                                         (posixpath.join dst_root label)
                                         (posixpath.basename path))))
                              (snd (posixpath.splitext
                                      (posixpath.join
                                         (posixpath.join dst_root label)
                                         (posixpath.basename path)))) k)
              /\ (resolve (cwd w) (posixpath.join dst_root label) <> [] ->
                  exists st' wr rd,
                    fs w1 !! resolve (cwd w) (posixpath.join dst_root label)
                    = Some (Dir st' wr rd))
              /\ fs w1 !! resolve (cwd w) dst = None
              /\ String.eqb dst "" = false
              /\ sort_file path dst_root source origin days w
                 = print ("Moved " +:+ posixpath.basename path +:+ " → "
                          +:+ label +:+ "/")
                     (with_fs (<[resolve (cwd w) dst
                                 := File (mkstat (st_mtime st) (now w)) data
                                      img]>
                                 (delete (resolve (cwd w) path) (fs w1)))
                              w1))).
Proof.
  intros Hsrc.
  remember (sort_file path dst_root source origin days w) as r eqn:Er.
  unfold sort_file in Er. unfold bind at 1 in Er.
  destruct (pick_timestamp_fs path source w) as (o & opens & Ep).
  rewrite Ep in *. cbn [fst].
  set (w0 := mkworld (fs w) (cwd w) (EXIF_AVAILABLE w) (now w) (stdout w) opens)
    in *.
  destruct o as [dt|e].
  2: { exists w0. do 5 (split; [auto|]). split; [intros Hw; exact Hw|].
       split; [intros key n Hk; left; exact Hk|]. left. eauto. }
  unfold bind at 1 in Er. unfold lift in Er.
  destruct (get_date_range_folder dt origin days) as [label|e] eqn:El.
  2: { exists w0. do 5 (split; [auto|]). split; [intros Hw; exact Hw|].
       split; [intros key n Hk; left; exact Hk|]. left. eauto. }
  unfold bind at 1 in Er.
  destruct (os_makedirs (posixpath.join dst_root label) w0) as [o1 w1] eqn:Em.
  pose proof (os_makedirs_dirs_added _ _ _ _ Em) as (C1 & L1 & _).
  pose proof (os_makedirs_settings _ _ _ _ Em) as (T1 & X1 & S1 & _).
  cbn [fs cwd now stdout EXIF_AVAILABLE w0] in C1, L1, T1, X1, S1.
  exists w1. do 5 (split; [assumption|]).
  split; [intros Hw; exact (os_makedirs_wf _ w0 w1 _ Hw Em)|].
  split.
  { intros key n Hk.
    destruct (os_makedirs_new _ w0 w1 _ Em key n Hk) as [?|[Hd Hin]]; [auto|].
    right. split; [exact Hd|]. exists dt, label. auto. }
  destruct o1 as [[]|e]; [|left; eauto].
  unfold bind at 1 in Er.
  destruct (ensure_unique_result w1
              (posixpath.join (posixpath.join dst_root label)
                 (posixpath.basename path)))
    as (dst & Eu & Hfree & Hsame & Hnum).
  rewrite Eu in Er. unfold bind at 1 in Er.
  assert (Hsrc1 : node_at w1 path = Some (File st data img)).
  { unfold node_at in *. destruct (String.eqb path ""); [discriminate|].
    rewrite C1. auto. }
  destruct (shutil_move_file_any w1 path dst st data img Hsrc1 Hfree)
    as [(Emv & Hne & Hnone & Hdst & _)|[(e & Emv)
                                       |(e & e0 & Emv & Hne & Hnone & _)]];
    rewrite Emv in Er; try rewrite C1 in *; try rewrite T1 in *.
  - right. right. exists dt, label, dst.
    split; [reflexivity|]. split; [exact El|]. split.
    { destruct (path_exists w1 (posixpath.join (posixpath.join dst_root label)
                                  (posixpath.basename path))) eqn:Ex.
      - right. destruct (Hnum eq_refl) as (k & Hk & -> & _). eauto.
      - left. apply Hsame. reflexivity. }
    split.
    { intros Hne'. apply (os_makedirs_isdir _ w0 w1 Hne' Em). }
    split; [assumption|]. split; [assumption|]. exact Er.
  - left. eauto.
  - right. left. eauto.
Qed.

End Classification.

(** X10.  Whatever the permissions of the directories, the
    classification of a file never loses it and never touches another
    entry: every entry of the file system other than the source is
    afterwards where and what it was, and the file is at the source, as
    it was, or at a destination that was free, with its data, its picture
    and its modification time.  When [sort_file] returns, the file is
    gone from the source and is at the destination; when it raises, the
    file is still at the source, or it was moved and the exception came
    after the move. *)
Theorem sort_file_spares_the_rest (w : world) (path dst_root source : string)
    (origin : datetime) (days : Z)
    (st : stat_result) (data : string) (img : pil_image) :
  node_at w path = Some (File st data img) ->
  let moved (w' : world) :=
    fs w' !! resolve (cwd w) path = None
    /\ exists dst,
         fs w !! resolve (cwd w) dst = None
         /\ fs w' !! resolve (cwd w) dst
            = Some (File (mkstat (st_mtime st) (now w)) data img) in
  match sort_file path dst_root source origin days w with
  | (o, w') =>
      (forall key n,
         fs w !! key = Some n -> key <> resolve (cwd w) path ->
         fs w' !! key = Some n)
      /\ match o with
         | Ret _ => moved w'
         | Raise _ =>
             fs w' !! resolve (cwd w) path = Some (File st data img)
             \/ moved w'
         end
  end.
Proof.
  intros Hsrc moved.
  assert (Hkey : fs w !! resolve (cwd w) path = Some (File st data img)).
  { unfold node_at in Hsrc. destruct (String.eqb path ""); [discriminate|].
    exact Hsrc. }
  destruct (sort_file_cases w path dst_root source origin days st data img Hsrc)
    as (w1 & C1 & S1 & X1 & T1 & L1 & _ & _
        & [(e & ->)|[(e & dst & -> & Hnone)
                    |(dt & label & dst & _ & _ & _ & _ & Hnone & Hdst & ->)]]).
  - split; [intros key n H _; apply L1, H|left; apply L1, Hkey].
  - cbn [with_fs fs]. split.
    + intros key n H _. apply L1 in H.
      rewrite lookup_insert_ne by congruence. exact H.
    + left. apply L1 in Hkey. rewrite lookup_insert_ne by congruence.
      exact Hkey.
  - assert (Hm : moved (with_fs (<[resolve (cwd w) dst
                                   := File (mkstat (st_mtime st) (now w)) data
                                        img]>
                                   (delete (resolve (cwd w) path) (fs w1))) w1)).
    { unfold moved. cbn [with_fs fs]. split.
      - apply L1 in Hkey. rewrite lookup_insert_ne by congruence.
        apply lookup_delete_eq.
      - exists dst. split; [|apply lookup_insert_eq].
        destruct (fs w !! resolve (cwd w) dst) eqn:E; [|reflexivity].
        apply L1 in E. congruence. }
    assert (Hrest : forall key n,
              fs w !! key = Some n -> key <> resolve (cwd w) path ->
              fs (with_fs (<[resolve (cwd w) dst
                             := File (mkstat (st_mtime st) (now w)) data img]>
                             (delete (resolve (cwd w) path) (fs w1))) w1) !! key
              = Some n).
    { cbn [with_fs fs]. intros key n H Hne. apply L1 in H.
      rewrite lookup_insert_ne by congruence.
      rewrite lookup_delete_ne by congruence. exact H. }
    unfold print. destruct (utf8 _); (split; [exact Hrest|auto]).
Qed.

Lemma sort_file_spares_the_rest_witness :
  match sort_file "/w/ro/shot.png" "/w/out" "mtime" ORIGIN_DATE 10
          Examples.readonly_source with
  | (o, w') =>
      (forall key n,
         fs Examples.readonly_source !! key = Some n ->
         key <> resolve (cwd Examples.readonly_source) "/w/ro/shot.png" ->
         fs w' !! key = Some n)
      /\ match o with
         | Ret _ =>
             fs w' !! resolve (cwd Examples.readonly_source) "/w/ro/shot.png"
             = None
             /\ exists dst,
                  fs Examples.readonly_source
                  !! resolve (cwd Examples.readonly_source) dst = None
                  /\ fs w' !! resolve (cwd Examples.readonly_source) dst
                     = Some (Examples.placed Examples.t_0513 "data")
         | Raise _ =>
             fs w' !! resolve (cwd Examples.readonly_source) "/w/ro/shot.png"
             = Some (Examples.png Examples.t_0513 "data")
             \/ (fs w' !! resolve (cwd Examples.readonly_source)
                            "/w/ro/shot.png" = None
                 /\ exists dst,
                      fs Examples.readonly_source
                      !! resolve (cwd Examples.readonly_source) dst = None
                      /\ fs w' !! resolve (cwd Examples.readonly_source) dst
                         = Some (Examples.placed Examples.t_0513 "data"))
         end
  end.
Proof.
  apply (sort_file_spares_the_rest Examples.readonly_source "/w/ro/shot.png"
           "/w/out" "mtime" ORIGIN_DATE 10
           (mkstat Examples.t_0513 Examples.t_0513) "data" NoGetexif).
  vm_compute. reflexivity.
Defined.

(** X11.  Where a file goes.  When [sort_file] returns for a file with an
    ordinary name, the file is an entry of the directory
    [dst_root/label], where [label] is the folder name of the instant
    that [pick_timestamp] gave: under its own name, or under its name
    with [_k] added (k at least 1) before a final part; that entry was
    free before; the file has there its data, its picture and its
    modification time, and the time of the move as its status time;
    [dst_root/label] is a directory; and one line is printed,
    [Moved <name> → <label>/]. *)
Theorem sort_file_destination (w w' : world) (path dst_root source : string)
    (origin : datetime) (days : Z)
    (st : stat_result) (data : string) (img : pil_image) :
  node_at w path = Some (File st data img) ->
  ordinary_name (posixpath.basename path) = true ->
  sort_file path dst_root source origin days w = (Ret tt, w') ->
  exists (dt : datetime) (label name' : string),
    fst (pick_timestamp path source w) = Ret dt
    /\ get_date_range_folder dt origin days = Ret label
    /\ (name' = posixpath.basename path
        \/ exists k stem ext,
             1 <= k /\ stem +:+ ext = posixpath.basename path
             /\ name' = stem +:+ "_" +:+ str_int k +:+ ext)
    /\ (exists st' wr rd,
          fs w' !! (resolve (cwd w) dst_root ++ [label])%list
          = Some (Dir st' wr rd))
    /\ fs w !! (resolve (cwd w) dst_root ++ [label; name'])%list = None
    /\ fs w' !! (resolve (cwd w) dst_root ++ [label; name'])%list
       = Some (File (mkstat (st_mtime st) (now w)) data img)
    /\ fs w' !! resolve (cwd w) path = None
    /\ stdout w'
       = ("Moved " +:+ posixpath.basename path +:+ " → " +:+ label +:+ "/")
         :: stdout w.
Proof.
  intros Hsrc Hname Hret.
  assert (Hkey : fs w !! resolve (cwd w) path = Some (File st data img)).
  { unfold node_at in Hsrc. destruct (String.eqb path ""); [discriminate|].
    exact Hsrc. }
  destruct (sort_file_cases w path dst_root source origin days st data img Hsrc)
    as (w1 & C1 & S1 & X1 & T1 & L1 & _ & _
        & [(e & E)|[(e & dst & E & Hnone)
                   |(dt & label & dst & Hdt & Hl & Hform & Hdir & Hnone & Hdst & E)]]);
    rewrite E in Hret; try discriminate.
  unfold print in Hret. destruct (utf8 _); [|discriminate].
  injection Hret as <-. cbn [with_fs fs stdout].
  destruct (get_date_range_folder_label _ _ _ _ Hl) as (b & Eb).
  assert (Hlab : ordinary_name label = true)
    by (rewrite Eb; apply bucket_label_ordinary).
  pose proof (resolve_join (cwd w) dst_root label Hlab) as Rt.
  pose proof (resolve_join (cwd w) (posixpath.join dst_root label)
                (posixpath.basename path) Hname) as Rw.
  rewrite Rt in Rw. rewrite <- app_assoc in Rw. cbn [app] in Rw.
  destruct Hdir as (st' & wr & rd & Hd);
    [rewrite Rt; intros Hnil; apply app_eq_nil in Hnil as [_ Hnil];
     discriminate|].
  rewrite Rt in Hd.
  apply L1 in Hkey.
  assert (Hk : exists name',
             (name' = posixpath.basename path
              \/ exists k stem ext,
                   1 <= k /\ stem +:+ ext = posixpath.basename path
                   /\ name' = stem +:+ "_" +:+ str_int k +:+ ext)
             /\ resolve (cwd w) dst
                = (resolve (cwd w) dst_root ++ [label; name'])%list).
  { destruct Hform as [->|(k & Hk & ->)].
    - exists (posixpath.basename path). split; [left; reflexivity|exact Rw].
    - destruct (candidate_in_directory (cwd w) (posixpath.join dst_root label)
                  (posixpath.basename path) Hname) as (stem & Es & Ek).
      exists (stem +:+ "_" +:+ str_int k
              +:+ snd (posixpath.splitext
                         (posixpath.join (posixpath.join dst_root label)
                            (posixpath.basename path)))).
      split; [right; eexists k, stem, _; split; [exact Hk|];
              split; [exact Es|reflexivity]|].
      rewrite Ek, Rt, <- app_assoc. reflexivity. }
  destruct Hk as (name' & Hn' & Ekey). rewrite Ekey in *.
  exists dt, label, name'.
  split; [exact Hdt|]. split; [exact Hl|]. split; [exact Hn'|].
  split; [|split; [|split; [|split]]].
  - exists st', wr, rd. rewrite lookup_insert_ne by congruence.
    rewrite lookup_delete_ne by congruence. exact Hd.
  - destruct (fs w !! (resolve (cwd w) dst_root ++ [label; name'])%list) eqn:E';
      [|reflexivity].
    apply L1 in E'. congruence.
  - apply lookup_insert_eq.
  - rewrite lookup_insert_ne by congruence. apply lookup_delete_eq.
  - rewrite S1. reflexivity.
Qed.

Lemma sort_file_destination_witness :
  exists (dt : datetime) (label name' : string),
    fst (pick_timestamp "/w/a.png" "mtime" Examples.one_file) = Ret dt
    /\ get_date_range_folder dt ORIGIN_DATE 10 = Ret label
    /\ (name' = posixpath.basename "/w/a.png"
        \/ exists k stem ext,
             1 <= k /\ stem +:+ ext = posixpath.basename "/w/a.png"
             /\ name' = stem +:+ "_" +:+ str_int k +:+ ext)
    /\ (exists st' wr rd,
          fs (snd (sort_file "/w/a.png" "/out" "mtime" ORIGIN_DATE 10
                     Examples.one_file))
          !! (resolve (cwd Examples.one_file) "/out" ++ [label])%list
          = Some (Dir st' wr rd))
    /\ fs Examples.one_file
       !! (resolve (cwd Examples.one_file) "/out" ++ [label; name'])%list = None
    /\ fs (snd (sort_file "/w/a.png" "/out" "mtime" ORIGIN_DATE 10
                  Examples.one_file))
       !! (resolve (cwd Examples.one_file) "/out" ++ [label; name'])%list
       = Some (Examples.placed Examples.t_0513 "A")
    /\ fs (snd (sort_file "/w/a.png" "/out" "mtime" ORIGIN_DATE 10
                  Examples.one_file))
       !! resolve (cwd Examples.one_file) "/w/a.png" = None
    /\ stdout (snd (sort_file "/w/a.png" "/out" "mtime" ORIGIN_DATE 10
                      Examples.one_file))
       = ("Moved " +:+ posixpath.basename "/w/a.png" +:+ " → " +:+ label
          +:+ "/") :: stdout Examples.one_file.
Proof.
  apply (sort_file_destination Examples.one_file _ "/w/a.png" "/out" "mtime"
           ORIGIN_DATE 10 (mkstat Examples.t_0513 Examples.t_0513) "A"
           NoGetexif).
  - vm_compute. reflexivity.
  - vm_compute. reflexivity.
  - vm_compute. reflexivity.
Defined.

(** The instant of a file depends on its picture and, for a source
    other than the creation time, on its modification time only. *)
Lemma pick_timestamp_same_file (p1 p2 source : string) (w1 w2 : world)
    (st1 st2 : stat_result) (data1 data2 : string) (img : pil_image) :
  EXIF_AVAILABLE w1 = EXIF_AVAILABLE w2 ->
  node_at w1 p1 = Some (File st1 data1 img) ->
  node_at w2 p2 = Some (File st2 data2 img) ->
  st_mtime st1 = st_mtime st2 ->
  String.eqb source "ctime" = false ->
  fst (pick_timestamp p1 source w1) = fst (pick_timestamp p2 source w2).
Proof.
  intros E N1 N2 Hm Hs. unfold pick_timestamp, bind. rewrite Hs. cbn [negb].
  assert (Eo : fst (get_exif_datetime p1 w1) = fst (get_exif_datetime p2 w2)).
  { unfold get_exif_datetime, try_except, bind, Image_open, lift, ret.
    rewrite E, N1, N2. destruct (EXIF_AVAILABLE w2); cbn [negb]; [|reflexivity].
    destruct img as [| |d]; cbn [_getexif]; try reflexivity.
    destruct (_exif_loop (default [] d)); reflexivity. }
  destruct (String.eqb source "exif").
  - destruct (get_exif_datetime_total p1 w1) as (o1 & opens1 & E1).
    destruct (get_exif_datetime_total p2 w2) as (o2 & opens2 & E2).
    rewrite E1, E2 in *. cbn [fst] in Eo. injection Eo as ->.
    destruct o2 as [dt|]; [reflexivity|].
    unfold os_stat, node_at in *. cbn [fs cwd].
    destruct (String.eqb p1 ""); [discriminate|].
    destruct (String.eqb p2 ""); [discriminate|].
    rewrite N1, N2. unfold lift. cbn [node_stat fst]. rewrite Hm. reflexivity.
  - unfold ret, os_stat. rewrite N1, N2. unfold lift. cbn [node_stat fst].
    rewrite Hm. reflexivity.
Qed.

(** X12.  The classification is stable under the move.  For a time
    source other than the creation time, the file that [sort_file] has
    placed gives, at its new place, the same instant as before the move,
    hence the same folder name: classified again, it does not change
    folder. *)
Theorem sort_file_stable (w w' : world) (path dst_root source : string)
    (origin : datetime) (days : Z)
    (st : stat_result) (data : string) (img : pil_image) :
  node_at w path = Some (File st data img) ->
  String.eqb source "ctime" = false ->
  sort_file path dst_root source origin days w = (Ret tt, w') ->
  exists (dst : string) (dt : datetime) (label : string),
    node_at w' dst = Some (File (mkstat (st_mtime st) (now w)) data img)
    /\ fst (pick_timestamp path source w) = Ret dt
    /\ fst (pick_timestamp dst source w') = Ret dt
    /\ get_date_range_folder dt origin days = Ret label.
Proof.
  intros Hsrc Hsource Hret.
  destruct (sort_file_cases w path dst_root source origin days st data img Hsrc)
    as (w1 & C1 & S1 & X1 & T1 & L1 & _ & _
        & [(e & E)|[(e & dst & E & Hnone)
                   |(dt & label & dst & Hdt & Hl & Hform & Hdir & Hnone & Hdst & E)]]);
    rewrite E in Hret; try discriminate.
  unfold print in Hret. destruct (utf8 _); [|discriminate].
  injection Hret as Hw'.
  assert (Hn : node_at w' dst
               = Some (File (mkstat (st_mtime st) (now w)) data img)).
  { rewrite <- Hw'. unfold node_at. cbn [with_fs fs cwd]. rewrite Hdst, C1.
    apply lookup_insert_eq. }
  assert (HX : EXIF_AVAILABLE w' = EXIF_AVAILABLE w).
  { rewrite <- Hw'. exact X1. }
  exists dst, dt, label.
  split; [exact Hn|]. split; [exact Hdt|]. split; [|exact Hl].
  rewrite <- Hdt.
  apply (pick_timestamp_same_file dst path source w' w _ st data data img HX Hn
           Hsrc eq_refl Hsource).
Qed.

Lemma sort_file_stable_witness :
  exists (dst : string) (dt : datetime) (label : string),
    node_at (snd (sort_file "/w/a.png" "/out" "mtime" ORIGIN_DATE 10
                    Examples.one_file)) dst
    = Some (Examples.placed Examples.t_0513 "A")
    /\ fst (pick_timestamp "/w/a.png" "mtime" Examples.one_file) = Ret dt
    /\ fst (pick_timestamp dst "mtime"
              (snd (sort_file "/w/a.png" "/out" "mtime" ORIGIN_DATE 10
                      Examples.one_file))) = Ret dt
    /\ get_date_range_folder dt ORIGIN_DATE 10 = Ret label.
Proof.
  apply (sort_file_stable Examples.one_file _ "/w/a.png" "/out" "mtime"
           ORIGIN_DATE 10 (mkstat Examples.t_0513 Examples.t_0513) "A"
           NoGetexif).
  - vm_compute. reflexivity.
  - reflexivity.
  - vm_compute. reflexivity.
Defined.

(** ** The check of the destination root, for paths in normal form *)

Section Common_prefix.

Lemma _common_common_prefix (a b : list string) :
  (forall t, t <> [] -> a <> (b ++ t)%list) ->
  posixpath._common a b = Ret (common_prefix a b).
Proof.
  revert b. induction a as [|x a IH]; intros b H; [reflexivity|].
  destruct b as [|y b].
  - exfalso. apply (H (x :: a)); [discriminate|reflexivity].
  - cbn. destruct (String.eqb_spec x y) as [->|N]; [|reflexivity].
    rewrite IH; [reflexivity|].
    intros t Ht E. apply (H t Ht). cbn. rewrite E. reflexivity.
Qed.

Lemma common_prefix_comm (a b : list string) :
  common_prefix a b = common_prefix b a.
Proof.
  revert b. induction a as [|x a IH]; intros [|y b]; try reflexivity.
  cbn. rewrite (String.eqb_sym y x).
  destruct (String.eqb_spec x y) as [->|N]; [|reflexivity].
  rewrite IH. reflexivity.
Qed.

Lemma common_prefix_prefix (a b : list string) :
  common_prefix a b `prefix_of` a.
Proof.
  revert b. induction a as [|x a IH]; intros [|y b]; cbn;
    try apply prefix_nil.
  destruct (String.eqb x y); [|apply prefix_nil].
  apply prefix_cons, IH.
Qed.

Lemma common_prefix_app (b k : list string) :
  common_prefix (b ++ k) b = b.
Proof.
  induction b as [|y b IH]; [destruct k; reflexivity|].
  cbn. rewrite String.eqb_refl, IH. reflexivity.
Qed.

Lemma common_prefix_right (a b : list string) :
  common_prefix a b = b <-> b `prefix_of` a.
Proof.
  split.
  - intros <-. apply common_prefix_prefix.
  - intros [k ->]. apply common_prefix_app.
Qed.

Lemma normal_path_inj (abs : bool) (a b : list string) :
  Forall (fun c => clean_component c = true) a ->
  Forall (fun c => clean_component c = true) b ->
  normal_path abs a = normal_path abs b -> a = b.
Proof.
  intros Ha Hb E.
  rewrite <- (clean_split_normal_path abs a Ha),
          <- (clean_split_normal_path abs b Hb), E.
  reflexivity.
Qed.

(** [commonpath] of two paths in normal form, of the same kind. *)
Lemma commonpath_normal (abs : bool) (l1 l2 : list string) :
  Forall (fun c => clean_component c = true) l1 ->
  Forall (fun c => clean_component c = true) l2 ->
  posixpath.commonpath (normal_path abs l1) (normal_path abs l2)
  = Ret (normal_path abs (common_prefix l1 l2)).
Proof.
  intros H1 H2. unfold posixpath.commonpath. cbv zeta.
  rewrite !isabs_normal_path by assumption.
  rewrite Bool.eqb_reflx. cbn [negb].
  rewrite !clean_split_normal_path by assumption.
  destruct (posixpath.list_leb l1 l2) eqn:E.
  - rewrite _common_common_prefix; [reflexivity|].
    intros t Ht ->. apply list_leb_app_nil in E. contradiction.
  - rewrite _common_common_prefix.
    + rewrite (common_prefix_comm l2 l1). reflexivity.
    + intros t Ht ->. rewrite list_leb_prefix in E. discriminate.
Qed.

End Common_prefix.

(** X13.  The check of line 119 is exact for paths in normal form: a file
    whose path does not lie below the destination root, component by
    component, is never skipped; the sweep hands it to the
    classification.  (A directory [/w/outer] beside the root [/w/out] is
    not taken to be inside it.) *)
Theorem sweep_file_outside_root (source : string) (origin : datetime)
    (days : Z) (exts : gset string) (abs : bool) (l1 comps : list string)
    (root f : string) (w : world) :
  Forall (fun c => clean_component c = true) l1 ->
  Forall (fun c => clean_component c = true) comps ->
  posixpath.join root f = normal_path abs l1 ->
  sweep_eligible f exts = true ->
  ~ comps `prefix_of` l1 ->
  sweep_file root f (normal_path abs comps) source origin days exts w
  = sort_file (posixpath.join root f) (normal_path abs comps) source origin
      days w.
Proof.
  intros H1 H2 E He Hn. unfold sweep_file. rewrite He.
  unfold bind, lift. rewrite E, commonpath_normal by assumption.
  destruct (String.eqb_spec (normal_path abs (common_prefix l1 comps))
              (normal_path abs comps)) as [Eq|_]; [|reflexivity].
  exfalso. apply Hn, common_prefix_right.
  apply (normal_path_inj abs); [|assumption|exact Eq].
  destruct (common_prefix_prefix l1 comps) as [k Hk].
  rewrite Hk in H1. apply Forall_app in H1 as [H1 _]. exact H1.
Qed.

Lemma sweep_file_outside_root_witness :
  sweep_file "/w/outer" "a.png" (normal_path true ["w"; "out"]) "mtime"
    ORIGIN_DATE 10 {["png"]} Examples.one_file
  = sort_file (posixpath.join "/w/outer" "a.png") (normal_path true ["w"; "out"])
      "mtime" ORIGIN_DATE 10 Examples.one_file.
Proof.
  apply (sweep_file_outside_root "mtime" ORIGIN_DATE 10 {["png"]} true
           ["w"; "outer"; "a.png"] ["w"; "out"] "/w/outer" "a.png"
           Examples.one_file).
  - repeat constructor.
  - repeat constructor.
  - reflexivity.
  - vm_compute. reflexivity.
  - intros [k Hk]. injection Hk as Hk _. discriminate.
Defined.

(** ** The order of the folder names *)

Section Order.

Ltac ndiv_lia := zify; Z.to_euclidean_division_equations; lia.

Lemma N_of_ascii_pretty (a : N) :
  (a < 10)%N -> N_of_ascii (pretty_N_char a) = (48 + a)%N.
Proof.
  intros H.
  assert (a = 0 \/ a = 1 \/ a = 2 \/ a = 3 \/ a = 4 \/ a = 5 \/ a = 6
          \/ a = 7 \/ a = 8 \/ a = 9)%N as C by lia.
  repeat (destruct C as [->|C]; [reflexivity|]). subst a. reflexivity.
Qed.

Lemma compare_pretty (a b : N) :
  (a < 10)%N -> (b < 10)%N ->
  Ascii.compare (pretty_N_char a) (pretty_N_char b) = (a ?= b)%N.
Proof.
  intros Ha Hb. unfold Ascii.compare. rewrite !N_of_ascii_pretty by assumption.
  destruct (N.compare_spec (48 + a) (48 + b)), (N.compare_spec a b);
    try reflexivity; lia.
Qed.

(** The order of two texts that begin with two digits. *)
Lemma compare_digits2 (x y : Z) (s t : string) :
  0 <= x <= 99 -> 0 <= y <= 99 ->
  String.compare (digits2 x +:+ s) (digits2 y +:+ t)
  = match x ?= y with
    | Eq => String.compare s t
    | c => c
    end.
Proof.
  intros Hx Hy. unfold digits2. cbv zeta.
  set (a := Z.to_N x). set (b := Z.to_N y).
  assert (Ea : x = Z.of_N a) by lia. assert (Eb : y = Z.of_N b) by lia.
  assert (Ha : (a < 100)%N) by lia. assert (Hb : (b < 100)%N) by lia.
  clearbody a b. subst x y.
  rewrite !app_cons_s, !app_nil_l_s. cbn [String.compare].
  rewrite !compare_pretty
    by (try (apply N.Div0.div_lt_upper_bound; lia); apply N.mod_lt; lia).
  destruct (N.compare_spec (a / 10) (b / 10)) as [E1|L1|L1].
  - destruct (N.compare_spec (a mod 10) (b mod 10)) as [E2|L2|L2].
    + replace (Z.of_N a ?= Z.of_N b) with Eq; [reflexivity|].
      symmetry. apply Z.compare_eq_iff.
      rewrite (N_decimal_2 a), (N_decimal_2 b), E1, E2. reflexivity.
    + replace (Z.of_N a ?= Z.of_N b) with Lt; [reflexivity|].
      symmetry. apply Z.compare_lt_iff.
      rewrite (N_decimal_2 a), (N_decimal_2 b), E1. lia.
    + replace (Z.of_N a ?= Z.of_N b) with Gt; [reflexivity|].
      symmetry. apply Z.compare_gt_iff.
      rewrite (N_decimal_2 a), (N_decimal_2 b), E1. lia.
  - replace (Z.of_N a ?= Z.of_N b) with Lt; [reflexivity|].
    symmetry. apply Z.compare_lt_iff. ndiv_lia.
  - replace (Z.of_N a ?= Z.of_N b) with Gt; [reflexivity|].
    symmetry. apply Z.compare_gt_iff. ndiv_lia.
Qed.

(** The order of two texts that begin with four digits. *)
Lemma compare_digits4 (x y : Z) (s t : string) :
  0 <= x <= 9999 -> 0 <= y <= 9999 ->
  String.compare (digits4 x +:+ s) (digits4 y +:+ t)
  = match x ?= y with
    | Eq => String.compare s t
    | c => c
    end.
Proof.
  intros Hx Hy.
  assert (D : forall n, 0 <= n <= 9999 ->
                digits4 n = digits2 (n / 100) +:+ digits2 (n mod 100)).
  { intros n Hn. unfold digits4, digits2. cbv zeta.
    rewrite !app_cons_s, app_nil_l_s.
    replace (Z.to_N (n / 100)) with (Z.to_N n / 100)%N by ndiv_lia.
    replace (Z.to_N (n mod 100)) with (Z.to_N n mod 100)%N by ndiv_lia.
    set (a := Z.to_N n). assert (Ha : (a < 10000)%N) by lia. clearbody a.
    replace (a / 100 / 10)%N with (a / 1000)%N by ndiv_lia.
    replace (a mod 100 / 10)%N with (a / 10 mod 10)%N by ndiv_lia.
    replace ((a mod 100) mod 10)%N with (a mod 10)%N by ndiv_lia.
    reflexivity. }
  rewrite (D x Hx), (D y Hy), !app_assoc_s.
  rewrite compare_digits2 by (Z.to_euclidean_division_equations; lia).
  rewrite compare_digits2 by (Z.to_euclidean_division_equations; lia).
  destruct (Z.compare_spec (x / 100) (y / 100)) as [E1|L1|L1].
  - destruct (Z.compare_spec (x mod 100) (y mod 100)) as [E2|L2|L2].
    + replace (x ?= y) with Eq; [reflexivity|].
      symmetry. apply Z.compare_eq_iff.
      rewrite (Z.div_mod x 100), (Z.div_mod y 100), E1, E2 by lia. reflexivity.
    + replace (x ?= y) with Lt; [reflexivity|].
      symmetry. apply Z.compare_lt_iff.
      rewrite (Z.div_mod x 100), (Z.div_mod y 100), E1 by lia. lia.
    + replace (x ?= y) with Gt; [reflexivity|].
      symmetry. apply Z.compare_gt_iff.
      rewrite (Z.div_mod x 100), (Z.div_mod y 100), E1 by lia. lia.
  - replace (x ?= y) with Lt; [reflexivity|].
    symmetry. apply Z.compare_lt_iff. Z.to_euclidean_division_equations; lia.
  - replace (x ?= y) with Gt; [reflexivity|].
    symmetry. apply Z.compare_gt_iff. Z.to_euclidean_division_equations; lia.
Qed.

(** A later date has a later year, or the same year and a later month, or
    the same month and a later day. *)
Lemma toordinal_lt_fields (d1 d2 : date) :
  valid_date d1 = true -> valid_date d2 = true ->
  toordinal d1 < toordinal d2 ->
  year d1 < year d2
  \/ (year d1 = year d2
      /\ (month d1 < month d2
          \/ (month d1 = month d2 /\ day d1 < day d2))).
Proof.
  intros V1 V2 L.
  pose proof (toordinal_in_year d1 V1) as I1.
  pose proof (toordinal_in_year d2 V2) as I2.
  destruct (Z.lt_trichotomy (year d1) (year d2)) as [Ly|[Ey|Ly]];
    [left; exact Ly| |].
  2: { pose proof (_days_before_year_mono (year d2 + 1) (year d1) ltac:(lia)).
       lia. }
  right. split; [exact Ey|].
  apply valid_date_fields in V1 as (_ & Hm1 & Hd1).
  apply valid_date_fields in V2 as (_ & Hm2 & Hd2).
  destruct d1 as [y1 m1 dd1], d2 as [y2 m2 dd2]. cbn [year month day] in *.
  subst y2. unfold toordinal, _ymd2ord, _days_before_month, _days_in_month in *.
  cbn [year month day] in *.
  destruct (_is_leap y1);
    destruct (month_cases _ Hm1) as [E1|[E1|[E1|[E1|[E1|[E1|[E1|[E1|[E1|[E1|[E1|E1]]]]]]]]]]];
    destruct (month_cases _ Hm2) as [E2|[E2|[E2|[E2|[E2|[E2|[E2|[E2|[E2|[E2|[E2|E2]]]]]]]]]]];
    rewrite E1, E2 in *; cbn in *; lia.
Qed.

(** From the year 1000 on, the text of an earlier date comes first. *)
Lemma strftime_Ymd_lt (d1 d2 : date) (s t : string) :
  valid_date d1 = true -> valid_date d2 = true ->
  1000 <= year d1 ->
  toordinal d1 < toordinal d2 ->
  String.compare (strftime_Ymd d1 +:+ s) (strftime_Ymd d2 +:+ t) = Lt.
Proof.
  intros V1 V2 Hy L.
  pose proof (toordinal_lt_fields d1 d2 V1 V2 L) as F.
  pose proof (year_mono d1 d2 V1 V2 ltac:(lia)) as Hyy.
  rewrite !strftime_Ymd_digits by (assumption || lia).
  apply valid_date_fields in V1 as (Hy1 & Hm1 & Hd1).
  apply valid_date_fields in V2 as (Hy2 & Hm2 & Hd2).
  pose proof (_days_in_month_le_31 (year d1) (month d1)).
  pose proof (_days_in_month_le_31 (year d2) (month d2)).
  rewrite !app_assoc_s.
  rewrite compare_digits4 by lia.
  destruct F as [Ly|(Ey & F)].
  { apply Z.compare_lt_iff in Ly. rewrite Ly. reflexivity. }
  apply Z.compare_eq_iff in Ey. rewrite Ey.
  rewrite !app_cons_s, !app_nil_l_s. cbn [String.compare].
  change (Ascii.compare "." ".") with Eq. cbv iota.
  rewrite compare_digits2 by lia.
  destruct F as [Lm|(Em & Ld)].
  { apply Z.compare_lt_iff in Lm. rewrite Lm. reflexivity. }
  apply Z.compare_eq_iff in Em. rewrite Em.
  cbn [String.compare]. change (Ascii.compare "." ".") with Eq. cbv iota.
  rewrite compare_digits2 by lia.
  apply Z.compare_lt_iff in Ld. rewrite Ld. reflexivity.
Qed.

End Order.

(** X14.  The folder names sort as the time goes, from the year 1000
    on: for a positive period and two instants, the first not after the
    second, when the folder of the first starts in the year 1000 or
    later, the folder name of the first is the folder name of the second
    or comes strictly before it in the order of strings.  (The year of an
    earlier date is written with fewer digits, and [999.12.26-1000.01.04]
    comes after [1000.01.05-1000.01.14].) *)
Theorem folder_names_sort_chronologically (dt1 dt2 origin : datetime)
    (days : Z) (l1 l2 : string) :
  valid_date (dt_date dt1) = true ->
  valid_date (dt_date dt2) = true ->
  valid_date (dt_date origin) = true ->
  0 < days ->
  toordinal (dt_date dt1) <= toordinal (dt_date dt2) ->
  1000 <= year (folder_start dt1 origin days) ->
  get_date_range_folder dt1 origin days = Ret l1 ->
  get_date_range_folder dt2 origin days = Ret l2 ->
  l1 = l2 \/ String.compare l1 l2 = Lt.
Proof.
  intros V1 V2 Vo Hd Hle Hy.
  rewrite !get_date_range_folder_bounds by lia.
  unfold folder_start, date_sub_days in Hy.
  set (i1 := (toordinal (dt_date dt1) - toordinal (dt_date origin)) / days) in *.
  set (i2 := (toordinal (dt_date dt2) - toordinal (dt_date origin)) / days).
  assert (Hi : i1 <= i2) by (apply Z.div_le_mono; lia).
  destruct (bucket_bounds (dt_date origin) days i1) as [[s1 e1]|] eqn:B1;
    [|discriminate].
  destruct (bucket_bounds (dt_date origin) days i2) as [[s2 e2]|] eqn:B2;
    [|discriminate].
  cbn [obind]. intros [= <-] [= <-].
  destruct (Z.eq_dec i1 i2) as [E|N].
  - left. rewrite E in B1. rewrite B1 in B2. injection B2 as -> ->. reflexivity.
  - right.
    destruct (bucket_bounds_any _ _ _ _ _ Vo B1) as (R1 & _ & -> & _).
    destruct (bucket_bounds_any _ _ _ _ _ Vo B2) as (R2 & _ & -> & _).
    destruct (toordinal_fromordinal _ R1) as [O1 W1].
    destruct (toordinal_fromordinal _ R2) as [O2 W2].
    unfold bucket_label. cbn [fst snd].
    apply strftime_Ymd_lt; try assumption.
    rewrite O1, O2. nia.
Qed.

Lemma folder_names_sort_chronologically_witness :
  "2025.04.21-2025.04.30" = "2025.05.11-2025.05.20"
  \/ String.compare "2025.04.21-2025.04.30" "2025.05.11-2025.05.20" = Lt.
Proof.
  apply (folder_names_sort_chronologically
           (mkdatetime (mkdate 2025 4 25) 0 0 0)
           (mkdatetime (mkdate 2025 5 13) 12 0 0) ORIGIN_DATE 10).
  - reflexivity.
  - reflexivity.
  - reflexivity.
  - lia.
  - vm_compute. discriminate.
  - vm_compute. discriminate.
  - vm_compute. reflexivity.
  - vm_compute. reflexivity.
Defined.

(** ** What the sweep leaves alone *)

Section Sweep_safety.

Variables (dst_root source : string) (origin : datetime) (days : Z)
          (exts : gset string).

Lemma wf_world_print (line : string) (w : world) :
  wf_world w -> wf_world (snd (print line w)).
Proof. intros [Hc Hf]. unfold print. destruct (utf8 line); split; assumption. Qed.

Lemma wf_insert_delete (w : world) (s t : list string) (n : node) :
  wf_world w -> ordinary_key t ->
  wf_world (with_fs (<[t := n]> (delete s (fs w))) w).
Proof.
  intros [Hc Hf] Ht. split; [exact Hc|]. cbn [with_fs fs].
  intros key n' H. destruct (decide (key = t)) as [->|N]; [exact Ht|].
  rewrite lookup_insert_ne in H by congruence.
  apply lookup_delete_Some in H as [_ H]. exact (Hf _ _ H).
Qed.

(** One classification, in an environment with ordinary names. *)
Lemma sort_file_step (w w' : world) (path : string) (o : outcome unit)
    (st : stat_result) (data : string) (img : pil_image) :
  wf_world w ->
  node_at w path = Some (File st data img) ->
  sort_file path dst_root source origin days w = (o, w') ->
  wf_world w' /\ cwd w' = cwd w
  /\ forall key n,
       fs w !! key = Some n -> key <> resolve (cwd w) path ->
       fs w' !! key = Some n.
Proof.
  intros Hw Hsrc Hs.
  destruct (sort_file_cases w path dst_root source origin days st data img Hsrc)
    as (w1 & C1 & S1 & X1 & T1 & L1 & W1 & _
        & [(e & E)|[(e & dst & E & Hnone)
                   |(dt & label & dst & _ & _ & _ & _ & Hnone & Hdst & E)]]);
    rewrite E in Hs; specialize (W1 Hw).
  - injection Hs as <- <-. split; [exact W1|]. split; [exact C1|].
    intros key n H _. apply L1, H.
  - injection Hs as <- <-. split; [|split; [exact C1|]].
    + apply wf_insert; [exact W1|]. apply resolve_ordinary, Hw.
    + cbn [with_fs fs]. intros key n H _. apply L1 in H.
      rewrite lookup_insert_ne by congruence. exact H.
  - unfold print in Hs.
    destruct (utf8 _); injection Hs as <- <-; (split; [|split; [exact C1|]]);
      try (apply wf_insert_delete; [exact W1|]; apply resolve_ordinary, Hw);
      cbn [with_fs fs]; intros key n H Hne; apply L1 in H;
      rewrite lookup_insert_ne by congruence;
      rewrite lookup_delete_ne by congruence; exact H.
Qed.

(** What [os.scandir] lists as files: names without repetition, each an
    ordinary name and the name of a file of the directory. *)
Lemma os_scandir_files (top : string) (w w1 : world)
    (dirs files : list string) :
  wf_world w ->
  os_scandir top w = (Ret (dirs, files), w1) ->
  w1 = w /\ NoDup files
  /\ forall f, In f files ->
       ordinary_name f = true
       /\ exists st data img,
            fs w !! (resolve (cwd w) top ++ [f])%list = Some (File st data img).
Proof.
  intros [_ Hf]. unfold os_scandir.
  destruct (node_at w top) as [[? ? ?|? ? []]|]; try discriminate.
  intros [= _ <- <-]. split; [reflexivity|].
  set (k := resolve (cwd w) top).
  set (g := fun '(k', n) =>
              if bool_decide (k' ≠ [] ∧ removelast k' = k)
              then Some (List.last k' "", n) else None).
  assert (G : forall l f n,
             In (f, n) (omap g l) -> In ((k ++ [f])%list, n) l).
  { intros l f n H. apply list_elem_of_In, list_elem_of_omap in H
      as ([k' n'] & Hin & Hg).
    unfold g in Hg. case_bool_decide as Hc; [|discriminate].
    injection Hg as <- <-. destruct Hc as [Hne <-].
    rewrite <- (app_removelast_last "" Hne).
    apply list_elem_of_In. exact Hin. }
  split.
  - pose proof (NoDup_fst_map_to_list (fs w)) as Hnd.
    induction (map_to_list (fs w)) as [|[k' n] l IH]; [constructor|].
    cbn [fmap list_fmap] in Hnd. apply NoDup_cons in Hnd as [Hnotin Hnd].
    specialize (IH Hnd). cbn [omap list_omap].
    destruct (g (k', n)) as [[f n']|] eqn:Eg; [|exact IH].
    cbn [List.filter]. destruct (negb (is_dir (snd (f, n')))); [|exact IH].
    cbn [map fst]. constructor; [|exact IH].
    intros Hin. apply list_elem_of_In, in_map_iff in Hin as ([f2 n2] & Ef & Hin).
    cbn in Ef. subst f2. apply filter_In in Hin as [Hin _].
    apply G in Hin. apply Hnotin.
    unfold g in Eg. case_bool_decide as Hc; [|discriminate].
    injection Eg as <- <-. destruct Hc as [Hne Ek].
    rewrite (app_removelast_last "" Hne), Ek.
    apply list_elem_of_fmap. exists ((k ++ [List.last k' ""])%list, n2).
    split; [reflexivity|]. apply list_elem_of_In. exact Hin.
  - intros f Hin. apply in_map_iff in Hin as ([f2 n] & Ef & Hin).
    cbn in Ef. subst f2. apply filter_In in Hin as [Hin Hfile].
    apply G, list_elem_of_In, elem_of_map_to_list in Hin.
    split.
    + specialize (Hf _ _ Hin). unfold ordinary_key in Hf.
      apply Forall_app in Hf as [_ Hf]. inversion Hf; assumption.
    + destruct n as [st' data' img'|st' wr' rd']; [eauto|discriminate].
Qed.

Lemma os_scandir_world (top : string) (w w1 : world)
    (o : outcome (list string * list string)) :
  os_scandir top w = (o, w1) -> w1 = w.
Proof.
  unfold os_scandir. destruct (node_at w top) as [[? ? ?|? ? []]|];
    intros [= _ <-]; reflexivity.
Qed.

(** One name of the listing. *)
Lemma sweep_file_spares (top f : string) (w w1 : world) (o : outcome unit)
    (st : stat_result) (data : string) (img : pil_image) :
  wf_world w ->
  ordinary_name f = true ->
  fs w !! (resolve (cwd w) top ++ [f])%list = Some (File st data img) ->
  sweep_file top f dst_root source origin days exts w = (o, w1) ->
  wf_world w1 /\ cwd w1 = cwd w
  /\ forall key n,
       fs w !! key = Some n ->
       (sweep_eligible f exts = true ->
        key <> (resolve (cwd w) top ++ [f])%list) ->
       fs w1 !! key = Some n.
Proof.
  intros Hw Hf Hfile. unfold sweep_file.
  destruct (sweep_eligible f exts) eqn:El.
  2: { intros [= <- <-]. auto. }
  unfold bind, lift.
  destruct (posixpath.commonpath (posixpath.join top f) dst_root)
    as [common|e].
  2: { intros [= <- <-]. auto. }
  destruct (String.eqb common dst_root).
  { intros [= <- <-]. auto. }
  intros Hs.
  destruct (ordinary_name_fields f Hf) as (Hne & _ & _).
  assert (Hn : node_at w (posixpath.join top f) = Some (File st data img)).
  { unfold node_at. rewrite (join_nonempty top f Hne), resolve_join by assumption.
    exact Hfile. }
  destruct (sort_file_step w w1 _ o st data img Hw Hn Hs) as (W1 & C1 & P1).
  split; [exact W1|]. split; [exact C1|].
  intros key n H Hk. apply P1; [exact H|].
  rewrite resolve_join by assumption. apply Hk. reflexivity.
Qed.

(** The names of a listing, one after the other. *)
Lemma sweep_files_spares (top : string) (files : list string)
    (w w' : world) (o : outcome unit) :
  wf_world w ->
  NoDup files ->
  (forall f, In f files ->
     ordinary_name f = true
     /\ exists st data img,
          fs w !! (resolve (cwd w) top ++ [f])%list = Some (File st data img)) ->
  sweep_files top files dst_root source origin days exts w = (o, w') ->
  wf_world w' /\ cwd w' = cwd w
  /\ forall key n,
       fs w !! key = Some n ->
       (forall f, In f files -> sweep_eligible f exts = true ->
          key <> (resolve (cwd w) top ++ [f])%list) ->
       fs w' !! key = Some n.
Proof.
  revert w. induction files as [|f rest IH]; intros w Hw Hnd Hfiles.
  { intros [= <- <-]. auto. }
  apply NoDup_cons in Hnd as [Hnotin Hnd].
  cbn [sweep_files]. unfold bind at 1.
  destruct (sweep_file top f dst_root source origin days exts w)
    as [o1 w1] eqn:Ef.
  destruct (Hfiles f (or_introl eq_refl)) as (Hf & st & data & img & Hfile).
  destruct (sweep_file_spares top f w w1 o1 st data img Hw Hf Hfile Ef)
    as (W1 & C1 & P1).
  destruct o1 as [[]|e].
  2: { intros [= <- <-]. split; [exact W1|]. split; [exact C1|].
       intros key n H Hk. apply P1; [exact H|].
       intros El. apply Hk; [left; reflexivity|exact El]. }
  intros Hrest.
  assert (Hfiles1 : forall g, In g rest ->
            ordinary_name g = true
            /\ exists st data img,
                 fs w1 !! (resolve (cwd w1) top ++ [g])%list
                 = Some (File st data img)).
  { intros g Hg. destruct (Hfiles g (or_intror Hg)) as (Hog & st' & data' & img' & Hgf).
    split; [exact Hog|]. exists st', data', img'. rewrite C1.
    apply P1; [exact Hgf|]. intros _ E. apply app_inj_tail in E as [_ ->].
    apply Hnotin, list_elem_of_In, Hg. }
  destruct (IH w1 W1 Hnd Hfiles1 Hrest) as (W' & C' & P').
  split; [exact W'|]. split; [congruence|].
  intros key n H Hk. apply P'.
  - apply P1; [exact H|]. intros El. apply Hk; [left; reflexivity|exact El].
  - intros g Hg El. rewrite C1. apply Hk; [right; exact Hg|exact El].
Qed.

(** The walk. *)
Lemma _walk_spares (fuel : nat) (stack : list string) (w w' : world)
    (o : outcome unit) :
  wf_world w ->
  _walk fuel stack dst_root source origin days exts w = Some (o, w') ->
  wf_world w' /\ cwd w' = cwd w
  /\ forall key n,
       fs w !! key = Some n -> spared exts key n -> fs w' !! key = Some n.
Proof.
  revert stack w. induction fuel as [|fuel IH]; intros [|top stack] w Hw;
    cbn [_walk]; try discriminate.
  { intros [= <- <-]. auto. }
  { intros [= <- <-]. auto. }
  destruct (os_scandir top w) as [[[dirs files]|e] w1] eqn:Es.
  2: { apply os_scandir_world in Es. subst w1. apply IH, Hw. }
  destruct (os_scandir_files top w w1 dirs files Hw Es) as (-> & Hnd & Hfiles).
  destruct (sweep_files top files dst_root source origin days exts w)
    as [o1 w2] eqn:Ef.
  destruct (sweep_files_spares top files w w2 o1 Hw Hnd Hfiles Ef)
    as (W2 & C2 & P2).
  assert (S2 : forall key n,
            fs w !! key = Some n -> spared exts key n -> fs w2 !! key = Some n).
  { intros key n H Hsp. apply P2; [exact H|].
    intros f Hin El ->.
    destruct (Hfiles f Hin) as (_ & st & data & img & Hfile).
    rewrite Hfile in H. injection H as <-.
    destruct Hsp as [Hd|Hn]; [discriminate|].
    rewrite last_last in Hn. congruence. }
  destruct o1 as [[]|e].
  - intros Hwalk. destruct (IH _ w2 W2 Hwalk) as (W' & C' & P').
    split; [exact W'|]. split; [congruence|].
    intros key n H Hsp. apply P'; [apply S2; assumption|exact Hsp].
  - intros [= <- <-]. auto.
Qed.

End Sweep_safety.

(** X15.  The sweep leaves the directories and the files with other names
    alone.  In an environment whose entries have ordinary names, whatever
    the number of directories walked and however the sweep ends, every
    directory and every file whose name is not eligible is afterwards
    where and what it was. *)
Theorem sweep_spares_other_entries (fuel : nat)
    (watch_dir dst_root source : string) (origin : datetime) (days : Z)
    (exts : gset string) (w w' : world) (o : outcome unit) :
  wf_world w ->
  process_existing fuel watch_dir dst_root source origin days exts w
  = Some (o, w') ->
  forall key n,
    fs w !! key = Some n ->
    is_dir n = true \/ sweep_eligible (List.last key "") exts = false ->
    fs w' !! key = Some n.
Proof.
  intros Hw. unfold process_existing.
  rewrite (print_Ret "Processing existing files..." _ eq_refl).
  destruct (_walk fuel [watch_dir] dst_root source origin days exts _)
    as [[o1 w2]|] eqn:Ewalk; [|discriminate].
  apply _walk_spares in Ewalk as (_ & _ & P); [|exact Hw].
  cbn [fs] in P.
  destruct o1 as [[]|e]; [rewrite (print_Ret "Existing done." _ eq_refl)|];
    intros [= <- <-]; exact P.
Qed.

Lemma sweep_spares_other_entries_witness :
  exists (o : outcome unit) (w' : world),
    process_existing 4 "/w" "/out" "mtime" ORIGIN_DATE 10 {["png"]}
      Examples.one_file = Some (o, w')
    /\ forall key n,
         fs Examples.one_file !! key = Some n ->
         is_dir n = true \/ sweep_eligible (List.last key "") {["png"]} = false ->
         fs w' !! key = Some n.
Proof.
  destruct (process_existing 4 "/w" "/out" "mtime" ORIGIN_DATE 10 {["png"]}
              Examples.one_file) as [[o w']|] eqn:E;
    [|vm_compute in E; discriminate].
  exists o, w'. split; [reflexivity|].
  apply (sweep_spares_other_entries 4 "/w" "/out" "mtime" ORIGIN_DATE 10
           {["png"]} Examples.one_file w' o); [|exact E].
  split; [constructor|].
  intros key n H. apply elem_of_list_to_map_2, list_elem_of_In in H.
  cbn in H.
  repeat (destruct H as [[= <- <-]|H]; [repeat constructor|]).
  contradiction.
Defined.

(** X16.  The sweep of a path that is no directory (nothing there, or a
    file) does nothing and ends normally: with fuel for one directory it
    returns, the file system is as before, and the two lines of the sweep
    are printed. *)
Theorem process_existing_no_directory (fuel : nat)
    (watch_dir dst_root source : string) (origin : datetime) (days : Z)
    (exts : gset string) (w : world) :
  path_isdir w watch_dir = false ->
  process_existing (S fuel) watch_dir dst_root source origin days exts w
  = Some (Ret tt,
          with_stdout ("Existing done." :: "Processing existing files..."
                       :: stdout w) w).
Proof.
  intros H. unfold process_existing.
  rewrite (print_Ret "Processing existing files..." _ eq_refl). cbn [_walk].
  unfold os_scandir, path_isdir, node_at in *. cbn [fs cwd].
  destruct (if String.eqb watch_dir "" then None
            else fs w !! resolve (cwd w) watch_dir) as [[? ? ?|? ?]|];
    try discriminate; destruct fuel; cbn [_walk];
    rewrite (print_Ret "Existing done." _ eq_refl); reflexivity.
Qed.

Lemma process_existing_no_directory_witness :
  process_existing 1 "/nowhere" "/out" "mtime" ORIGIN_DATE 10 {["png"]}
    Examples.one_file
  = Some (Ret tt,
          with_stdout ("Existing done." :: "Processing existing files..."
                       :: stdout Examples.one_file) Examples.one_file).
Proof.
  apply (process_existing_no_directory 0 "/nowhere" "/out" "mtime" ORIGIN_DATE
           10 {["png"]} Examples.one_file).
  vm_compute. reflexivity.
Defined.

(** ** What the watch loop leaves alone *)

Section Watch_safety.

Lemma pick_timestamp_missing (path source : string) (w : world) :
  node_at w path = None ->
  fst (pick_timestamp path source w) = Raise FileNotFoundError.
Proof.
  intros H. destruct (String.eqb_spec source "exif") as [->|Hne].
  - destruct (pick_timestamp_fallback path w) as [E _].
    + apply get_exif_datetime_None. right. left. intros st data d.
      rewrite H. discriminate.
    + rewrite E, pick_timestamp_mtime, H. reflexivity.
  - unfold pick_timestamp, bind, os_stat.
    apply String.eqb_neq in Hne. rewrite Hne. cbn. rewrite H. reflexivity.
Qed.

(** The classification of a path that names a file or nothing changes
    no other entry. *)
Lemma sort_file_others (path dst_root source : string) (origin : datetime)
    (days : Z) (w w' : world) (o : outcome unit) :
  (forall st wr rd, node_at w path <> Some (Dir st wr rd)) ->
  sort_file path dst_root source origin days w = (o, w') ->
  cwd w' = cwd w
  /\ forall key n,
       fs w !! key = Some n -> key <> resolve (cwd w) path ->
       fs w' !! key = Some n.
Proof.
  intros Hnd Hs. destruct (node_at w path) as [[st data img|st wr rd]|] eqn:Hn.
  - destruct (sort_file_cases w path dst_root source origin days st data img Hn)
      as (w1 & C1 & S1 & X1 & T1 & L1 & _ & _
          & [(e & E)|[(e & dst & E & Hnone)
                     |(dt & label & dst & _ & _ & _ & _ & Hnone & Hdst & E)]]);
      rewrite E in Hs.
    + injection Hs as <- <-. split; [exact C1|]. intros key n H _. apply L1, H.
    + injection Hs as <- <-. split; [exact C1|].
      cbn [with_fs fs]. intros key n H _. apply L1 in H.
      rewrite lookup_insert_ne by congruence. exact H.
    + unfold print in Hs.
      destruct (utf8 _); injection Hs as <- <-; (split; [exact C1|]);
        cbn [with_fs fs]; intros key n H Hne; apply L1 in H;
        rewrite lookup_insert_ne by congruence;
        rewrite lookup_delete_ne by congruence; exact H.
  - exfalso. exact (Hnd st wr rd eq_refl).
  - pose proof (pick_timestamp_missing path source w Hn) as Hp.
    unfold sort_file in Hs. unfold bind at 1 in Hs.
    destruct (pick_timestamp_fs path source w) as (o0 & opens & Ep).
    rewrite Ep in Hs, Hp. cbn [fst] in Hp. subst o0.
    injection Hs as <- <-. cbn [fs cwd]. auto.
Qed.

Lemma on_created_others (self : ScreenshotHandler) (event : FileSystemEvent)
    (w w' : world) (o : outcome unit) :
  (is_directory event = false ->
   forall st wr rd, node_at w (src_path event) <> Some (Dir st wr rd)) ->
  on_created self event w = (o, w') ->
  cwd w' = cwd w
  /\ forall key n,
       fs w !! key = Some n -> key <> resolve (cwd w) (src_path event) ->
       fs w' !! key = Some n.
Proof.
  intros Hnd. unfold on_created.
  destruct (is_directory event); [intros [= <- <-]; auto|].
  destruct (negb (watch_eligible (src_path event) (h_exts self)));
    [intros [= <- <-]; auto|].
  unfold time_sleep, bind, ret. apply sort_file_others. apply Hnd. reflexivity.
Qed.

Lemma observer_run_others (self : ScreenshotHandler) (watch_dir : string)
    (arrivals : list arrival) (w w' : world) (o : outcome unit) :
  observer_run self watch_dir arrivals w = (o, w') ->
  cwd w' = cwd w
  /\ forall key n,
       fs w !! key = Some n ->
       (forall a, In a arrivals ->
          key <> resolve (cwd w) (posixpath.join watch_dir (a_name a))) ->
       fs w' !! key = Some n.
Proof.
  revert w. induction arrivals as [|a rest IH]; intros w.
  { intros [= <- <-]. auto. }
  cbn [observer_run]. unfold bind at 1. unfold arrive.
  set (p := posixpath.join watch_dir (a_name a)).
  set (w1 := with_fs (<[resolve (cwd w) p := a_node a]> (fs w)) w).
  unfold bind at 1.
  destruct (on_created self (mkevent (is_dir (a_node a)) p) w1)
    as [o1 w2] eqn:Ec.
  assert (Hnd : is_directory (mkevent (is_dir (a_node a)) p) = false ->
                forall st wr rd,
                  node_at w1 (src_path (mkevent (is_dir (a_node a)) p))
                  <> Some (Dir st wr rd)).
  { cbn [is_directory src_path]. intros Hd st wr rd. unfold node_at, w1.
    cbn [with_fs fs cwd]. destruct (String.eqb p ""); [discriminate|].
    rewrite lookup_insert_eq. intros [= E]. rewrite E in Hd. discriminate. }
  destruct (on_created_others self _ w1 w2 o1 Hnd Ec) as (C2 & P2).
  cbn [src_path] in P2. change (cwd w1) with (cwd w) in C2, P2.
  assert (P12 : forall key n,
            fs w !! key = Some n -> key <> resolve (cwd w) p ->
            fs w2 !! key = Some n).
  { intros key n H Hne. apply P2; [|exact Hne].
    unfold w1. cbn [with_fs fs]. rewrite lookup_insert_ne by congruence.
    exact H. }
  destruct o1 as [[]|e].
  - intros Hrest. destruct (IH w2 Hrest) as (C' & P').
    split; [congruence|]. intros key n H Hk. apply P'.
    + apply P12; [exact H|]. apply Hk. left. reflexivity.
    + intros a' Ha'. rewrite C2. apply Hk. right. exact Ha'.
  - intros [= <- <-]. split; [exact C2|]. intros key n H Hk.
    apply P12; [exact H|]. apply Hk. left. reflexivity.
Qed.

End Watch_safety.

(** X17.  The watch loop touches the paths of its events only: whatever
    arrives in the watched directory and however the loop ends, an entry
    of the file system at another path than those of the arrivals is
    afterwards where and what it was. *)
Theorem watch_touches_only_the_events (self : ScreenshotHandler)
    (watch_dir : string) (arrivals : list arrival) (w w' : world)
    (o : outcome unit) :
  observer_run self watch_dir arrivals w = (o, w') ->
  forall key n,
    fs w !! key = Some n ->
    (forall a, In a arrivals ->
       key <> resolve (cwd w) (posixpath.join watch_dir (a_name a))) ->
    fs w' !! key = Some n.
Proof.
  intros H. exact (proj2 (observer_run_others self watch_dir arrivals w w' o H)).
Qed.

Lemma watch_touches_only_the_events_witness :
  exists (o : outcome unit) (w' : world),
    observer_run (mkhandler "/out" "mtime" ORIGIN_DATE 10 {["png"]}) "/w"
      [mkarrival "b.png" (Examples.png Examples.t_0425 "B")] Examples.one_file
    = (o, w')
    /\ forall key n,
         fs Examples.one_file !! key = Some n ->
         (forall a,
            In a [mkarrival "b.png" (Examples.png Examples.t_0425 "B")] ->
            key <> resolve (cwd Examples.one_file)
                     (posixpath.join "/w" (a_name a))) ->
         fs w' !! key = Some n.
Proof.
  destruct (observer_run (mkhandler "/out" "mtime" ORIGIN_DATE 10 {["png"]})
              "/w" [mkarrival "b.png" (Examples.png Examples.t_0425 "B")]
              Examples.one_file) as [o w'] eqn:E.
  exists o, w'. split; [reflexivity|].
  exact (watch_touches_only_the_events _ _ _ _ _ _ E).
Defined.

(** ** The sweep ends *)

Section Termination.

Variables (dst_root source : string) (origin : datetime) (days : Z)
          (exts : gset string).
Variable w0 : world.

Lemma bucket_keys_possible (key0 : list string) (n : node)
    (key : list string) :
  fs w0 !! key0 = Some n ->
  In key (bucket_keys (EXIF_AVAILABLE w0) (cwd w0) dst_root source origin days n)
  \/ In key (bucket_keys (EXIF_AVAILABLE w0) (cwd w0) dst_root source origin
               days (with_ctime (now w0) n)) ->
  In key (possible_dirs w0 dst_root source origin days).
Proof.
  intros H Hin. unfold possible_dirs. apply in_concat.
  eexists. split.
  - apply in_map_iff. exists (key0, n). split; [reflexivity|].
    apply list_elem_of_In, elem_of_map_to_list. exact H.
  - cbn [fst snd]. right. apply in_or_app. exact Hin.
Qed.

Lemma key_possible (key0 : list string) (n : node) :
  fs w0 !! key0 = Some n ->
  In key0 (possible_dirs w0 dst_root source origin days).
Proof.
  intros H. unfold possible_dirs. apply in_concat.
  eexists. split.
  - apply in_map_iff. exists (key0, n). split; [reflexivity|].
    apply list_elem_of_In, elem_of_map_to_list. exact H.
  - left. reflexivity.
Qed.

(** The folder that the classification makes for a file is one of the
    folders counted for it. *)
Lemma prefixes_bucket_keys (w : world) (path : string) (n : node)
    (dt : datetime) (label : string) (key : list string) :
  EXIF_AVAILABLE w = EXIF_AVAILABLE w0 ->
  cwd w = cwd w0 ->
  node_at w path = Some n ->
  fst (pick_timestamp path source w) = Ret dt ->
  get_date_range_folder dt origin days = Ret label ->
  In key (prefixes_of (resolve (cwd w) (posixpath.join dst_root label))) ->
  In key (bucket_keys (EXIF_AVAILABLE w0) (cwd w0) dst_root source origin days n).
Proof.
  intros HX HC Hn Hdt Hl Hin. unfold bucket_keys.
  rewrite (pick_timestamp_node "x" path source
             (mkworld {[ ["x"] := n ]} [] (EXIF_AVAILABLE w0) 0 [] []) w).
  - rewrite Hdt, Hl, <- HC. exact Hin.
  - cbn [EXIF_AVAILABLE]. symmetry. exact HX.
  - rewrite Hn. unfold node_at. cbn [fs cwd String.eqb].
    change (resolve [] "x") with ["x"]. apply lookup_singleton_eq.
Qed.

Lemma sweep_inv_print (U : list (list string)) (line : string) (w : world) :
  sweep_inv w0 U w -> sweep_inv w0 U (snd (print line w)).
Proof. intros H. unfold print. destruct (utf8 line); exact H. Qed.

Lemma with_ctime_twice (t : Z) (n : node) :
  with_ctime t (with_ctime t n) = with_ctime t n.
Proof. destruct n; reflexivity. Qed.

Variable U : list (list string).
Hypothesis U_possible :
  forall key, In key (possible_dirs w0 dst_root source origin days) -> In key U.

(** One classification keeps the invariant of the sweep. *)
Lemma sort_file_inv (w w' : world) (path : string) (o : outcome unit)
    (st : stat_result) (data : string) (img : pil_image) :
  sweep_inv w0 U w ->
  node_at w path = Some (File st data img) ->
  sort_file path dst_root source origin days w = (o, w') ->
  sweep_inv w0 U w'.
Proof.
  intros (Hw & HC & HX & HT & HD & HF) Hsrc Hs.
  assert (Hkey : fs w !! resolve (cwd w) path = Some (File st data img)).
  { unfold node_at in Hsrc. destruct (String.eqb path ""); [discriminate|].
    exact Hsrc. }
  destruct (HF _ _ Hkey eq_refl) as (key0 & n0 & Hkey0 & Hn0).
  destruct (sort_file_cases w path dst_root source origin days st data img Hsrc)
    as (w1 & C1 & S1 & X1 & T1 & L1 & W1 & N1 & Hcases).
  specialize (W1 Hw).
  assert (D1 : forall key st' wr rd,
            fs w1 !! key = Some (Dir st' wr rd) -> In key U).
  { intros key st' wr rd H.
    destruct (N1 _ _ H) as [H'|(_ & dt & label & Hdt & Hl & Hin)].
    - exact (HD _ _ _ _ H').
    - apply U_possible.
      apply (bucket_keys_possible key0 n0); [exact Hkey0|].
      pose proof (prefixes_bucket_keys w path _ dt label key HX HC Hsrc Hdt Hl
                    Hin) as Hb.
      destruct Hn0 as [<-|<-]; [left|right]; exact Hb. }
  assert (F1 : forall key n,
            fs w1 !! key = Some n -> is_dir n = false ->
            exists key0 n0,
              fs w0 !! key0 = Some n0
              /\ (n = n0 \/ n = with_ctime (now w0) n0)).
  { intros key n H Hf. destruct (N1 _ _ H) as [H'|(Hd & _)].
    - exact (HF _ _ H' Hf).
    - congruence. }
  assert (Hmoved : exists key0 n0,
            fs w0 !! key0 = Some n0
            /\ (File (mkstat (st_mtime st) (now w)) data img = n0
                \/ File (mkstat (st_mtime st) (now w)) data img
                   = with_ctime (now w0) n0)).
  { exists key0, n0. split; [exact Hkey0|]. right. rewrite HT.
    destruct Hn0 as [<-|Hn0]; [reflexivity|].
    destruct n0 as [st0 data0 img0|]; [|discriminate].
    cbn [with_ctime] in Hn0 |- *. injection Hn0 as -> -> ->. reflexivity. }
  assert (Hins : forall f,
            (forall key st' wr rd,
               f !! key = Some (Dir st' wr rd) ->
               fs w1 !! key = Some (Dir st' wr rd)) ->
            (forall key n, f !! key = Some n -> is_dir n = false ->
               fs w1 !! key = Some n) ->
            forall dst,
              wf_world (with_fs (<[resolve (cwd w) dst
                                   := File (mkstat (st_mtime st) (now w)) data
                                        img]> f) w1) ->
              sweep_inv w0 U
                (with_fs (<[resolve (cwd w) dst
                            := File (mkstat (st_mtime st) (now w)) data img]> f)
                         w1)).
  { intros f Hfd Hff dst Hwf. split; [exact Hwf|].
    cbn [with_fs fs cwd EXIF_AVAILABLE now].
    split; [congruence|]. split; [congruence|]. split; [congruence|]. split.
    - intros key st' wr rd H.
      destruct (decide (key = resolve (cwd w) dst)) as [->|N].
      + rewrite lookup_insert_eq in H. discriminate.
      + rewrite lookup_insert_ne in H by congruence.
        exact (D1 _ _ _ _ (Hfd _ _ _ _ H)).
    - intros key n H Hf.
      destruct (decide (key = resolve (cwd w) dst)) as [->|N].
      + rewrite lookup_insert_eq in H. injection H as <-. exact Hmoved.
      + rewrite lookup_insert_ne in H by congruence.
        exact (F1 _ _ (Hff _ _ H Hf) Hf). }
  destruct Hcases as [(e & E)|[(e & dst & E & Hnone)
                              |(dt & label & dst & _ & _ & _ & _ & Hnone & Hdst & E)]];
    rewrite E in Hs.
  - injection Hs as <- <-.
    split; [exact W1|]. split; [congruence|]. split; [congruence|].
    split; [congruence|]. split; [exact D1|exact F1].
  - injection Hs as <- <-. apply Hins; [auto|auto|].
    apply wf_insert; [exact W1|apply resolve_ordinary, Hw].
  - assert (Hinv : sweep_inv w0 U
                     (with_fs (<[resolve (cwd w) dst
                                 := File (mkstat (st_mtime st) (now w)) data
                                      img]>
                                 (delete (resolve (cwd w) path) (fs w1))) w1)).
    { apply Hins.
      - intros key st' wr rd H. apply lookup_delete_Some in H as [_ H]. exact H.
      - intros key n H _. apply lookup_delete_Some in H as [_ H]. exact H.
      - apply wf_insert_delete; [exact W1|apply resolve_ordinary, Hw]. }
    unfold print in Hs. destruct (utf8 _); injection Hs as <- <-; exact Hinv.
Qed.

Lemma sweep_file_inv (top f : string) (w w1 : world) (o : outcome unit)
    (st : stat_result) (data : string) (img : pil_image) :
  sweep_inv w0 U w ->
  ordinary_name f = true ->
  fs w !! (resolve (cwd w) top ++ [f])%list = Some (File st data img) ->
  sweep_file top f dst_root source origin days exts w = (o, w1) ->
  sweep_inv w0 U w1.
Proof.
  intros Hinv Hf Hfile. unfold sweep_file.
  destruct (sweep_eligible f exts).
  2: { intros [= <- <-]. exact Hinv. }
  unfold bind, lift.
  destruct (posixpath.commonpath (posixpath.join top f) dst_root)
    as [common|e].
  2: { intros [= <- <-]. exact Hinv. }
  destruct (String.eqb common dst_root).
  { intros [= <- <-]. exact Hinv. }
  intros Hs.
  destruct (ordinary_name_fields f Hf) as (Hne & _ & _).
  assert (Hn : node_at w (posixpath.join top f) = Some (File st data img)).
  { unfold node_at. rewrite (join_nonempty top f Hne), resolve_join by assumption.
    exact Hfile. }
  exact (sort_file_inv w w1 _ o st data img Hinv Hn Hs).
Qed.

Lemma sweep_files_inv (top : string) (files : list string)
    (w w' : world) (o : outcome unit) :
  sweep_inv w0 U w ->
  NoDup files ->
  (forall f, In f files ->
     ordinary_name f = true
     /\ exists st data img,
          fs w !! (resolve (cwd w) top ++ [f])%list = Some (File st data img)) ->
  sweep_files top files dst_root source origin days exts w = (o, w') ->
  sweep_inv w0 U w'.
Proof.
  revert w. induction files as [|f rest IH]; intros w Hinv Hnd Hfiles.
  { intros [= <- <-]. exact Hinv. }
  apply NoDup_cons in Hnd as [Hnotin Hnd].
  cbn [sweep_files]. unfold bind at 1.
  destruct (sweep_file top f dst_root source origin days exts w)
    as [o1 w1] eqn:Ef.
  destruct (Hfiles f (or_introl eq_refl)) as (Hf & st & data & img & Hfile).
  pose proof (sweep_file_inv top f w w1 o1 st data img Hinv Hf Hfile Ef) as Hinv1.
  destruct (sweep_file_spares dst_root source origin days exts top f w w1 o1
              st data img (proj1 Hinv) Hf Hfile Ef) as (W1 & C1 & P1).
  destruct o1 as [[]|e]; [|intros [= <- <-]; exact Hinv1].
  apply IH; [exact Hinv1|exact Hnd|].
  intros g Hg. destruct (Hfiles g (or_intror Hg)) as (Hog & st' & data' & img' & Hgf).
  split; [exact Hog|]. exists st', data', img'. rewrite C1.
  apply P1; [exact Hgf|]. intros _ E. apply app_inj_tail in E as [_ ->].
  apply Hnotin, list_elem_of_In, Hg.
Qed.

(** What [os.scandir] lists as directories: names without repetition,
    each an ordinary name and the name of a directory of the directory. *)
Lemma os_scandir_dirs (top : string) (w w1 : world)
    (dirs files : list string) :
  wf_world w ->
  os_scandir top w = (Ret (dirs, files), w1) ->
  NoDup dirs
  /\ forall d, In d dirs ->
       ordinary_name d = true
       /\ exists st wr rd,
            fs w !! (resolve (cwd w) top ++ [d])%list = Some (Dir st wr rd).
Proof.
  intros [_ Hf]. unfold os_scandir.
  destruct (node_at w top) as [[? ? ?|? ? []]|]; try discriminate.
  intros [= <- _ _].
  set (k := resolve (cwd w) top).
  set (g := fun '(k', n) =>
              if bool_decide (k' ≠ [] ∧ removelast k' = k)
              then Some (List.last k' "", n) else None).
  assert (G : forall l f n,
             In (f, n) (omap g l) -> In ((k ++ [f])%list, n) l).
  { intros l f n H. apply list_elem_of_In, list_elem_of_omap in H
      as ([k' n'] & Hin & Hg).
    unfold g in Hg. case_bool_decide as Hc; [|discriminate].
    injection Hg as <- <-. destruct Hc as [Hne <-].
    rewrite <- (app_removelast_last "" Hne).
    apply list_elem_of_In. exact Hin. }
  split.
  - pose proof (NoDup_fst_map_to_list (fs w)) as Hnd.
    induction (map_to_list (fs w)) as [|[k' n] l IH]; [constructor|].
    cbn [fmap list_fmap] in Hnd. apply NoDup_cons in Hnd as [Hnotin Hnd].
    specialize (IH Hnd). cbn [omap list_omap].
    destruct (g (k', n)) as [[f n']|] eqn:Eg; [|exact IH].
    cbn [List.filter]. destruct (is_dir (snd (f, n'))); [|exact IH].
    cbn [map fst]. constructor; [|exact IH].
    intros Hin. apply list_elem_of_In, in_map_iff in Hin as ([f2 n2] & Ef & Hin).
    cbn in Ef. subst f2. apply filter_In in Hin as [Hin _].
    apply G in Hin. apply Hnotin.
    unfold g in Eg. case_bool_decide as Hc; [|discriminate].
    injection Eg as <- <-. destruct Hc as [Hne Ek].
    rewrite (app_removelast_last "" Hne), Ek.
    apply list_elem_of_fmap. exists ((k ++ [List.last k' ""])%list, n2).
    split; [reflexivity|]. apply list_elem_of_In. exact Hin.
  - intros f Hin. apply in_map_iff in Hin as ([f2 n] & Ef & Hin).
    cbn in Ef. subst f2. apply filter_In in Hin as [Hin Hdir].
    apply G, list_elem_of_In, elem_of_map_to_list in Hin.
    split.
    + specialize (Hf _ _ Hin). unfold ordinary_key in Hf.
      apply Forall_app in Hf as [_ Hf]. inversion Hf; assumption.
    + destruct n as [st' data' img'|st' wr' rd']; [discriminate|eauto].
Qed.

Variable K0 : list string.

(** The directory on top of the stack is walked. *)
Lemma walk_inv_pop (top : string) (rest : list string)
    (V : list (list string)) :
  walk_inv (cwd w0) K0 U (top :: rest) V ->
  (resolve (cwd w0) top ∉ V)
  /\ (length (resolve (cwd w0) top :: V) <= length (K0 :: U))%nat
  /\ walk_inv (cwd w0) K0 U rest (resolve (cwd w0) top :: V).
Proof.
  intros [Hnd Hall]. cbn [map app] in Hnd, Hall.
  set (K := resolve (cwd w0) top) in *.
  apply NoDup_cons in Hnd as [HK Hnd].
  assert (HKV : K ∉ V) by (intros H; apply HK, elem_of_app; right; exact H).
  pose proof (proj1 (NoDup_app _ _) Hnd) as (Hnd1 & Hdis & Hnd2).
  split; [exact HKV|]. split.
  - apply submseteq_length, NoDup_submseteq.
    + apply NoDup_cons. split; assumption.
    + intros x Hx. apply list_elem_of_In.
      apply (Hall x). apply elem_of_cons in Hx as [->|Hx];
        [left|right; apply elem_of_app; right; exact Hx].
  - split.
    + apply NoDup_app. split; [exact Hnd1|]. split.
      * intros x Hx Hx'. apply elem_of_cons in Hx' as [->|Hx'].
        -- apply HK, elem_of_app. left. exact Hx.
        -- exact (Hdis x Hx Hx').
      * apply NoDup_cons. split; assumption.
    + intros key Hkey.
      assert (Hold : key ∈ K :: (map (resolve (cwd w0)) rest ++ V)%list).
      { apply elem_of_app in Hkey as [Hkey|Hkey].
        - right. apply elem_of_app. left. exact Hkey.
        - apply elem_of_cons in Hkey as [->|Hkey]; [left|].
          right. apply elem_of_app. right. exact Hkey. }
      destruct (Hall key Hold) as (H1 & H2 & H3).
      split; [exact H1|]. split; [exact H2|].
      destruct H3 as [->|(Hne & Hin)]; [left; reflexivity|].
      right. split; [exact Hne|]. right. exact Hin.
Qed.

Lemma NoDup_map_snoc (K : list string) (dirs : list string) :
  NoDup dirs -> NoDup (map (fun d => (K ++ [d])%list) dirs).
Proof.
  induction dirs as [|d dirs IH]; intros Hnd; [constructor|].
  apply NoDup_cons in Hnd as [Hd Hnd]. cbn [map].
  apply NoDup_cons. split; [|apply IH, Hnd].
  intros Hin. apply list_elem_of_In, in_map_iff in Hin as (d' & E & Hin).
  apply app_inj_tail in E as [_ ->]. apply Hd, list_elem_of_In, Hin.
Qed.

(** The directories listed in the directory walked go on the stack. *)
Lemma walk_inv_push (top : string) (rest dirs : list string)
    (V : list (list string)) :
  walk_inv (cwd w0) K0 U (top :: rest) V ->
  NoDup dirs ->
  (forall d, In d dirs ->
     ordinary_name d = true /\ In (resolve (cwd w0) top ++ [d])%list U) ->
  walk_inv (cwd w0) K0 U (map (posixpath.join top) dirs ++ rest)
           (resolve (cwd w0) top :: V).
Proof.
  intros Hinv Hnd Hdirs.
  destruct (walk_inv_pop top rest V Hinv) as (HKV & _ & Hnd' & Hall').
  destruct Hinv as [_ Hall]. cbn [map app] in Hall.
  set (K := resolve (cwd w0) top) in *.
  assert (HK0 : K0 `prefix_of` K) by (apply (Hall K); left).
  assert (Ekeys : map (resolve (cwd w0)) (map (posixpath.join top) dirs ++ rest)
                  = (map (fun d => (K ++ [d])%list) dirs
                     ++ map (resolve (cwd w0)) rest)%list).
  { rewrite map_app, map_map. f_equal. apply map_ext_in.
    intros d Hd. apply resolve_join, Hdirs, Hd. }
  unfold walk_inv. rewrite Ekeys, <- app_assoc. split.
  - apply NoDup_app. split; [apply NoDup_map_snoc, Hnd|]. split; [|exact Hnd'].
    intros x Hx Hx'.
    apply list_elem_of_In, in_map_iff in Hx as (d & <- & Hd).
    assert (Hold : (K ++ [d])%list = K
                   \/ (K ++ [d])%list ∈ (map (resolve (cwd w0)) rest ++ V)%list).
    { apply elem_of_app in Hx' as [Hx'|Hx'].
      - right. apply elem_of_app. left. exact Hx'.
      - apply elem_of_cons in Hx' as [E|Hx']; [left; exact E|].
        right. apply elem_of_app. right. exact Hx'. }
    destruct Hold as [E|Hold].
    + apply (f_equal length) in E. rewrite length_app in E. cbn in E. lia.
    + destruct (Hall (K ++ [d])%list) as (_ & _ & [E|(_ & Hin)]);
        [right; exact Hold| |].
      * apply prefix_length in HK0. apply (f_equal length) in E.
        rewrite length_app in E. cbn in E. lia.
      * rewrite removelast_last in Hin. exact (HKV Hin).
  - intros key Hkey. apply elem_of_app in Hkey as [Hkey|Hkey].
    + apply list_elem_of_In, in_map_iff in Hkey as (d & <- & Hd).
      split; [right; apply Hdirs, Hd|]. split; [apply prefix_app_r, HK0|].
      right. split; [destruct K; discriminate|].
      rewrite removelast_last. left.
    + exact (Hall' key Hkey).
Qed.

(** With fuel for every possible directory the walk ends. *)
Lemma _walk_terminates (fuel : nat) (stack : list string)
    (V : list (list string)) (w : world) :
  sweep_inv w0 U w ->
  walk_inv (cwd w0) K0 U stack V ->
  (length (K0 :: U) - length V < fuel)%nat ->
  exists o w',
    _walk fuel stack dst_root source origin days exts w = Some (o, w').
Proof.
  revert stack V w. induction fuel as [|fuel IH]; intros stack V w Hinv Hwalk Hm;
    [lia|].
  destruct stack as [|top rest]; [cbn; eauto|].
  cbn [_walk].
  destruct (walk_inv_pop top rest V Hwalk) as (HKV & Hlen & Hpop).
  assert (Hm' : (length (K0 :: U) - length (resolve (cwd w0) top :: V) < fuel)%nat)
    by (cbn [length] in *; lia).
  destruct (os_scandir top w) as [[[dirs files]|e] w1] eqn:Es.
  2: { apply os_scandir_world in Es. subst w1. exact (IH _ _ _ Hinv Hpop Hm'). }
  destruct Hinv as (Hw & HC & HX & HT & HD & HF).
  destruct (os_scandir_files top w w1 dirs files Hw Es) as (-> & Hnd & Hfiles).
  destruct (os_scandir_dirs top w w dirs files Hw Es) as (Hndd & Hdirs).
  destruct (sweep_files top files dst_root source origin days exts w)
    as [o1 w2] eqn:Ef.
  pose proof (sweep_files_inv top files w w2 o1
                (conj Hw (conj HC (conj HX (conj HT (conj HD HF))))) Hnd Hfiles
                Ef)
    as Hinv2.
  destruct o1 as [[]|e]; [|eauto].
  apply (IH _ (resolve (cwd w0) top :: V) _ Hinv2); [|exact Hm'].
  apply walk_inv_push; [exact Hwalk|exact Hndd|].
  intros d Hd. destruct (Hdirs d Hd) as (Hod & st & wr & rd & Hdir).
  split; [exact Hod|]. rewrite <- HC. exact (HD _ _ _ _ Hdir).
Qed.

End Termination.

(** X18.  The sweep ends.  In a file system whose entries have ordinary
    names, [process_existing] returns or raises after it has listed at
    most one directory more than there are keys at which a directory can
    be: the keys of the entries at the start, and the keys of the folders
    of the files (as they are, and as the sweep places them), with their
    prefixes.  With fuel for that many directories the walk does not run
    out of fuel. *)
Theorem process_existing_terminates (watch_dir dst_root source : string)
    (origin : datetime) (days : Z) (exts : gset string) (w : world)
    (fuel : nat) :
  wf_world w ->
  (length (possible_dirs w dst_root source origin days) + 2 <= fuel)%nat ->
  exists o w',
    process_existing fuel watch_dir dst_root source origin days exts w
    = Some (o, w').
Proof.
  intros Hw Hfuel. unfold process_existing.
  rewrite (print_Ret "Processing existing files..." _ eq_refl).
  set (w1 := mkworld (fs w) (cwd w) (EXIF_AVAILABLE w) (now w)
               ("Processing existing files..." :: stdout w) (image_opens w)).
  destruct (_walk_terminates dst_root source origin days exts w
              (possible_dirs w dst_root source origin days)
              (fun key H => H) (resolve (cwd w) watch_dir)
              fuel [watch_dir] [] w1) as (o & w2 & E).
  - split; [exact Hw|]. split; [reflexivity|]. split; [reflexivity|].
    split; [reflexivity|]. cbn [fs w1]. split.
    + intros key st wr rd H.
      exact (key_possible dst_root source origin days w _ _ H).
    + intros key n H _. eauto.
  - split.
    + cbn. apply NoDup_singleton.
    + intros key Hkey. cbn in Hkey. apply list_elem_of_singleton in Hkey.
      subst key. split; [left; reflexivity|]. split; [reflexivity|].
      left. reflexivity.
  - cbn [length]. lia.
  - rewrite E. destruct o as [[]|e]; eauto.
Qed.

Lemma process_existing_terminates_witness :
  exists o w',
    process_existing
      (length (possible_dirs Examples.one_file "/out" "mtime" ORIGIN_DATE 10) + 2)
      "/w" "/out" "mtime" ORIGIN_DATE 10 {["png"]} Examples.one_file
    = Some (o, w').
Proof.
  apply (process_existing_terminates "/w" "/out" "mtime" ORIGIN_DATE 10
           {["png"]} Examples.one_file).
  - split; [constructor|].
    intros key n H. apply elem_of_list_to_map_2, list_elem_of_In in H.
    cbn in H.
    repeat (destruct H as [[= <- <-]|H]; [repeat constructor|]).
    contradiction.
  - lia.
Defined.

(** ** [main] without the sweep *)

(** X19.  Without [--process-existing] the files already there are not
    moved.  [main] then ends for every course of events, without any
    walk; and whatever it returns or raises, an entry of the file system
    at another path than those of the arrivals is afterwards where and
    what it was. *)
Theorem main_without_sweep (args : Namespace) (fuel : nat)
    (arrivals : list arrival) (w : world) :
  process_existing_flag args = false ->
  exists o w',
    main args fuel arrivals w = Some (o, w')
    /\ forall key n,
         fs w !! key = Some n ->
         (forall a, In a arrivals ->
            key <> resolve (cwd w)
                     (posixpath.join (watch_dir args) (a_name a))) ->
         fs w' !! key = Some n.
Proof.
  intros Hflag. unfold main.
  destruct (strptime.parse strptime.origin_format (origin args))
    as [origin_|e]; [|eauto].
  destruct (os_makedirs (dst_dir args) w) as [[[]|e] w1] eqn:Em.
  2: { exists (Raise e), w1. split; [reflexivity|].
       intros key n H _.
       exact (proj1 (proj2 (os_makedirs_dirs_added _ _ _ _ Em)) _ _ H). }
  destruct (os_makedirs_dirs_added _ _ _ _ Em) as (C1 & L1 & _).
  assert (Hwarn : exists ow w2,
            (if String.eqb (source args) "exif" && negb (EXIF_AVAILABLE w1)
             then print PILLOW_WARNING else ret tt) w1 = (ow, w2)
            /\ fs w2 = fs w1 /\ cwd w2 = cwd w1).
  { destruct (_ && _); [|eexists _, _; split; [reflexivity|]; auto].
    unfold print. destruct (utf8 _); eexists _, _;
      (split; [reflexivity|]); auto. }
  destruct Hwarn as (ow & w2 & -> & F2 & C2).
  destruct ow as [[]|e].
  2: { exists (Raise e), w2. split; [reflexivity|].
       intros key n H _. rewrite F2. apply L1, H. }
  unfold main_run. rewrite Hflag.
  unfold bind at 1.
  destruct (observer_start (watch_dir args) w2) as [[[]|e] w3] eqn:Es.
  2: { exists (Raise e), w3. split; [reflexivity|].
       unfold observer_start in Es.
       destruct (node_at w2 (watch_dir args)) as [?|];
         try discriminate;
         injection Es as <- <-; intros key n H _; rewrite F2; apply L1, H. }
  assert (E3 : w3 = w2).
  { unfold observer_start in Es.
    destruct (node_at w2 (watch_dir args)) as [?|];
      try discriminate. injection Es as <-. reflexivity. }
  subst w3. unfold bind at 1.
  match goal with
  | |- context [print ?l w2] => destruct (print l w2) as [op w4] eqn:Ep
  end.
  assert (F4 : fs w4 = fs w2 /\ cwd w4 = cwd w2).
  { unfold print in Ep. destruct (utf8 _); injection Ep as <- <-; auto. }
  destruct F4 as [F4 C4].
  destruct op as [[]|e].
  2: { exists (Raise e), w4. split; [reflexivity|].
       intros key n H _. rewrite F4, F2. apply L1, H. }
  match goal with
  | |- context [observer_run ?h ?d ?l ?x] =>
      destruct (observer_run h d l x) as [o w'] eqn:Eo;
      destruct (observer_run_others h d l x w' o Eo) as (_ & P)
  end.
  exists o, w'. split; [reflexivity|].
  intros key n H Hk. apply P.
  - rewrite F4, F2. apply L1, H.
  - intros a Ha. rewrite C4, C2, C1. apply Hk, Ha.
Qed.

Lemma main_without_sweep_witness :
  exists o w',
    main (mkargs "/w" "/out" 10 "2025-05-01" "mtime" "png,jpg,jpeg" false) 0
      [mkarrival "b.png" (Examples.png Examples.t_0425 "B")] Examples.one_file
    = Some (o, w')
    /\ forall key n,
         fs Examples.one_file !! key = Some n ->
         (forall a,
            In a [mkarrival "b.png" (Examples.png Examples.t_0425 "B")] ->
            key <> resolve (cwd Examples.one_file)
                     (posixpath.join
                        (watch_dir (mkargs "/w" "/out" 10 "2025-05-01" "mtime"
                                      "png,jpg,jpeg" false))
                        (a_name a))) ->
         fs w' !! key = Some n.
Proof.
  apply (main_without_sweep
           (mkargs "/w" "/out" 10 "2025-05-01" "mtime" "png,jpg,jpeg" false) 0
           [mkarrival "b.png" (Examples.png Examples.t_0425 "B")]
           Examples.one_file).
  reflexivity.
Defined.

(** ** The sweep is complete *)

Section Basename.

Lemma _rfind_app (c : ascii) (a b : string) (i acc : Z) :
  _rfind c (a +:+ b) i acc
  = _rfind c b (i + Z.of_nat (String.length a)) (_rfind c a i acc).
Proof.
  revert i acc. induction a as [|x a IH]; intros i acc.
  - rewrite app_nil_l_s. cbn. rewrite Z.add_0_r. reflexivity.
  - rewrite app_cons_s. cbn [_rfind String.length]. rewrite IH.
    f_equal. lia.
Qed.

Lemma _rfind_none (c : ascii) (b : string) (i acc : Z) :
  contains c b = false -> _rfind c b i acc = acc.
Proof.
  revert i. induction b as [|x b IH]; intros i H; [reflexivity|].
  cbn in H. apply orb_false_elim in H as [Hx Hb].
  cbn [_rfind]. rewrite Hx. apply IH, Hb.
Qed.

Lemma string_drop_app (a b : string) :
  string_drop (String.length a) (a +:+ b) = b.
Proof.
  induction a as [|x a IH]; [destruct b; reflexivity|].
  rewrite app_cons_s. exact IH.
Qed.

Lemma basename_after_sep (a f : string) :
  contains "/" f = false ->
  posixpath.basename (a +:+ String "/" f) = f.
Proof.
  intros Hf. unfold posixpath.basename, rfind, slice_from.
  change posixpath.sep with "/"%char.
  rewrite _rfind_app. cbn [_rfind]. rewrite Ascii.eqb_refl.
  rewrite (_rfind_none _ f _ _ Hf).
  replace (Z.to_nat (0 + Z.of_nat (String.length a) + 1))
    with (String.length (a +:+ "/")).
  - rewrite <- (string_drop_app (a +:+ "/") f) at 2.
    rewrite app_assoc_s. reflexivity.
  - rewrite app_length_s. cbn. lia.
Qed.

(** The name of a file joined to a directory is its base name. *)
Lemma basename_join (top f : string) :
  contains "/" f = false ->
  posixpath.basename (posixpath.join top f) = f.
Proof.
  intros Hf. unfold posixpath.join, startswith.
  change (String.prefix "/" f) with (posixpath.isabs f).
  rewrite (isabs_no_sep f Hf).
  destruct (String.eqb_spec top "") as [->|Ht]; cbn [orb].
  - rewrite app_nil_l_s. unfold posixpath.basename, rfind, slice_from.
    change posixpath.sep with "/"%char.
    rewrite (_rfind_none _ f _ _ Hf). reflexivity.
  - destruct (endswith top "/") eqn:Hend.
    + apply endswith_spec in Hend as (a & ->). rewrite app_assoc_s.
      apply basename_after_sep, Hf.
    + apply basename_after_sep, Hf.
Qed.

End Basename.

Section Completeness.

Variables (dst_root source : string) (origin : datetime) (days : Z)
          (exts : gset string).
Variable w0 : world.

Lemma same_file_trans (a b c : node) :
  same_file a b -> same_file b c -> same_file a c.
Proof.
  destruct a, b, c; cbn; try tauto.
  intros (-> & -> & ->) (-> & -> & ->). auto.
Qed.

Lemma settled_here (R key : list string) (m : node) (w : world) :
  is_dir m = false -> R `prefix_of` key -> fs w !! key = Some m ->
  settled R m w.
Proof.
  intros Hm Hp H. exists key, m. split; [exact Hp|]. split; [exact H|].
  destruct m; [cbn; auto|discriminate].
Qed.

Lemma settled_same (R : list string) (m n : node) (w : world) :
  same_file m n -> settled R n w -> settled R m w.
Proof.
  intros Hs (key & n' & Hp & H & Hs'). exists key, n'.
  split; [exact Hp|]. split; [exact H|]. exact (same_file_trans _ _ _ Hs Hs').
Qed.

(** A classification that returns has put the file below the root. *)
Lemma sort_file_moves_below (w w' : world) (path : string)
    (st : stat_result) (data : string) (img : pil_image) :
  cwd w = cwd w0 ->
  node_at w path = Some (File st data img) ->
  ordinary_name (posixpath.basename path) = true ->
  sort_file path dst_root source origin days w = (Ret tt, w') ->
  settled (resolve (cwd w0) dst_root) (File st data img) w'.
Proof.
  intros HC Hsrc Hname Hret.
  destruct (sort_file_cases w path dst_root source origin days st data img Hsrc)
    as (w1 & C1 & S1 & X1 & T1 & L1 & _ & _
        & [(e & E)|[(e & dst & E & Hnone)
                   |(dt & label & dst & Hdt & Hl & Hform & Hdir & Hnone & Hdst & E)]]);
    rewrite E in Hret; try discriminate.
  unfold print in Hret. destruct (utf8 _); [|discriminate].
  injection Hret as <-.
  destruct (get_date_range_folder_label _ _ _ _ Hl) as (b & Eb).
  assert (Hlab : ordinary_name label = true)
    by (rewrite Eb; apply bucket_label_ordinary).
  pose proof (resolve_join (cwd w) dst_root label Hlab) as Rt.
  exists (resolve (cwd w) dst), (File (mkstat (st_mtime st) (now w)) data img).
  cbn [with_fs fs]. split; [|split].
  - rewrite <- HC. destruct Hform as [->|(k & Hk & ->)].
    + rewrite (resolve_join _ _ _ Hname), Rt, <- app_assoc.
      apply prefix_app_r. reflexivity.
    + destruct (candidate_in_directory (cwd w) (posixpath.join dst_root label)
                  (posixpath.basename path) Hname) as (stem & _ & Ek).
      rewrite Ek, Rt, <- app_assoc. apply prefix_app_r. reflexivity.
  - apply lookup_insert_eq.
  - cbn. auto.
Qed.

Variables (st : stat_result) (data : string) (img : pil_image).

(** One name of a listing: every entry is afterwards as it was, or it
    is that name and its file is in the archive. *)
Lemma sweep_file_entries (top g : string) (w w1 : world)
    (stg : stat_result) (datag : string) (imgg : pil_image) :
  wf_world w -> cwd w = cwd w0 ->
  ordinary_name g = true ->
  fs w !! (resolve (cwd w) top ++ [g])%list = Some (File stg datag imgg) ->
  sweep_file top g dst_root source origin days exts w = (Ret tt, w1) ->
  forall key m,
    fs w !! key = Some m ->
    fs w1 !! key = Some m \/ settled (resolve (cwd w0) dst_root) m w1.
Proof.
  intros Hw HC Hg Hfile Hs key m Hkey.
  pose proof Hs as Hs'. unfold sweep_file in Hs'.
  destruct (sweep_eligible g exts); [|injection Hs' as <-; auto].
  unfold bind, lift in Hs'.
  destruct (posixpath.commonpath (posixpath.join top g) dst_root)
    as [common|e]; [|discriminate].
  destruct (String.eqb common dst_root); [injection Hs' as <-; auto|].
  destruct (ordinary_name_fields g Hg) as (Hne & Hsep & _).
  assert (Hn : node_at w (posixpath.join top g) = Some (File stg datag imgg)).
  { unfold node_at. rewrite (join_nonempty top g Hne), resolve_join by assumption.
    exact Hfile. }
  destruct (decide (key = (resolve (cwd w) top ++ [g])%list)) as [->|N].
  - right. rewrite Hfile in Hkey. injection Hkey as <-.
    apply (sort_file_moves_below w w1 _ stg datag imgg HC Hn); [|exact Hs'].
    rewrite basename_join by assumption. exact Hg.
  - left.
    destruct (sweep_file_spares dst_root source origin days exts top g w w1
                (Ret tt) stg datag imgg Hw Hg Hfile Hs) as (_ & _ & P1).
    apply P1; [exact Hkey|]. intros _. exact N.
Qed.

(** The names of a listing, one after the other. *)
Lemma sweep_files_entries (top : string) (files : list string)
    (w w' : world) :
  wf_world w -> cwd w = cwd w0 ->
  NoDup files ->
  (forall g, In g files ->
     ordinary_name g = true
     /\ exists stg datag imgg,
          fs w !! (resolve (cwd w) top ++ [g])%list
          = Some (File stg datag imgg)) ->
  sweep_files top files dst_root source origin days exts w = (Ret tt, w') ->
  forall key m,
    fs w !! key = Some m ->
    fs w' !! key = Some m \/ settled (resolve (cwd w0) dst_root) m w'.
Proof.
  revert w. induction files as [|g rest IH]; intros w Hw HC Hnd Hfiles.
  { intros [= <-]. auto. }
  apply NoDup_cons in Hnd as [Hnotin Hnd].
  cbn [sweep_files]. unfold bind at 1.
  destruct (sweep_file top g dst_root source origin days exts w)
    as [o1 w1] eqn:Eg.
  destruct o1 as [[]|e]; [|discriminate].
  intros Hrest key m Hkey.
  destruct (Hfiles g (or_introl eq_refl)) as (Hg & stg & datag & imgg & Hfile).
  destruct (sweep_file_spares dst_root source origin days exts top g w w1
              (Ret tt) stg datag imgg Hw Hg Hfile Eg) as (W1 & C1 & P1).
  assert (Hfiles1 : forall h, In h rest ->
            ordinary_name h = true
            /\ exists sth datah imgh,
                 fs w1 !! (resolve (cwd w1) top ++ [h])%list
                 = Some (File sth datah imgh)).
  { intros h Hh. destruct (Hfiles h (or_intror Hh)) as (Hoh & sth & datah & imgh & Hhf).
    split; [exact Hoh|]. exists sth, datah, imgh. rewrite C1.
    apply P1; [exact Hhf|]. intros _ E. apply app_inj_tail in E as [_ ->].
    apply Hnotin, list_elem_of_In, Hh. }
  assert (HC1 : cwd w1 = cwd w0) by congruence.
  pose proof (IH w1 W1 HC1 Hnd Hfiles1 Hrest) as IH1.
  destruct (sweep_file_entries top g w w1 stg datag imgg Hw HC Hg Hfile Eg
              key m Hkey) as [H1|(key' & m' & Hp & H1 & Hs)].
  - exact (IH1 key m H1).
  - right. destruct (IH1 key' m' H1) as [H2|H2].
    + exists key', m'. auto.
    + exact (settled_same _ _ _ _ Hs H2).
Qed.

(** A name of the listing that is eligible and that the check of the
    root does not exclude: its file is in the archive afterwards. *)
Lemma sweep_files_processes (top f : string) (files : list string)
    (w w' : world) :
  wf_world w -> cwd w = cwd w0 ->
  NoDup files ->
  (forall g, In g files ->
     ordinary_name g = true
     /\ exists stg datag imgg,
          fs w !! (resolve (cwd w) top ++ [g])%list
          = Some (File stg datag imgg)) ->
  sweep_files top files dst_root source origin days exts w = (Ret tt, w') ->
  In f files ->
  fs w !! (resolve (cwd w) top ++ [f])%list = Some (File st data img) ->
  sweep_eligible f exts = true ->
  posixpath.commonpath (posixpath.join top f) dst_root <> Ret dst_root ->
  settled (resolve (cwd w0) dst_root) (File st data img) w'.
Proof.
  revert w. induction files as [|g rest IH]; intros w Hw HC Hnd Hfiles;
    [intros _ []|].
  apply NoDup_cons in Hnd as [Hnotin Hnd].
  cbn [sweep_files]. unfold bind at 1.
  destruct (sweep_file top g dst_root source origin days exts w)
    as [o1 w1] eqn:Eg.
  destruct o1 as [[]|e]; [|discriminate].
  intros Hrest Hin Hf Hel Hcp.
  destruct (Hfiles g (or_introl eq_refl)) as (Hg & stg & datag & imgg & Hfile).
  destruct (sweep_file_spares dst_root source origin days exts top g w w1
              (Ret tt) stg datag imgg Hw Hg Hfile Eg) as (W1 & C1 & P1).
  assert (Hfiles1 : forall h, In h rest ->
            ordinary_name h = true
            /\ exists sth datah imgh,
                 fs w1 !! (resolve (cwd w1) top ++ [h])%list
                 = Some (File sth datah imgh)).
  { intros h Hh. destruct (Hfiles h (or_intror Hh)) as (Hoh & sth & datah & imgh & Hhf).
    split; [exact Hoh|]. exists sth, datah, imgh. rewrite C1.
    apply P1; [exact Hhf|]. intros _ E. apply app_inj_tail in E as [_ ->].
    apply Hnotin, list_elem_of_In, Hh. }
  assert (HC1 : cwd w1 = cwd w0) by congruence.
  destruct Hin as [->|Hin].
  - (* the name itself *)
    assert (Hs1 : settled (resolve (cwd w0) dst_root) (File st data img) w1).
    { pose proof Eg as Eg'. unfold sweep_file in Eg'. rewrite Hel in Eg'.
      unfold bind, lift in Eg'.
      destruct (posixpath.commonpath (posixpath.join top f) dst_root)
        as [common|e]; [|discriminate].
      destruct (String.eqb_spec common dst_root) as [->|_];
        [exfalso; apply Hcp; reflexivity|].
      destruct (ordinary_name_fields f Hg) as (Hne & Hsep & _).
      apply (sort_file_moves_below w w1 (posixpath.join top f) st data img HC);
        [| |exact Eg'].
      - unfold node_at.
        rewrite (join_nonempty top f Hne), resolve_join by assumption.
        exact Hf.
      - rewrite basename_join by assumption. exact Hg. }
    destruct Hs1 as (key' & m' & Hp & H1 & Hs).
    destruct (sweep_files_entries top rest w1 w' W1 HC1 Hnd Hfiles1 Hrest
                key' _ H1) as [H2|H2].
    + exists key', m'. auto.
    + exact (settled_same _ _ _ _ Hs H2).
  - (* a later name *)
    apply (IH w1 W1 HC1 Hnd Hfiles1 Hrest Hin); [|exact Hel|exact Hcp].
    rewrite C1. apply P1; [exact Hf|].
    intros _ E. apply app_inj_tail in E as [_ ->].
    apply Hnotin, list_elem_of_In, Hin.
Qed.

(** A directory stays where it is. *)
Lemma sweep_files_dirs (top : string) (files : list string) (w w' : world)
    (o : outcome unit) :
  wf_world w ->
  NoDup files ->
  (forall g, In g files ->
     ordinary_name g = true
     /\ exists stg datag imgg,
          fs w !! (resolve (cwd w) top ++ [g])%list
          = Some (File stg datag imgg)) ->
  sweep_files top files dst_root source origin days exts w = (o, w') ->
  forall key std wr rd,
    fs w !! key = Some (Dir std wr rd) -> fs w' !! key = Some (Dir std wr rd).
Proof.
  intros Hw Hnd Hfiles Hs key std wr rd Hkey.
  destruct (sweep_files_spares dst_root source origin days exts top files w w'
              o Hw Hnd Hfiles Hs) as (_ & _ & P).
  apply P; [exact Hkey|]. intros g Hg _ ->.
  destruct (Hfiles g Hg) as (_ & stg & datag & imgg & Hgf). congruence.
Qed.

(** [os.scandir] lists every entry of the directory. *)
Lemma os_scandir_complete (top : string) (w w1 : world)
    (dirs files : list string) (name : string) (m : node) :
  os_scandir top w = (Ret (dirs, files), w1) ->
  fs w !! (resolve (cwd w) top ++ [name])%list = Some m ->
  if is_dir m then In name dirs else In name files.
Proof.
  unfold os_scandir.
  destruct (node_at w top) as [[? ? ?|? ? []]|]; try discriminate.
  intros [= <- <- _] Hm.
  set (k := resolve (cwd w) top) in *.
  assert (Hin : In (name, m)
                  (omap (fun '(k', n') =>
                           if bool_decide (k' ≠ [] ∧ removelast k' = k)
                           then Some (List.last k' "", n') else None)
                        (map_to_list (fs w)))).
  { apply list_elem_of_In, list_elem_of_omap.
    exists ((k ++ [name])%list, m). split.
    - apply elem_of_map_to_list. exact Hm.
    - rewrite bool_decide_eq_true_2.
      + rewrite last_last. reflexivity.
      + split; [destruct k; discriminate|apply removelast_last]. }
  destruct (is_dir m) eqn:Hd.
  - apply in_map_iff. exists (name, m). split; [reflexivity|].
    apply filter_In. split; [exact Hin|exact Hd].
  - apply in_map_iff. exists (name, m). split; [reflexivity|].
    apply filter_In. split; [exact Hin|]. cbn. rewrite Hd. reflexivity.
Qed.

End Completeness.

Section Walk_complete.

Variables (dst_root source : string) (origin : datetime) (days : Z)
          (exts : gset string).
Variable w0 : world.
Variables (f : string) (st : stat_result) (data : string) (img : pil_image).
Hypothesis f_eligible : sweep_eligible f exts = true.

Lemma path_listable_key (w : world) (top : string) :
  path_listable w top = true ->
  exists std wr, fs w !! resolve (cwd w) top = Some (Dir std wr true)
                 /\ node_at w top = Some (Dir std wr true).
Proof.
  unfold path_listable.
  destruct (node_at w top) as [[? ? ?|std wr []]|] eqn:E; try discriminate.
  intros _. exists std, wr. split; [|reflexivity].
  unfold node_at in E. destruct (String.eqb top ""); [discriminate|exact E].
Qed.

Lemma path_listable_preserved (w w' : world) (top : string) :
  cwd w' = cwd w ->
  (forall key std wr rd,
     fs w !! key = Some (Dir std wr rd) -> fs w' !! key = Some (Dir std wr rd)) ->
  path_listable w top = true -> path_listable w' top = true.
Proof.
  intros HC Hd. unfold path_listable, node_at. rewrite HC.
  destruct (String.eqb top ""); [auto|].
  destruct (fs w !! resolve (cwd w) top) as [[? ? ?|std wr []]|] eqn:E;
    try discriminate.
  rewrite (Hd _ _ _ _ E). reflexivity.
Qed.

(** When the walk returns, a file that was in the archive or still to
    come is in the archive. *)
Lemma _walk_complete (fuel : nat) (stack : list string) (w w' : world) :
  wf_world w -> cwd w = cwd w0 ->
  _walk fuel stack dst_root source origin days exts w = Some (Ret tt, w') ->
  settled (resolve (cwd w0) dst_root) (File st data img) w
  \/ pending (cwd w0) dst_root f (File st data img) stack w ->
  settled (resolve (cwd w0) dst_root) (File st data img) w'.
Proof.
  revert stack w. induction fuel as [|fuel IH]; intros [|top rest] w Hw HC;
    cbn [_walk]; try discriminate.
  { intros [= <-] [H|(top & ds & [] & _)]. exact H. }
  { intros [= <-] [H|(top & ds & [] & _)]. exact H. }
  destruct (os_scandir top w) as [[[dirs files]|e] w1] eqn:Es.
  2: { apply os_scandir_world in Es as E1. subst w1. intros Hwalk Hsp.
       apply (IH rest w Hw HC Hwalk).
       destruct Hsp as [H|(top' & ds & [<-|Hin] & Hdir & Hrest)]; [left; exact H| |].
       - exfalso. apply path_listable_key in Hdir as (std & wr & _ & Hn).
         unfold os_scandir in Es. rewrite Hn in Es. discriminate.
       - right. exists top', ds. auto. }
  destruct (os_scandir_files top w w1 dirs files Hw Es) as (-> & Hnd & Hfiles).
  destruct (os_scandir_dirs top w w dirs files Hw Es) as (Hndd & Hdirs).
  destruct (sweep_files top files dst_root source origin days exts w)
    as [o1 w2] eqn:Ef.
  destruct o1 as [[]|e]; [|discriminate].
  destruct (sweep_files_spares dst_root source origin days exts top files w w2
              (Ret tt) Hw Hnd Hfiles Ef) as (W2 & C2 & _).
  pose proof (sweep_files_entries dst_root source origin days exts w0 top files
                w w2 Hw HC Hnd Hfiles Ef) as Hent.
  pose proof (sweep_files_dirs dst_root source origin days exts top files w w2
                (Ret tt) Hw Hnd Hfiles Ef) as Hdirs2.
  assert (HC2 : cwd w2 = cwd w0) by congruence.
  intros Hwalk Hsp. apply (IH _ w2 W2 HC2 Hwalk).
  destruct Hsp as [(key' & m' & Hp & H1 & Hs)
                  |(top' & ds & Hin & Hdir & Hfile & Hway & Hcp)].
  { left. destruct (Hent key' _ H1) as [H2|H2].
    - exists key', m'. auto.
    - exact (settled_same _ _ _ _ Hs H2). }
  destruct (Hent _ _ Hfile) as [Hfile2|Hs2]; [|left; exact Hs2].
  assert (Hway2 : forall i, (i < length ds)%nat ->
            exists std wr,
              fs w2 !! (resolve (cwd w0) top' ++ take (S i) ds)%list
              = Some (Dir std wr true)).
  { intros i Hi. destruct (Hway i Hi) as (std & wr & H). eauto. }
  pose proof (path_listable_preserved w w2 top' C2 Hdirs2 Hdir) as Hdir2.
  destruct Hin as [<-|Hin].
  2: { right. exists top', ds. split; [apply in_or_app; right; exact Hin|].
       auto. }
  destruct ds as [|d ds].
  - (* the file is listed here *)
    left. cbn [app fold_left] in *.
    apply (sweep_files_processes dst_root source origin days exts w0 st data img
             top f files w w2 Hw HC Hnd Hfiles Ef); try assumption.
    + rewrite <- HC in Hfile.
      exact (os_scandir_complete top w w dirs files f _ Es Hfile).
    + rewrite HC. exact Hfile.
  - (* the file is below a directory listed here *)
    destruct (Hway 0%nat ltac:(cbn; lia)) as (std & wr & Hd).
    change (take 1 (d :: ds)) with [d] in Hd. rewrite <- HC in Hd.
    pose proof (os_scandir_complete top w w dirs files d _ Es Hd) as Hind.
    cbn [is_dir] in Hind.
    destruct (Hdirs d Hind) as (Hod & _).
    assert (Er : resolve (cwd w0) (posixpath.join top d)
                 = (resolve (cwd w0) top ++ [d])%list)
      by (apply resolve_join, Hod).
    right. exists (posixpath.join top d), ds.
    split; [apply in_or_app; left; apply in_map, Hind|].
    split.
    { unfold path_listable, node_at.
      destruct (ordinary_name_fields d Hod) as (Hne & _ & _).
      rewrite (join_nonempty top d Hne), HC2, Er, <- HC.
      rewrite (Hdirs2 _ _ _ _ Hd). reflexivity. }
    split.
    { rewrite Er, <- app_assoc. exact Hfile2. }
    split.
    { intros i Hi. rewrite Er, <- app_assoc.
      exact (Hway2 (S i) ltac:(cbn; lia)). }
    exact Hcp.
Qed.

End Walk_complete.

(** X20.  The sweep is complete.  In a file system whose entries have
    ordinary names, when [process_existing] returns, every eligible file
    of the tree of the watched directory that the check of the root does
    not exclude, and that the walk can reach (the watched directory and
    the directories on the way to the file allow their listing), is in
    the archive: an entry below the destination root holds a file with
    its data, its picture and its modification time. *)
Theorem sweep_is_complete (fuel : nat) (watch_dir dst_root source : string)
    (origin : datetime) (days : Z) (exts : gset string) (w w' : world)
    (ds : list string) (f : string)
    (st : stat_result) (data : string) (img : pil_image) :
  wf_world w ->
  process_existing fuel watch_dir dst_root source origin days exts w
  = Some (Ret tt, w') ->
  path_listable w watch_dir = true ->
  (forall i, (i < length ds)%nat ->
     exists std wr,
       fs w !! (resolve (cwd w) watch_dir ++ take (S i) ds)%list
       = Some (Dir std wr true)) ->
  fs w !! (resolve (cwd w) watch_dir ++ ds ++ [f])%list
  = Some (File st data img) ->
  sweep_eligible f exts = true ->
  posixpath.commonpath
    (posixpath.join (fold_left posixpath.join ds watch_dir) f) dst_root
  <> Ret dst_root ->
  exists (key : list string) (st' : stat_result),
    resolve (cwd w) dst_root `prefix_of` key
    /\ fs w' !! key = Some (File st' data img)
    /\ st_mtime st' = st_mtime st.
Proof.
  intros Hw Hp Hdir Hway Hfile Hel Hcp.
  unfold process_existing in Hp.
  rewrite (print_Ret "Processing existing files..." _ eq_refl) in Hp.
  set (w1 := mkworld (fs w) (cwd w) (EXIF_AVAILABLE w) (now w)
               ("Processing existing files..." :: stdout w) (image_opens w))
    in *.
  destruct (_walk fuel [watch_dir] dst_root source origin days exts w1)
    as [[[[]|e] w2]|] eqn:Ewalk; try discriminate.
  rewrite (print_Ret "Existing done." _ eq_refl) in Hp.
  injection Hp as <-. cbn [fs].
  destruct (_walk_complete dst_root source origin days exts w f st data img Hel
              fuel [watch_dir] w1 w2 (Hw : wf_world w1)
              (eq_refl : cwd w1 = cwd w) Ewalk) as (key & m & Hk & Hm & Hs).
  { right. exists watch_dir, ds. split; [left; reflexivity|]. auto. }
  destruct m as [st' data' img'|]; [|contradiction].
  destruct Hs as (Hmt & <- & <-). exists key, st'. auto.
Qed.

Lemma sweep_is_complete_witness :
  exists w' : world,
    process_existing 4 "/w" "/out" "mtime" ORIGIN_DATE 10 {["png"]}
      Examples.one_file = Some (Ret tt, w')
    /\ exists (key : list string) (st' : stat_result),
         resolve (cwd Examples.one_file) "/out" `prefix_of` key
         /\ fs w' !! key = Some (File st' "A" NoGetexif)
         /\ st_mtime st' = Examples.t_0513.
Proof.
  destruct (process_existing 4 "/w" "/out" "mtime" ORIGIN_DATE 10 {["png"]}
              Examples.one_file) as [[[[]|e] w']|] eqn:E;
    [|vm_compute in E; discriminate..].
  exists w'. split; [reflexivity|].
  apply (sweep_is_complete 4 "/w" "/out" "mtime" ORIGIN_DATE 10 {["png"]}
           Examples.one_file w' [] "a.png"
           (mkstat Examples.t_0513 Examples.t_0513) "A" NoGetexif).
  - split; [constructor|].
    intros key n H. apply elem_of_list_to_map_2, list_elem_of_In in H.
    cbn in H.
    repeat (destruct H as [[= <- <-]|H]; [repeat constructor|]).
    contradiction.
  - exact E.
  - vm_compute. reflexivity.
  - intros i Hi. cbn in Hi. lia.
  - vm_compute. reflexivity.
  - vm_compute. reflexivity.
  - vm_compute. discriminate.
Defined.

(** ** Nothing is left behind *)

Section Clean.

Variables (dst_root source : string) (origin : datetime) (days : Z)
          (exts : gset string).
Variable w0 : world.

(** A classification that returns has removed the entry of the file,
    and has made no file outside the tree of the root. *)
Lemma sort_file_Ret_clean (w w' : world) (path : string)
    (st : stat_result) (data : string) (img : pil_image) :
  cwd w = cwd w0 ->
  node_at w path = Some (File st data img) ->
  ordinary_name (posixpath.basename path) = true ->
  sort_file path dst_root source origin days w = (Ret tt, w') ->
  fs w' !! resolve (cwd w) path = None
  /\ forall key m,
       ~ resolve (cwd w0) dst_root `prefix_of` key ->
       is_dir m = false ->
       fs w' !! key = Some m -> fs w !! key = Some m.
Proof.
  intros HC Hsrc Hname Hret.
  assert (Hkey : fs w !! resolve (cwd w) path = Some (File st data img)).
  { unfold node_at in Hsrc. destruct (String.eqb path ""); [discriminate|].
    exact Hsrc. }
  destruct (sort_file_cases w path dst_root source origin days st data img Hsrc)
    as (w1 & C1 & S1 & X1 & T1 & L1 & _ & N1
        & [(e & E)|[(e & dst & E & Hnone)
                   |(dt & label & dst & Hdt & Hl & Hform & Hdir & Hnone & Hdst & E)]]);
    rewrite E in Hret; try discriminate.
  unfold print in Hret. destruct (utf8 _); [|discriminate].
  injection Hret as <-. cbn [with_fs fs].
  destruct (get_date_range_folder_label _ _ _ _ Hl) as (b & Eb).
  assert (Hlab : ordinary_name label = true)
    by (rewrite Eb; apply bucket_label_ordinary).
  pose proof (resolve_join (cwd w) dst_root label Hlab) as Rt.
  assert (Hbelow : resolve (cwd w0) dst_root `prefix_of` resolve (cwd w) dst).
  { rewrite <- HC. destruct Hform as [->|(k & Hk & ->)].
    - rewrite (resolve_join _ _ _ Hname), Rt, <- app_assoc.
      apply prefix_app_r. reflexivity.
    - destruct (candidate_in_directory (cwd w) (posixpath.join dst_root label)
                  (posixpath.basename path) Hname) as (stem & _ & Ek).
      rewrite Ek, Rt, <- app_assoc. apply prefix_app_r. reflexivity. }
  split.
  - apply L1 in Hkey. rewrite lookup_insert_ne by congruence.
    apply lookup_delete_eq.
  - intros key m Hout Hm H.
    destruct (decide (key = resolve (cwd w) dst)) as [->|N];
      [contradiction|].
    rewrite lookup_insert_ne in H by congruence.
    apply lookup_delete_Some in H as [_ H].
    destruct (N1 _ _ H) as [H'|(Hd & _)]; [exact H'|congruence].
Qed.

Lemma sweep_file_clean (top g : string) (w w1 : world)
    (stg : stat_result) (datag : string) (imgg : pil_image) :
  wf_world w -> cwd w = cwd w0 ->
  ordinary_name g = true ->
  fs w !! (resolve (cwd w) top ++ [g])%list = Some (File stg datag imgg) ->
  sweep_file top g dst_root source origin days exts w = (Ret tt, w1) ->
  (forall key m,
     ~ resolve (cwd w0) dst_root `prefix_of` key ->
     is_dir m = false ->
     fs w1 !! key = Some m -> fs w !! key = Some m)
  /\ (sweep_eligible g exts = true ->
      posixpath.commonpath (posixpath.join top g) dst_root <> Ret dst_root ->
      fs w1 !! (resolve (cwd w) top ++ [g])%list = None).
Proof.
  intros Hw HC Hg Hfile Hs. unfold sweep_file in Hs.
  destruct (sweep_eligible g exts);
    [|injection Hs as <-; split; [auto|discriminate]].
  unfold bind, lift in Hs.
  destruct (posixpath.commonpath (posixpath.join top g) dst_root)
    as [common|e]; [|discriminate].
  destruct (String.eqb_spec common dst_root) as [Ec|Hc].
  { injection Hs as <-. split; [auto|]. intros _ H. exfalso. apply H.
    rewrite Ec. reflexivity. }
  destruct (ordinary_name_fields g Hg) as (Hne & Hsep & _).
  assert (Hn : node_at w (posixpath.join top g) = Some (File stg datag imgg)).
  { unfold node_at. rewrite (join_nonempty top g Hne), resolve_join by assumption.
    exact Hfile. }
  destruct (sort_file_Ret_clean w w1 _ stg datag imgg HC Hn) as (Hgone & Hold);
    [rewrite basename_join by assumption; exact Hg|exact Hs|].
  rewrite resolve_join in Hgone by assumption.
  split; [exact Hold|]. intros _ _. exact Hgone.
Qed.

Lemma sweep_files_clean (top : string) (files : list string) (w w' : world) :
  wf_world w -> cwd w = cwd w0 ->
  NoDup files ->
  (forall g, In g files ->
     ordinary_name g = true
     /\ exists stg datag imgg,
          fs w !! (resolve (cwd w) top ++ [g])%list
          = Some (File stg datag imgg)) ->
  sweep_files top files dst_root source origin days exts w = (Ret tt, w') ->
  (forall key m,
     ~ resolve (cwd w0) dst_root `prefix_of` key ->
     is_dir m = false ->
     fs w' !! key = Some m -> fs w !! key = Some m)
  /\ (forall f,
        In f files ->
        sweep_eligible f exts = true ->
        posixpath.commonpath (posixpath.join top f) dst_root <> Ret dst_root ->
        ~ resolve (cwd w0) dst_root `prefix_of` (resolve (cwd w) top ++ [f])%list ->
        no_file_at (resolve (cwd w) top ++ [f])%list w').
Proof.
  revert w. induction files as [|g rest IH]; intros w Hw HC Hnd Hfiles.
  { intros [= <-]. split; [auto|intros f []]. }
  apply NoDup_cons in Hnd as [Hnotin Hnd].
  cbn [sweep_files]. unfold bind at 1.
  destruct (sweep_file top g dst_root source origin days exts w)
    as [o1 w1] eqn:Eg.
  destruct o1 as [[]|e]; [|discriminate].
  intros Hrest.
  destruct (Hfiles g (or_introl eq_refl)) as (Hg & stg & datag & imgg & Hfile).
  destruct (sweep_file_spares dst_root source origin days exts top g w w1
              (Ret tt) stg datag imgg Hw Hg Hfile Eg) as (W1 & C1 & P1).
  destruct (sweep_file_clean top g w w1 stg datag imgg Hw HC Hg Hfile Eg)
    as (Hold1 & Hgone1).
  assert (Hfiles1 : forall h, In h rest ->
            ordinary_name h = true
            /\ exists sth datah imgh,
                 fs w1 !! (resolve (cwd w1) top ++ [h])%list
                 = Some (File sth datah imgh)).
  { intros h Hh. destruct (Hfiles h (or_intror Hh)) as (Hoh & sth & datah & imgh & Hhf).
    split; [exact Hoh|]. exists sth, datah, imgh. rewrite C1.
    apply P1; [exact Hhf|]. intros _ E. apply app_inj_tail in E as [_ ->].
    apply Hnotin, list_elem_of_In, Hh. }
  assert (HC1 : cwd w1 = cwd w0) by congruence.
  destruct (IH w1 W1 HC1 Hnd Hfiles1 Hrest) as (Hold & Hgone).
  split.
  - intros key m Hout Hm H. apply Hold1; [exact Hout|exact Hm|].
    apply Hold; assumption.
  - intros f [->|Hin] Hel Hcp Hout.
    + intros m H. destruct (is_dir m) eqn:Hm; [reflexivity|].
      apply (Hold _ _ Hout Hm) in H. rewrite (Hgone1 Hel Hcp) in H. discriminate.
    + rewrite <- C1. apply Hgone; try assumption. rewrite C1. exact Hout.
Qed.

End Clean.

Section Walk_clean.

Variables (dst_root source : string) (origin : datetime) (days : Z)
          (exts : gset string).
Variable w0 : world.
Variables (f : string) (key0 : list string).
Hypothesis f_eligible : sweep_eligible f exts = true.
Hypothesis key0_outside : ~ resolve (cwd w0) dst_root `prefix_of` key0.

(** When the walk returns, a place outside the archive where no file
    was, or where a file was still to come, holds no file. *)
Lemma _walk_clean (fuel : nat) (stack : list string) (w w' : world) :
  wf_world w -> cwd w = cwd w0 ->
  _walk fuel stack dst_root source origin days exts w = Some (Ret tt, w') ->
  no_file_at key0 w \/ pending_at (cwd w0) dst_root f key0 stack w ->
  no_file_at key0 w'.
Proof.
  revert stack w. induction fuel as [|fuel IH]; intros [|top rest] w Hw HC;
    cbn [_walk]; try discriminate.
  { intros [= <-] [H|(top & ds & [] & _)]. exact H. }
  { intros [= <-] [H|(top & ds & [] & _)]. exact H. }
  destruct (os_scandir top w) as [[[dirs files]|e] w1] eqn:Es.
  2: { apply os_scandir_world in Es as E1. subst w1. intros Hwalk Hsp.
       apply (IH rest w Hw HC Hwalk).
       destruct Hsp as [H|(top' & ds & [<-|Hin] & Hdir & Hrest)]; [left; exact H| |].
       - exfalso. apply path_listable_key in Hdir as (std & wr & _ & Hn).
         unfold os_scandir in Es. rewrite Hn in Es. discriminate.
       - right. exists top', ds. auto. }
  destruct (os_scandir_files top w w1 dirs files Hw Es) as (-> & Hnd & Hfiles).
  destruct (os_scandir_dirs top w w dirs files Hw Es) as (Hndd & Hdirs).
  destruct (sweep_files top files dst_root source origin days exts w)
    as [o1 w2] eqn:Ef.
  destruct o1 as [[]|e]; [|discriminate].
  destruct (sweep_files_spares dst_root source origin days exts top files w w2
              (Ret tt) Hw Hnd Hfiles Ef) as (W2 & C2 & _).
  destruct (sweep_files_clean dst_root source origin days exts w0 top files
              w w2 Hw HC Hnd Hfiles Ef) as (Hold & Hgone).
  pose proof (sweep_files_dirs dst_root source origin days exts top files w w2
                (Ret tt) Hw Hnd Hfiles Ef) as Hdirs2.
  assert (HC2 : cwd w2 = cwd w0) by congruence.
  intros Hwalk Hsp. apply (IH _ w2 W2 HC2 Hwalk).
  destruct (fs w2 !! key0) as [m2|] eqn:E2.
  2: { left. intros m H. rewrite E2 in H. discriminate. }
  destruct (is_dir m2) eqn:Hm2.
  { left. intros m H. rewrite E2 in H. injection H as <-. exact Hm2. }
  pose proof (Hold _ _ key0_outside Hm2 E2) as E1.
  destruct Hsp as [Hno|(top' & ds & Hin & Hdir & Ekey & Hway & Hcp)].
  { apply Hno in E1. congruence. }
  assert (Hway2 : forall i, (i < length ds)%nat ->
            exists std wr,
              fs w2 !! (resolve (cwd w0) top' ++ take (S i) ds)%list
              = Some (Dir std wr true)).
  { intros i Hi. destruct (Hway i Hi) as (std & wr & H). eauto. }
  pose proof (path_listable_preserved w w2 top' C2 Hdirs2 Hdir) as Hdir2.
  destruct Hin as [<-|Hin].
  2: { right. exists top', ds. split; [apply in_or_app; right; exact Hin|].
       auto. }
  destruct ds as [|d ds].
  - (* the file is listed here *)
    exfalso. cbn [app fold_left] in *.
    assert (Hin : In f files).
    { rewrite Ekey, <- HC in E1.
      pose proof (os_scandir_complete top w w dirs files f _ Es E1) as H.
      rewrite Hm2 in H. exact H. }
    assert (Hno : no_file_at (resolve (cwd w) top ++ [f])%list w2).
    { apply Hgone; try assumption. rewrite HC, <- Ekey. exact key0_outside. }
    rewrite HC, <- Ekey in Hno. apply Hno in E2. congruence.
  - (* the file is below a directory listed here *)
    destruct (Hway 0%nat ltac:(cbn; lia)) as (std & wr & Hd).
    change (take 1 (d :: ds)) with [d] in Hd. rewrite <- HC in Hd.
    pose proof (os_scandir_complete top w w dirs files d _ Es Hd) as Hind.
    cbn [is_dir] in Hind.
    destruct (Hdirs d Hind) as (Hod & _).
    assert (Er : resolve (cwd w0) (posixpath.join top d)
                 = (resolve (cwd w0) top ++ [d])%list)
      by (apply resolve_join, Hod).
    right. exists (posixpath.join top d), ds.
    split; [apply in_or_app; left; apply in_map, Hind|].
    split.
    { unfold path_listable, node_at.
      destruct (ordinary_name_fields d Hod) as (Hne & _ & _).
      rewrite (join_nonempty top d Hne), HC2, Er, <- HC.
      rewrite (Hdirs2 _ _ _ _ Hd). reflexivity. }
    split.
    { rewrite Er, <- app_assoc. exact Ekey. }
    split.
    { intros i Hi. rewrite Er, <- app_assoc.
      exact (Hway2 (S i) ltac:(cbn; lia)). }
    exact Hcp.
Qed.

End Walk_clean.

(** X21.  Nothing is left behind.  In a file system whose entries have
    ordinary names, when [process_existing] returns, no eligible file
    that the check of the root does not exclude is left at a place of
    the tree of the watched directory that the walk can reach (the
    watched directory and the directories on the way allow their
    listing) and that is outside the tree of the destination root: at
    every such place there is afterwards no file. *)
Theorem sweep_leaves_nothing_behind (fuel : nat)
    (watch_dir dst_root source : string) (origin : datetime) (days : Z)
    (exts : gset string) (w w' : world) (ds : list string) (f : string) :
  wf_world w ->
  process_existing fuel watch_dir dst_root source origin days exts w
  = Some (Ret tt, w') ->
  path_listable w watch_dir = true ->
  (forall i, (i < length ds)%nat ->
     exists std wr,
       fs w !! (resolve (cwd w) watch_dir ++ take (S i) ds)%list
       = Some (Dir std wr true)) ->
  sweep_eligible f exts = true ->
  posixpath.commonpath
    (posixpath.join (fold_left posixpath.join ds watch_dir) f) dst_root
  <> Ret dst_root ->
  ~ resolve (cwd w) dst_root
    `prefix_of` (resolve (cwd w) watch_dir ++ ds ++ [f])%list ->
  forall m,
    fs w' !! (resolve (cwd w) watch_dir ++ ds ++ [f])%list = Some m ->
    is_dir m = true.
Proof.
  intros Hw Hp Hdir Hway Hel Hcp Hout.
  unfold process_existing in Hp.
  rewrite (print_Ret "Processing existing files..." _ eq_refl) in Hp.
  set (w1 := mkworld (fs w) (cwd w) (EXIF_AVAILABLE w) (now w)
               ("Processing existing files..." :: stdout w) (image_opens w))
    in *.
  destruct (_walk fuel [watch_dir] dst_root source origin days exts w1)
    as [[[[]|e] w2]|] eqn:Ewalk; try discriminate.
  rewrite (print_Ret "Existing done." _ eq_refl) in Hp.
  injection Hp as <-.
  apply (_walk_clean dst_root source origin days exts w f
           (resolve (cwd w) watch_dir ++ ds ++ [f])%list Hel Hout
           fuel [watch_dir] w1 w2 (Hw : wf_world w1)
           (eq_refl : cwd w1 = cwd w) Ewalk).
  right. exists watch_dir, ds. split; [left; reflexivity|]. auto.
Qed.

Lemma sweep_leaves_nothing_behind_witness :
  exists w' : world,
    process_existing 4 "/w" "/out" "mtime" ORIGIN_DATE 10 {["png"]}
      Examples.one_file = Some (Ret tt, w')
    /\ forall m,
         fs w' !! (resolve (cwd Examples.one_file) "/w" ++ [] ++ ["a.png"])%list
         = Some m ->
         is_dir m = true.
Proof.
  destruct (process_existing 4 "/w" "/out" "mtime" ORIGIN_DATE 10 {["png"]}
              Examples.one_file) as [[[[]|e] w']|] eqn:E;
    [|vm_compute in E; discriminate..].
  exists w'. split; [reflexivity|].
  apply (sweep_leaves_nothing_behind 4 "/w" "/out" "mtime" ORIGIN_DATE 10
           {["png"]} Examples.one_file w' [] "a.png").
  - split; [constructor|].
    intros key n H. apply elem_of_list_to_map_2, list_elem_of_In in H.
    cbn in H.
    repeat (destruct H as [[= <- <-]|H]; [repeat constructor|]).
    contradiction.
  - exact E.
  - vm_compute. reflexivity.
  - intros i Hi. cbn in Hi. lia.
  - vm_compute. reflexivity.
  - vm_compute. discriminate.
  - intros [k Hk]. vm_compute in Hk. discriminate.
Defined.
